(** * Aurum gold-price monitor: a shallow embedding of [server.js]

    The server keeps a cache of two reference values (USD per troy ounce
    and the USD→JOD rate), a registry of subscriptions keyed by e-mail, and
    runs an evaluation cycle that converts the cached price to each
    subscriber's unit / currency / purity, classifies it against the
    subscriber's band and sends an alert on a change into a breach.

    JavaScript numbers are IEEE-754 binary64 values.  The arithmetic the
    program uses is collected in the interface [JsNumber]; the program text
    is translated once against that interface and read at two instances:

    - [binary64]: Rocq's primitive floats, the arithmetic node executes;
    - [exact]: rationals extended by NaN, the arithmetic without rounding,
      used for the algebraic laws of the conversion. *)

From Stdlib Require Import Floats ZArith QArith Qabs Qround Lqa Lia.
From Stdlib Require Import Bool List String Ascii Decimal DecimalString.
Import ListNotations.

Set Warnings "-inexact-float,-register-all".

(* ------------------------------------------------------------------ *)
(** ** The numeric interface *)

Class JsNumber (num : Type) : Type := {
  (** the value [NaN] *)
  NaN : num;
  (** the Number a decimal literal [m·10^-k] denotes *)
  decimal : Z -> nat -> num;
  (** [x * y] and [x / y] *)
  nmul : num -> num -> num;
  ndiv : num -> num -> num;
  (** [x < y] and [x <= y]; [x > y] is [y < x], [x >= y] is [y <= x] *)
  nlt : num -> num -> bool;
  nle : num -> num -> bool;
  (** [x === y] on Numbers (also what [Set.prototype.has] decides for the
      non-NaN members used here) *)
  neqb : num -> num -> bool;
  (** [Number.isFinite(x)] *)
  isFinite : num -> bool;
  (** [Number(x.toFixed(4))] *)
  toFixed4 : num -> num
}.

Declare Scope js_scope.
Delimit Scope js_scope with js.
Infix "*" := nmul : js_scope.
Infix "/" := ndiv : js_scope.
Infix "<?" := nlt : js_scope.
Infix "<=?" := nle : js_scope.
Notation "x >? y" := (nlt y x) (at level 70, no associativity) : js_scope.
Notation "x >=? y" := (nle y x) (at level 70, no associativity) : js_scope.
Infix "===" := neqb (at level 70, no associativity) : js_scope.

(** The facts about Numbers the proofs below rely on: no number is below
    itself, [x <= y] excludes [y < x], and NaN is not finite. *)
Class JsNumberLaws (num : Type) {JN : JsNumber num} : Prop := {
  nlt_irrefl : forall x : num, nlt x x = false;
  nle_not_gt : forall x y : num, nle x y = true -> nlt y x = false;
  NaN_not_finite : isFinite NaN = false
}.

(** [10^k], the denominator of a decimal literal with [k] fraction digits. *)
Fixpoint pow10 (k : nat) : positive :=
  match k with
  | O => 1%positive
  | S k' => (10 * pow10 k')%positive
  end.

(* ------------------------------------------------------------------ *)
(** ** Instance 1: binary64 *)

Module F64.

(** [n / d] rounded once to the nearest binary64 value (ties to even): the
    value of a decimal literal, and of a decimal string read back by
    [Number(...)]. *)
Definition of_ratio (s : bool) (n : Z) (d : positive) : float :=
  match n with
  | Zpos p =>
      SF2Prim (SFdiv prec emax (S754_finite s p 0) (S754_finite false d 0))
  | _ => if s then PrimFloat.neg_zero else PrimFloat.zero
  end.

Definition decimal (m : Z) (k : nat) : float :=
  of_ratio (m <? 0)%Z (Z.abs m) (pow10 k).

(** The exact magnitude [m·2^e] of a finite float as a rational. *)
Definition magnitude (m : positive) (e : Z) : Q :=
  match e with
  | Z0 => Zpos m # 1
  | Zpos k => (Zpos m * 2 ^ Zpos k) # 1
  | Zneg k => Zpos m # (2 ^ k)%positive
  end.

(** [Number.prototype.toFixed] with 4 digits, read back by [Number]:
    a non-finite [x] prints as itself; for [|x| >= 10^21] the ordinary
    ToString is used, which reads back as [x]; otherwise [n] is the
    integer nearest to [|x|·10^4], the larger one on a tie, and the
    digits of [n] with the point four places from the right are read
    back with the sign of [x]. *)
Definition toFixed4 (x : float) : float :=
  match Prim2SF x with
  | S754_finite s m e =>
      let a := magnitude m e in
      if Qle_bool ((10 ^ 21)%Z # 1) a then x
      else of_ratio s (Qfloor (a * (10000 # 1) + (1 # 2))) 10000
  | S754_zero _ => PrimFloat.zero
  | _ => x
  end.

Definition isFinite (x : float) : bool :=
  match Prim2SF x with
  | S754_finite _ _ _ | S754_zero _ => true
  | _ => false
  end.

End F64.

#[export] Instance binary64 : JsNumber float := {
  NaN := PrimFloat.nan;
  decimal := F64.decimal;
  nmul := PrimFloat.mul;
  ndiv := PrimFloat.div;
  nlt := PrimFloat.ltb;
  nle := PrimFloat.leb;
  neqb := PrimFloat.eqb;
  isFinite := F64.isFinite;
  toFixed4 := F64.toFixed4
}.

(* ------------------------------------------------------------------ *)
(** ** Instance 2: exact arithmetic *)

Module Exact.

(** A rational, or NaN.  Division by zero, which JavaScript answers with
    an infinity or NaN, is NaN here; the program divides by the constants
    31.1035 and 24 only. *)
Inductive xnum : Type :=
| XNaN
| XNum (q : Q).

Definition lift2 (f : Q -> Q -> Q) (x y : xnum) : xnum :=
  match x, y with
  | XNum a, XNum b => XNum (f a b)
  | _, _ => XNaN
  end.

Definition mul : xnum -> xnum -> xnum := lift2 Qmult.

Definition div (x y : xnum) : xnum :=
  match x, y with
  | XNum a, XNum b => if Qeq_bool b 0 then XNaN else XNum (a / b)
  | _, _ => XNaN
  end.

Definition cmp (f : comparison -> bool) (x y : xnum) : bool :=
  match x, y with
  | XNum a, XNum b => f (a ?= b)%Q
  | _, _ => false
  end.

Definition lt : xnum -> xnum -> bool :=
  cmp (fun c => match c with Lt => true | _ => false end).
Definition le : xnum -> xnum -> bool :=
  cmp (fun c => match c with Gt => false | _ => true end).
Definition eqb : xnum -> xnum -> bool :=
  cmp (fun c => match c with Eq => true | _ => false end).

Definition isFinite (x : xnum) : bool :=
  match x with XNum _ => true | XNaN => false end.

(** Nearest multiple of [10^-4], halves away from zero. *)
Definition round4 (q : Q) : Q :=
  let n := Qfloor (Qabs q * (10000 # 1) + (1 # 2)) in
  (if Qle_bool 0 q then n else (- n)%Z) # 10000.

Definition toFixed4 (x : xnum) : xnum :=
  match x with XNum q => XNum (round4 q) | XNaN => XNaN end.

Definition decimal (m : Z) (k : nat) : xnum :=
  XNum (m # pow10 k).

(** Two results denote the same number. *)
Definition same (x y : xnum) : Prop :=
  match x, y with
  | XNum a, XNum b => a == b
  | XNaN, XNaN => True
  | _, _ => False
  end.

End Exact.

#[export] Instance exact : JsNumber Exact.xnum := {
  NaN := Exact.XNaN;
  decimal := Exact.decimal;
  nmul := Exact.mul;
  ndiv := Exact.div;
  nlt := Exact.lt;
  nle := Exact.le;
  neqb := Exact.eqb;
  isFinite := Exact.isFinite;
  toFixed4 := Exact.toFixed4
}.

(* ------------------------------------------------------------------ *)
(** ** The program *)

Open Scope string_scope.

(** The three strings [evaluateStatus] returns. *)
Inductive Status : Type :=
| below_range
| above_range
| within_range.

Definition Status_eqb (a b : Status) : bool :=
  match a, b with
  | below_range, below_range
  | above_range, above_range
  | within_range, within_range => true
  | _, _ => false
  end.

(** What a call leaves behind: a value, or a thrown exception (a rejected
    promise for the [async] functions). *)
Inductive outcome (E A : Type) : Type :=
| Returned (a : A)
| Thrown (e : E).
Arguments Returned {E A} a.
Arguments Thrown {E A} e.

(** A JavaScript [Map] with string keys: its entries in insertion order. *)
Definition JsMap (V : Type) : Type := list (string * V).

(** [m.set(k, v)]: an existing key keeps its place, a new one goes last. *)
Fixpoint map_set {V : Type} (k : string) (v : V) (m : JsMap V) : JsMap V :=
  match m with
  | [] => [(k, v)]
  | (k', v') :: rest =>
      if String.eqb k' k then (k, v) :: rest else (k', v') :: map_set k v rest
  end.

(** [m.get(k)] *)
Fixpoint map_get {V : Type} (k : string) (m : JsMap V) : option V :=
  match m with
  | [] => None
  | (k', v') :: rest => if String.eqb k' k then Some v' else map_get k rest
  end.

(** The line feed of a template literal. *)
Definition nl : string := String (ascii_of_nat 10) EmptyString.

Section Program.

Context {num : Type} {JN : JsNumber num}.
Local Open Scope js_scope.

(** The engine's StringToNumber (what [Number(s)] does on a string). *)
Variable StringToNumber : string -> num.

(** An [Error] object, by its message. *)
Definition JsError : Type := string.

(** *** Values of request bodies and query strings *)

(** The values on which [Number] returns.  [JObject s] is an array or
    object whose conversion to a primitive gives the string [s]: an
    object built by the query parser or by [JSON.parse] without a member
    named [toString] (["[object Object]"]), an array of such values (its
    elements joined). *)
Inductive jsval : Type :=
| JUndefined
| JNull
| JBoolean (b : bool)
| JNumber (n : num)
| JString (s : string)
| JObject (toString : string).

Definition isNaN (n : num) : bool := negb (n === n).

(** ToBoolean, as [!v] and [a || b] use it. *)
Definition truthy (v : jsval) : bool :=
  match v with
  | JUndefined | JNull => false
  | JBoolean b => b
  | JNumber n => negb ((n === decimal 0 0) || isNaN n)
  | JString s => negb (String.eqb s "")
  | JObject _ => true
  end.

(** [typeof v === "string"] *)
Definition is_string (v : jsval) : bool :=
  match v with JString _ => true | _ => false end.

(** [v === s] for a string literal [s] *)
Definition strict_eq_string (v : jsval) (s : string) : bool :=
  match v with JString s' => String.eqb s' s | _ => false end.

(** [Number(v)] *)
Definition Number (v : jsval) : num :=
  match v with
  | JUndefined => NaN
  | JNull => decimal 0 0
  | JBoolean b => if b then decimal 1 0 else decimal 0 0
  | JNumber n => n
  | JString s => StringToNumber s
  | JObject s => StringToNumber s
  end.

(** A field of a body parsed by [express.json()].  [JSON.parse] can build
    what no query holds: an object with a member named [toString] or an
    array holding one.  The member is never a function, so converting
    such a value to a primitive throws a TypeError: it is
    [Unconvertible].  Every other field is [Plain]. *)
Inductive bodyval : Type :=
| Plain (v : jsval)
| Unconvertible.

(** [!v] is false on every object. *)
Definition body_truthy (v : bodyval) : bool :=
  match v with
  | Plain v => truthy v
  | Unconvertible => true
  end.

(** [typeof v === "string"] *)
Definition body_is_string (v : bodyval) : bool :=
  match v with
  | Plain v => is_string v
  | Unconvertible => false
  end.

(** [v === s] for a string literal [s]: no conversion takes place. *)
Definition body_strict_eq_string (v : bodyval) (s : string) : bool :=
  match v with
  | Plain v => strict_eq_string v s
  | Unconvertible => false
  end.

(** [Number(v)] on a field of the body. *)
Definition ToNumber (v : bodyval) : outcome JsError num :=
  match v with
  | Plain v => Returned (Number v)
  | Unconvertible => Thrown "Cannot convert object to primitive value"
  end.

(** *** Constants *)

Definition TROY_OUNCE_IN_GRAMS : num := decimal 311035 4.

Definition VALID_PURITY_LEVELS : list num :=
  [decimal 24 0; decimal 22 0; decimal 21 0; decimal 18 0].

(** [VALID_PURITY_LEVELS.has(x)] *)
Definition has (set : list num) (x : num) : bool :=
  existsb (fun y => y === x) set.

(** *** Pure core: conversion, classification, payload *)

(** [purity] is [None] when the caller passes no purity ([undefined]). *)
Definition convertPrice (usdPerOunce : num) (unit currency : string)
    (usdToJod : num) (purity : option num) : num :=
  let price := usdPerOunce in
  let price :=
    if String.eqb unit "gram" then price / TROY_OUNCE_IN_GRAMS else price in
  let price :=
    if String.eqb currency "JOD" then price * usdToJod else price in
  let price :=
    match purity with
    | Some purity => price * (purity / decimal 24 0)
    | None => price
    end in
  price.

Definition evaluateStatus (currentPrice lowerThreshold upperThreshold : num)
    : Status :=
  if currentPrice <? lowerThreshold then below_range
  else if currentPrice >? upperThreshold then above_range
  else within_range.

Record Payload : Type := {
  current_price : num;
  p_unit : string;
  p_currency : string;
  p_lower_threshold : num;
  p_upper_threshold : num;
  p_status : Status;
  timestamp : string
}.

(** [now] stands for [new Date().toISOString()]. *)
Definition buildPayload (now : string) (currentPrice : num)
    (unit currency : string) (lowerThreshold upperThreshold : num)
    (status : Status) : Payload :=
  {| current_price := toFixed4 currentPrice;
     p_unit := unit;
     p_currency := currency;
     p_lower_threshold := lowerThreshold;
     p_upper_threshold := upperThreshold;
     p_status := status;
     timestamp := now |}.

(** *** State and environment *)

(** The type of [undefined], what a function without a result returns. *)
Definition void : Type := Datatypes.unit.

Record Subscription : Type := {
  email : string;
  unit : string;
  currency : string;
  purity : num;
  lower_threshold : num;
  upper_threshold : num;
  lastStatus : option Status    (* [None] is [undefined] *)
}.

(** [subscription.lastStatus = status] *)
Definition set_lastStatus (subscription : Subscription) (status : Status)
    : Subscription :=
  {| email := email subscription;
     unit := unit subscription;
     currency := currency subscription;
     purity := purity subscription;
     lower_threshold := lower_threshold subscription;
     upper_threshold := upper_threshold subscription;
     lastStatus := Some status |}.

(** A template literal: its string pieces and interpolated numbers. *)
Inductive Chunk : Type :=
| Str (s : string)
| Num (n : num).

Record Mail : Type := {
  from : string;
  to : string;
  subject : string;
  text : list Chunk
}.

(** What the process does to the outside, in order. *)
Inductive Event : Type :=
| console_log (msg : string) (n : num)
| console_warn (msg : string)
| console_error (msg : string) (error : JsError)
| sendMail_resolved (m : Mail)
| sendMail_rejected (m : Mail) (error : JsError).

(** The process environment: the SMTP variables, the behaviour of the
    transport nodemailer builds from them ([None]: the send resolves),
    and the clock. *)
Record Env : Type := {
  SMTP_HOST : option string;
  SMTP_USER : option string;
  SMTP_PASS : option string;
  SMTP_FROM : option string;
  sendMail : Mail -> option JsError;
  now : string
}.

(** [!v] for an environment variable *)
Definition unset (v : option string) : bool :=
  match v with
  | None => true
  | Some s => String.eqb s ""
  end.

Definition getEmailTransporter (env : Env)
    : option (Mail -> option JsError) :=
  if unset (SMTP_HOST env) || unset (SMTP_USER env) || unset (SMTP_PASS env)
  then None
  else Some (sendMail env).

Definition getEmailFrom (env : Env) : string :=
  match SMTP_FROM env with
  | Some s => if String.eqb s "" then "alerts@aurum.local" else s
  | None => "alerts@aurum.local"
  end.

Record Server : Type := {
  subscriptions : JsMap Subscription;
  latestUsdPricePerOunce : option num;    (* [None] is [null] *)
  latestUsdToJodRate : option num;
  latestFetchError : option JsError;
  effects : list Event
}.

Definition with_subscriptions (s : Server) (m : JsMap Subscription)
    : Server :=
  {| subscriptions := m;
     latestUsdPricePerOunce := latestUsdPricePerOunce s;
     latestUsdToJodRate := latestUsdToJodRate s;
     latestFetchError := latestFetchError s;
     effects := effects s |}.

Definition emit (s : Server) (evs : list Event) : Server :=
  {| subscriptions := subscriptions s;
     latestUsdPricePerOunce := latestUsdPricePerOunce s;
     latestUsdToJodRate := latestUsdToJodRate s;
     latestFetchError := latestFetchError s;
     effects := (effects s ++ evs)%list |}.

(** *** The reference data cache *)

(** [Promise.all] of two promises: both values, or the reason of the
    promise that rejects first ([secondFirst] says the second one did,
    when both reject). *)
Definition Promise_all {A B : Type} (secondFirst : bool)
    (a : outcome JsError A) (b : outcome JsError B)
    : outcome JsError (A * B) :=
  match a, b with
  | Returned x, Returned y => Returned (x, y)
  | Thrown e, Returned _ => Thrown e
  | Returned _, Thrown e => Thrown e
  | Thrown e1, Thrown e2 => Thrown (if secondFirst then e2 else e1)
  end.

(** [gold] and [fx] are what [fetchGoldPriceUsdPerOunce()] and
    [fetchUsdToJodRate()] settle to. *)
Definition refreshReferencePrices (gold fx : outcome JsError num)
    (secondFirst : bool) (s : Server) : outcome JsError void * Server :=
  match Promise_all secondFirst gold fx with
  | Returned (usdPerOunce, usdToJod) =>
      (Returned tt,
       {| subscriptions := subscriptions s;
          latestUsdPricePerOunce := Some usdPerOunce;
          latestUsdToJodRate := Some usdToJod;
          latestFetchError := None;
          effects := (effects s ++ [console_log "Gold:" usdPerOunce;
                                    console_log "USD → JOD:" usdToJod])%list |})
  | Thrown error =>
      (Returned tt,
       {| subscriptions := subscriptions s;
          latestUsdPricePerOunce := latestUsdPricePerOunce s;
          latestUsdToJodRate := latestUsdToJodRate s;
          latestFetchError := Some error;
          effects :=
            (effects s ++ [console_error "PRICE FETCH ERROR:" error])%list |})
  end.

(** *** The alert dispatcher *)

Definition sendAlertEmail (env : Env) (to : string) (payload : Payload)
    (breached : string) : outcome JsError void * list Event :=
  match getEmailTransporter env with
  | None =>
      (Returned tt,
       [console_warn "Email transport not configured. Skipping alert."])
  | Some transporter_sendMail =>
      let subject := "Gold price alert: " ++ breached in
      let text :=
        [Str "Gold price alert"; Str nl; Str nl; Str "Current price: ";
         Num (current_price payload); Str " "; Str (p_currency payload);
         Str " per "; Str (p_unit payload); Str nl;
         Str "Threshold breached: "; Str breached; Str nl;
         Str "Lower threshold: "; Num (p_lower_threshold payload); Str nl;
         Str "Upper threshold: "; Num (p_upper_threshold payload); Str nl;
         Str "Timestamp: "; Str (timestamp payload)] in
      let mail :=
        {| from := getEmailFrom env; to := to;
           subject := subject; text := text |} in
      match transporter_sendMail mail with
      | None => (Returned tt, [sendMail_resolved mail])
      | Some error => (Thrown error, [sendMail_rejected mail error])
      end
  end.

(** *** The evaluation cycle *)

(** [previousStatus !== status] *)
Definition differs (previousStatus : option Status) (status : Status)
    : bool :=
  match previousStatus with
  | Some previous => negb (Status_eqb previous status)
  | None => true
  end.

(** The body of the [for ... of subscriptions.entries()] loop, run on one
    entry: the outcome, the entry's object after the body, and the events
    of the body. *)
Definition evaluateEntry (env : Env) (usdPerOunce usdToJod : num)
    (email : string) (subscription : Subscription)
    : outcome JsError void * Subscription * list Event :=
  let currentPrice :=
    convertPrice usdPerOunce (unit subscription) (currency subscription)
      usdToJod (Some (purity subscription)) in
  let status :=
    evaluateStatus currentPrice (lower_threshold subscription)
      (upper_threshold subscription) in
  let payload :=
    buildPayload (now env) currentPrice (unit subscription)
      (currency subscription) (lower_threshold subscription)
      (upper_threshold subscription) status in
  let previousStatus := lastStatus subscription in
  let subscription := set_lastStatus subscription status in
  if Status_eqb status within_range then (Returned tt, subscription, [])
  else if differs previousStatus status
          && negb (Status_eqb status within_range) then
    let breached :=
      if Status_eqb status below_range then "below lower threshold"
      else "above upper threshold" in
    match sendAlertEmail env email payload breached with
    | (Returned _, evs) => (Returned tt, subscription, evs)
    | (Thrown error, evs) =>
        (Returned tt, subscription,
         (evs ++ [console_error "Failed to send alert email" error])%list)
    end
  else (Returned tt, subscription, []).

(** The loop: entries are visited in insertion order; an exception leaving
    the body would end the loop with the entries visited so far mutated. *)
Fixpoint forEntries
    (body : string -> Subscription ->
            outcome JsError void * Subscription * list Event)
    (entries : JsMap Subscription)
    : outcome JsError void * JsMap Subscription * list Event :=
  match entries with
  | [] => (Returned tt, [], [])
  | (key, subscription) :: rest =>
      match body key subscription with
      | (Returned _, subscription', evs) =>
          let '(r, rest', evs') := forEntries body rest in
          (r, (key, subscription') :: rest', (evs ++ evs')%list)
      | (Thrown e, subscription', evs) =>
          (Thrown e, (key, subscription') :: rest, evs)
      end
  end.

Definition evaluateSubscriptions (env : Env) (s : Server)
    : outcome JsError void * Server :=
  match latestFetchError s, latestUsdPricePerOunce s, latestUsdToJodRate s with
  | None, Some usdPerOunce, Some usdToJod =>
      let '(r, entries, evs) :=
        forEntries (evaluateEntry env usdPerOunce usdToJod)
          (subscriptions s) in
      (r, emit (with_subscriptions s entries) evs)
  | _, _, _ => (Returned tt, s)
  end.

(** *** The HTTP handlers *)

Inductive Body : Type :=
| error_body (error : string)
| monitoring_body (email : string)
| price_body (current_price : num) (unit currency timestamp : string)
| payload_body (payload : Payload).

(** [res.status(code).json(body)]; [res.json(body)] is status 200. *)
Record Response : Type := {
  status_code : nat;
  body : Body
}.

(** The fields the query routes read from [req.query], which holds
    strings, arrays and objects built by the query parser, and the fields
    of a body without unconvertible values; a field that is not there is
    [JUndefined]. *)
Record Request : Type := {
  req_email : jsval;
  req_unit : jsval;
  req_currency : jsval;
  req_lower_threshold : jsval;
  req_upper_threshold : jsval;
  req_purity : jsval
}.

(** The string a value is, once [typeof v === "string"] has been checked. *)
Definition as_string (v : jsval) : string :=
  match v with JString s => s | _ => "" end.

Definition body_as_string (v : bodyval) : string :=
  match v with Plain v => as_string v | Unconvertible => "" end.

(** The fields [POST /api/monitor] destructures from [req.body || {}]; a
    field that is not there is [Plain JUndefined]. *)
Record Posted : Type := {
  posted_email : bodyval;
  posted_unit : bodyval;
  posted_currency : bodyval;
  posted_lower_threshold : bodyval;
  posted_upper_threshold : bodyval;
  posted_purity : bodyval
}.

(** A body all of whose fields are plain. *)
Definition posted (req : Request) : Posted :=
  {| posted_email := Plain (req_email req);
     posted_unit := Plain (req_unit req);
     posted_currency := Plain (req_currency req);
     posted_lower_threshold := Plain (req_lower_threshold req);
     posted_upper_threshold := Plain (req_upper_threshold req);
     posted_purity := Plain (req_purity req) |}.

(** [app.post("/api/monitor", ...)].  A conversion that throws ends the
    handler there, with the exception (the handler's promise rejects and
    no response is written by the handler); [Number(purity)], called twice
    in the source, returns the same number twice. *)
Definition postMonitor (env : Env) (req : Posted) (s : Server)
    : outcome JsError Response * Server :=
  let email := posted_email req in
  if negb (body_truthy email) || negb (body_is_string email) then
    (Returned {| status_code := 400;
                 body := error_body "Valid email is required." |}, s)
  else
    match ToNumber (posted_lower_threshold req) with
    | Thrown e => (Thrown e, s)
    | Returned lower =>
    match ToNumber (posted_upper_threshold req) with
    | Thrown e => (Thrown e, s)
    | Returned upper =>
    if negb (isFinite lower) || negb (isFinite upper) || (lower >=? upper)
    then
      (Returned {| status_code := 400;
                   body := error_body
                     "Thresholds must be numeric and lower < upper." |}, s)
    else
      let normalizedUnit :=
        if body_strict_eq_string (posted_unit req) "gram"
        then "gram" else "ounce" in
      let normalizedCurrency :=
        if body_strict_eq_string (posted_currency req) "JOD"
        then "JOD" else "USD" in
      match ToNumber (posted_purity req) with
      | Thrown e => (Thrown e, s)
      | Returned purity =>
      let normalizedPurity :=
        if has VALID_PURITY_LEVELS purity then purity else decimal 24 0 in
      let s :=
        with_subscriptions s
          (map_set (body_as_string email)
             {| email := body_as_string email;
                unit := normalizedUnit;
                currency := normalizedCurrency;
                purity := normalizedPurity;
                lower_threshold := lower;
                upper_threshold := upper;
                lastStatus := None |}
             (subscriptions s)) in
      match evaluateSubscriptions env s with
      | (Returned _, s) =>
          (Returned {| status_code := 200;
                       body := monitoring_body (body_as_string email) |}, s)
      | (Thrown e, s) => (Thrown e, s)
      end
      end
    end
    end.

(** [app.get("/api/agent", ...)] *)
Definition getAgent (env : Env) (req : Request) (s : Server) : Response :=
  let unit :=
    if strict_eq_string (req_unit req) "gram" then "gram" else "ounce" in
  let currency :=
    if strict_eq_string (req_currency req) "JOD" then "JOD" else "USD" in
  let lower := Number (req_lower_threshold req) in
  let upper := Number (req_upper_threshold req) in
  let purity := Number (req_purity req) in
  let normalizedPurity :=
    if has VALID_PURITY_LEVELS purity then purity else decimal 24 0 in
  if negb (isFinite lower) || negb (isFinite upper) || (lower >=? upper)
  then
    {| status_code := 400;
       body := error_body "Thresholds must be numeric and lower < upper." |}
  else
    match latestFetchError s, latestUsdPricePerOunce s, latestUsdToJodRate s
    with
    | None, Some usdPerOunce, Some usdToJod =>
        let currentPrice :=
          convertPrice usdPerOunce unit currency usdToJod
            (Some normalizedPurity) in
        let status := evaluateStatus currentPrice lower upper in
        {| status_code := 200;
           body := payload_body
             (buildPayload (now env) currentPrice unit currency lower upper
                status) |}
    | _, _, _ =>
        {| status_code := 503;
           body := error_body "Price data currently unavailable." |}
    end.

(** [app.get("/api/price", ...)] *)
Definition getPrice (env : Env) (req : Request) (s : Server) : Response :=
  let unit :=
    if strict_eq_string (req_unit req) "gram" then "gram" else "ounce" in
  let currency :=
    if strict_eq_string (req_currency req) "JOD" then "JOD" else "USD" in
  let purity := Number (req_purity req) in
  let normalizedPurity :=
    if has VALID_PURITY_LEVELS purity then purity else decimal 24 0 in
  match latestFetchError s, latestUsdPricePerOunce s, latestUsdToJodRate s
  with
  | None, Some usdPerOunce, Some usdToJod =>
      let currentPrice :=
        convertPrice usdPerOunce unit currency usdToJod
          (Some normalizedPurity) in
      {| status_code := 200;
         body := price_body (toFixed4 currentPrice) unit currency (now env) |}
  | _, _, _ =>
      {| status_code := 503;
         body := error_body
           "Price data currently unavailable. Please try again soon." |}
  end.

End Program.

Arguments jsval : clear implicits.
Arguments Payload : clear implicits.
Arguments Subscription : clear implicits.
Arguments Chunk : clear implicits.
Arguments Mail : clear implicits.
Arguments Event : clear implicits.
Arguments Env : clear implicits.
Arguments Server : clear implicits.
Arguments Body : clear implicits.
Arguments Response : clear implicits.
Arguments Request : clear implicits.
Arguments bodyval : clear implicits.
Arguments Posted : clear implicits.
Arguments Unconvertible {num}.

(** A request posted as it is: a body of plain fields. *)
Coercion posted : Request >-> Posted.
Arguments JUndefined {num}.
Arguments JNull {num}.
Arguments JBoolean {num} b.
Arguments JString {num} s.
Arguments JObject {num} toString.

(* ------------------------------------------------------------------ *)
(** ** Vocabulary of the statements *)

Section Observations.

Context {num : Type} {JN : JsNumber num}.

(** The status the cycle computes for a subscription from the cached
    values: the converted price classified against the band. *)
Definition statusOf (usdPerOunce usdToJod : num)
    (subscription : Subscription num) : Status :=
  evaluateStatus
    (convertPrice usdPerOunce (unit subscription) (currency subscription)
       usdToJod (Some (purity subscription)))
    (lower_threshold subscription) (upper_threshold subscription).

(** An alert dispatch as the outside sees it: a send handed to the
    transport (accepted or not), or the warning that stands for it when
    no transport is configured. *)
Definition is_alert (e : Event num) : bool :=
  match e with
  | console_warn _ | sendMail_resolved _ | sendMail_rejected _ _ => true
  | console_log _ _ | console_error _ _ => false
  end.

Definition alerts (evs : list (Event num)) : nat :=
  List.length (filter is_alert evs).

(** Two subscriptions with the same parameters, whatever their history. *)
Definition same_parameters (a b : Subscription num) : Prop :=
  email a = email b /\ unit a = unit b /\ currency a = currency b /\
  purity a = purity b /\ lower_threshold a = lower_threshold b /\
  upper_threshold a = upper_threshold b.

(** "The new status is not within range and differs from the stored one." *)
Definition due (previousStatus : option Status) (status : Status) : Prop :=
  status <> within_range /\ previousStatus <> Some status.

(** The breach direction the alert names. *)
Definition direction (status : Status) : string :=
  match status with
  | below_range => "below lower threshold"
  | _ => "above upper threshold"
  end.

(** One alert dispatched to [key] about [breached], as it shows outside:
    the warning when no transport is configured; otherwise one message
    addressed to [key], its subject naming the breach, handed to the
    transport, and the logged error when the transport rejects it. *)
Definition alert_events (env : Env num) (key breached : string)
    (evs : list (Event num)) : Prop :=
  match getEmailTransporter env with
  | None =>
      evs = [console_warn "Email transport not configured. Skipping alert."]
  | Some send =>
      exists m : Mail num,
        to m = key /\
        subject m = "Gold price alert: " ++ breached /\
        match send m with
        | None => evs = [sendMail_resolved m]
        | Some error =>
            evs = [sendMail_rejected m error;
                   console_error "Failed to send alert email" error]
        end
  end.

(** What one pass of the loop body over an entry shows outside: one
    alert, naming the direction of the breach, when the alert is due, and
    nothing when it is not. *)
Definition entry_spec (env : Env num) (usdPerOunce usdToJod : num)
    (key : string) (subscription : Subscription num)
    (evs : list (Event num)) : Prop :=
  let status := statusOf usdPerOunce usdToJod subscription in
  (due (lastStatus subscription) status /\
   alert_events env key (direction status) evs /\ alerts evs = 1%nat) \/
  (~ due (lastStatus subscription) status /\ evs = []).

(** The registry after a cycle over [entries]: every entry, in place,
    with the status computed for it stored as its [lastStatus]. *)
Definition stamped (usdPerOunce usdToJod : num)
    (entries : JsMap (Subscription num)) : JsMap (Subscription num) :=
  map (fun entry =>
         (fst entry,
          set_lastStatus (snd entry)
            (statusOf usdPerOunce usdToJod (snd entry))))
      entries.

End Observations.

(* ------------------------------------------------------------------ *)
(** ** Sample data, at binary64 *)

Module Demo.

(** A stand-in for StringToNumber where no string reaches [Number]. *)
Definition no_strings : string -> float := fun _ => PrimFloat.nan.

Definition clock : string := "2026-01-01T00:00:00.000Z".

(** No SMTP variable is set. *)
Definition env_unconfigured : Env float :=
  {| SMTP_HOST := None; SMTP_USER := None; SMTP_PASS := None;
     SMTP_FROM := None; sendMail := fun _ => None; now := clock |}.

(** A configured transport that accepts every message. *)
Definition env_accepting : Env float :=
  {| SMTP_HOST := Some "smtp.example.org"; SMTP_USER := Some "aurum";
     SMTP_PASS := Some "secret"; SMTP_FROM := None;
     sendMail := fun _ => None; now := clock |}.

(** A configured transport that rejects every message. *)
Definition env_rejecting : Env float :=
  {| SMTP_HOST := Some "smtp.example.org"; SMTP_USER := Some "aurum";
     SMTP_PASS := Some "secret"; SMTP_FROM := None;
     sendMail := fun _ => Some "connect ECONNREFUSED"; now := clock |}.

(** A fresh subscription with the band 1900..2100 USD per ounce. *)
Definition sub_a : Subscription float :=
  {| email := "a@x.com"; unit := "ounce"; currency := "USD";
     purity := 24%float; lower_threshold := 1900%float;
     upper_threshold := 2100%float; lastStatus := None |}.

(** The cache holds 2200 USD per ounce and the rate 0.71. *)
Definition server_ready : Server float :=
  {| subscriptions := [("a@x.com", sub_a)];
     latestUsdPricePerOunce := Some 2200%float;
     latestUsdToJodRate := Some 0.71%float;
     latestFetchError := None;
     effects := [] |}.

(** The same, after a failed refresh. *)
Definition server_errored : Server float :=
  {| subscriptions := [("a@x.com", sub_a)];
     latestUsdPricePerOunce := Some 2200%float;
     latestUsdToJodRate := Some 0.71%float;
     latestFetchError := Some "Gold API error: 500";
     effects := [] |}.

(** Nothing registered yet. *)
Definition server_empty : Server float :=
  {| subscriptions := [];
     latestUsdPricePerOunce := Some 2200%float;
     latestUsdToJodRate := Some 0.71%float;
     latestFetchError := None;
     effects := [] |}.

(** [{ email: "a@x.com", lower_threshold: 1900, upper_threshold: 2100 }] *)
Definition request_a : Request float :=
  {| req_email := JString "a@x.com"; req_unit := JUndefined;
     req_currency := JUndefined;
     req_lower_threshold := JNumber 1900%float;
     req_upper_threshold := JNumber 2100%float;
     req_purity := JUndefined |}.

(** One refresh that fetches [price] (and the rate 0.71), then one cycle
    with the accepting transport. *)
Definition tick (price : float) (s : Server float) : Server float :=
  snd (evaluateSubscriptions env_accepting
         (snd (refreshReferencePrices (Returned price) (Returned 0.71%float)
                 false s))).

(** A request without any field. *)
Definition request_empty : Request float :=
  {| req_email := JUndefined; req_unit := JUndefined;
     req_currency := JUndefined; req_lower_threshold := JUndefined;
     req_upper_threshold := JUndefined; req_purity := JUndefined |}.

End Demo.

(* ------------------------------------------------------------------ *)
(** ** The upstream feeds *)

Section Feeds.

Context {num : Type} {JN : JsNumber num}.
Local Open Scope js_scope.

(** What [JSON.parse] builds from a response body. *)
Inductive Json : Type :=
| JsonNull
| JsonBoolean (b : bool)
| JsonNumber (n : num)
| JsonString (s : string)
| JsonArray (items : list Json)
| JsonObject (fields : list (string * Json)).

(** The own property [key] of an object given by its members in source
    order: of two members with one name [JSON.parse] keeps the later. *)
Fixpoint member {V : Type} (key : string) (fields : list (string * V))
    : option V :=
  match fields with
  | [] => None
  | (k, v) :: rest =>
      match member key rest with
      | Some v' => Some v'
      | None => if String.eqb k key then Some v else None
      end
  end.

(** [v?.key] for a name that no prototype defines ([items], [xauPrice],
    [rates], [JOD]); [None] is [undefined]. *)
Definition prop (v : option Json) (key : string) : option Json :=
  match v with
  | Some (JsonObject fields) => member key fields
  | _ => None
  end.

(** [v?.[0]]: the first element of an array, the member ["0"] of an
    object, the first code unit of a string. *)
Definition first_of (v : option Json) : option Json :=
  match v with
  | Some (JsonArray (x :: _)) => Some x
  | Some (JsonObject fields) => member "0" fields
  | Some (JsonString (String c _)) => Some (JsonString (String c EmptyString))
  | _ => None
  end.

(** ToBoolean of a parsed value, as [!data] uses it. *)
Definition json_truthy (v : option Json) : bool :=
  match v with
  | None | Some JsonNull => false
  | Some (JsonBoolean b) => b
  | Some (JsonNumber n) => negb ((n === decimal 0 0) || negb (n === n))
  | Some (JsonString s) => negb (String.eqb s "")
  | Some (JsonArray _) | Some (JsonObject _) => true
  end.

(** A response as the fetchers use it: the status code, and what
    [response.json()] settles to. *)
Record HttpResponse : Type := {
  http_status : nat;
  http_json : outcome JsError Json
}.

(** [response.ok]: the status is in the range 200-299. *)
Definition ok (response : HttpResponse) : bool :=
  (200 <=? http_status response)%nat && (http_status response <=? 299)%nat.

(** [`${response.status}`] *)
Definition status_text (response : HttpResponse) : string :=
  NilZero.string_of_uint (Nat.to_uint (http_status response)).

(** [fetched] is what [fetch(GOLD_API_URL)] settles to. *)
Definition fetchGoldPriceUsdPerOunce (fetched : outcome JsError HttpResponse)
    : outcome JsError num :=
  match fetched with
  | Thrown e => Thrown e
  | Returned response =>
      if negb (ok response)
      then Thrown ("Gold API error: " ++ status_text response)
      else
        match http_json response with
        | Thrown e => Thrown e
        | Returned data =>
            let price :=
              prop (first_of (prop (Some data) "items")) "xauPrice" in
            match price with
            | Some (JsonNumber n) => Returned n
            | _ => Thrown "Unexpected gold API response format"
            end
        end
  end.

(** [fetched] is what [fetch(FX_API_URL)] settles to. *)
Definition fetchUsdToJodRate (fetched : outcome JsError HttpResponse)
    : outcome JsError num :=
  match fetched with
  | Thrown e => Thrown e
  | Returned response =>
      if negb (ok response)
      then Thrown ("FX API error: " ++ status_text response)
      else
        match http_json response with
        | Thrown e => Thrown e
        | Returned data =>
            if negb (json_truthy (Some data))
               || negb (json_truthy (prop (Some data) "rates"))
            then Thrown "Unexpected FX API response format"
            else
              match prop (prop (Some data) "rates") "JOD" with
              | Some (JsonNumber n) => Returned n
              | _ => Thrown "Unexpected FX API response format"
              end
        end
  end.

End Feeds.

Arguments Json : clear implicits.
Arguments HttpResponse : clear implicits.
Arguments JsonNull {num}.
Arguments JsonBoolean {num} b.
Arguments JsonString {num} s.

(* ------------------------------------------------------------------ *)
(** ** The running server *)

Section Loop.

Context {num : Type} {JN : JsNumber num}.
Variable StringToNumber : string -> num.

(** The module's state as the file is loaded. *)
Definition initial : Server num :=
  {| subscriptions := [];
     latestUsdPricePerOunce := None;
     latestUsdToJodRate := None;
     latestFetchError := None;
     effects := [] |}.

(** What makes the server act: a refresh (the one [startMonitoring] awaits
    and those of its interval timer) with what the two fetches settle to,
    a tick of the evaluation timer, and the requests of the three routes. *)
Inductive Action : Type :=
| Refresh (gold fx : outcome JsError (HttpResponse num)) (secondFirst : bool)
| Evaluate
| PostMonitor (req : Posted num)
| GetAgent (req : Request num)
| GetPrice (req : Request num).

(** One action, run to its end before the next begins: the awaits of a
    handler or of a cycle are not interleaved with other actions. *)
Definition step (env : Env num) (a : Action) (s : Server num) : Server num :=
  match a with
  | Refresh gold fx secondFirst =>
      snd (refreshReferencePrices (fetchGoldPriceUsdPerOunce gold)
             (fetchUsdToJodRate fx) secondFirst s)
  | Evaluate => snd (evaluateSubscriptions env s)
  | PostMonitor req => snd (postMonitor StringToNumber env req s)
  | GetAgent _ | GetPrice _ => s
  end.

(** The actions of a run, one after another. *)
Definition run (env : Env num) (actions : list Action) (s : Server num)
    : Server num :=
  fold_left (fun s a => step env a s) actions s.

(** A refresh whose two fetches both deliver a number. *)
Definition refreshes (a : Action) : bool :=
  match a with
  | Refresh gold fx _ =>
      match fetchGoldPriceUsdPerOunce gold, fetchUsdToJodRate fx with
      | Returned _, Returned _ => true
      | _, _ => false
      end
  | _ => false
  end.

End Loop.

Arguments Action : clear implicits.

(* ------------------------------------------------------------------ *)
(** ** The page's script ([public/app.js]) *)

Module Client.

Section Page.

Context {num : Type} {JN : JsNumber num}.
Local Open Scope js_scope.

(** The engine's StringToNumber and [String.prototype.trim]. *)
Variable StringToNumber : string -> num.
Variable trim : string -> string.

(** The [value] of each form control. *)
Record Form : Type := {
  lowerThreshold : string;
  upperThreshold : string;
  emailInput : string;
  unitSelect : string;
  currencySelect : string;
  puritySelect : string
}.

(** [monitorStatus.textContent] and [monitorStatus.className]. *)
Record StatusLine : Type := {
  textContent : string;
  className : string
}.

Definition getThresholdValues (form : Form) : num * num :=
  (Number StringToNumber (JString (lowerThreshold form)),
   Number StringToNumber (JString (upperThreshold form))).

(** A number of the payload as the server's [express.json()] reads it back
    from [JSON.stringify]: a finite number comes back as the same number
    (both zeros as [0]), any other as [null]. *)
Definition over_json (n : num) : jsval num :=
  if isFinite n
  then JNumber (if n === decimal 0 0 then decimal 0 0 else n)
  else JNull.

(** The body [startMonitoring] posts, as [req.body] of the server. *)
Definition payload (form : Form) (email : string) (lower upper : num)
    : Request num :=
  {| req_email := JString email;
     req_unit := JString (unitSelect form);
     req_currency := JString (currencySelect form);
     req_lower_threshold := over_json lower;
     req_upper_threshold := over_json upper;
     req_purity :=
       over_json (Number StringToNumber (JString (puritySelect form))) |}.

(** [startMonitoring()]: [post] is the round trip of the request, [None]
    when [fetch] rejects, else the status code of the response. *)
Definition startMonitoring (post : Request num -> option nat) (form : Form)
    : StatusLine :=
  let '(lower, upper) := getThresholdValues form in
  let email := trim (emailInput form) in
  if String.eqb email "" then
    {| textContent := "Enter a valid email address to begin monitoring.";
       className := "status error" |}
  else if negb (isFinite lower) || negb (isFinite upper) || (lower >=? upper)
  then
    {| textContent := "Please provide a valid lower and upper threshold.";
       className := "status error" |}
  else
    match post (payload form email lower upper) with
    | Some code =>
        if (200 <=? code)%nat && (code <=? 299)%nat then
          {| textContent :=
               "Monitoring started for " ++ email
               ++ ". Alerts will be sent when thresholds are breached.";
             className := "status success" |}
        else
          {| textContent :=
               "Unable to start monitoring. Ensure the backend is running at http://localhost:3000.";
             className := "status error" |}
    | None =>
        {| textContent :=
             "Unable to start monitoring. Ensure the backend is running at http://localhost:3000.";
           className := "status error" |}
    end.

End Page.

End Client.

Arguments Client.Form : clear implicits.

(** The page's request answered by this server in state [s]: the status
    code of [POST /api/monitor], and no response if the handler threw. *)
Definition served {num : Type} {JN : JsNumber num}
    (StringToNumber : string -> num) (env : Env num) (s : Server num)
    (req : Request num) : option nat :=
  match fst (postMonitor StringToNumber env req s) with
  | Returned response => Some (status_code response)
  | Thrown _ => None
  end.

(* ------------------------------------------------------------------ *)
(** ** More sample data *)

Module Sample.

(** A stand-in for StringToNumber that reads a string of decimal digits
    and takes any other string for NaN. *)
Fixpoint digits (acc : Z) (str : string) : option Z :=
  match str with
  | EmptyString => Some acc
  | String c rest =>
      let d := (Z.of_nat (nat_of_ascii c) - 48)%Z in
      if ((0 <=? d)%Z && (d <=? 9)%Z)%bool
      then digits (10 * acc + d)%Z rest else None
  end.

Definition read_digits (str : string) : float :=
  match str with
  | EmptyString => PrimFloat.nan
  | _ =>
      match digits 0%Z str with
      | Some z => F64.of_ratio false z 1
      | None => PrimFloat.nan
      end
  end.

(** The form filled in for a@x.com with the band 1900..2100. *)
Definition form_a : Client.Form :=
  {| Client.lowerThreshold := "1900"; Client.upperThreshold := "2100";
     Client.emailInput := "a@x.com"; Client.unitSelect := "ounce";
     Client.currencySelect := "USD"; Client.puritySelect := "24" |}.

(** A registration, a tick, a refresh whose gold fetch is answered 503 and
    a price query. *)
Definition early_actions : list (Action float) :=
  [PostMonitor Demo.request_a;
   Evaluate;
   Refresh (Returned {| http_status := 503;
                        http_json := Thrown "Unexpected token" |})
           (Thrown "fetch failed") false;
   GetPrice Demo.request_empty].

(** [{ email: "b@x.com", unit: "gram", currency: "JOD", purity: 22,
       lower_threshold: 30, upper_threshold: 40 }] *)
Definition request_b : Request float :=
  {| req_email := JString "b@x.com"; req_unit := JString "gram";
     req_currency := JString "JOD";
     req_lower_threshold := JNumber 30%float;
     req_upper_threshold := JNumber 40%float;
     req_purity := JNumber 22%float |}.

(** [{ email: "c@x.com", lower_threshold: null, upper_threshold: true }] *)
Definition request_coerced : Request float :=
  {| req_email := JString "c@x.com"; req_unit := JUndefined;
     req_currency := JUndefined;
     req_lower_threshold := JNull;
     req_upper_threshold := JBoolean true;
     req_purity := JUndefined |}.

(** [{ email: "d@x.com", lower_threshold: 30, upper_threshold: 40,
       purity: { toString: 1 } }] *)
Definition body_unconvertible : Posted float :=
  {| posted_email := Plain (JString "d@x.com");
     posted_unit := Plain JUndefined;
     posted_currency := Plain JUndefined;
     posted_lower_threshold := Plain (JNumber 30%float);
     posted_upper_threshold := Plain (JNumber 40%float);
     posted_purity := Unconvertible |}.

(** An 18 carat subscription in grams and JOD. *)
Definition sub_b : Subscription float :=
  {| email := "b@x.com"; unit := "gram"; currency := "JOD";
     purity := 18%float; lower_threshold := 30%float;
     upper_threshold := 40%float; lastStatus := None |}.

End Sample.

(* ------------------------------------------------------------------ *)
(** ** Vocabulary of the further statements *)

Section Registry.

Context {num : Type} {JN : JsNumber num}.

(** A purity the registration stores: the default 24, or a number equal
    to 24, 22, 21 or 18. *)
Definition valid_purity (p : num) : Prop :=
  p = decimal 24 0 \/
  neqb (decimal 24 0) p || neqb (decimal 22 0) p
  || neqb (decimal 21 0) p || neqb (decimal 18 0) p = true.

(** A subscription as a registration leaves it under [key]. *)
Definition well_formed (key : string) (subscription : Subscription num)
    : Prop :=
  email subscription = key /\
  key <> "" /\
  (unit subscription = "gram" \/ unit subscription = "ounce") /\
  (currency subscription = "JOD" \/ currency subscription = "USD") /\
  valid_purity (purity subscription) /\
  isFinite (lower_threshold subscription) = true /\
  isFinite (upper_threshold subscription) = true /\
  nle (upper_threshold subscription) (lower_threshold subscription) = false.

Definition well_formed_registry (m : JsMap (Subscription num)) : Prop :=
  NoDup (map fst m) /\
  Forall (fun entry => well_formed (fst entry) (snd entry)) m.

(** The messages handed to the transport, accepted or not. *)
Definition mails (evs : list (Event num)) : list (Mail num) :=
  flat_map (fun e => match e with
                     | sendMail_resolved m | sendMail_rejected m _ => [m]
                     | _ => []
                     end) evs.

(** The messages among them that are addressed to [address]. *)
Definition mails_to (address : string) (evs : list (Event num))
    : list (Mail num) :=
  filter (fun m => String.eqb (to m) address) (mails evs).

(** The two subjects an alert can carry. *)
Definition alert_subject (subject : string) : Prop :=
  subject = "Gold price alert: below lower threshold" \/
  subject = "Gold price alert: above upper threshold".

(** What the loop body may send for an entry: at most one message, only
    through a configured transport, to the entry's key, from the
    configured sender, about one of the two breaches. *)
Definition entry_mail (env : Env num) (key : string)
    (evs : list (Event num)) : Prop :=
  (alerts evs <= 1)%nat /\
  (getEmailTransporter env = None -> mails evs = []) /\
  forall m, In m (mails evs) ->
    to m = key /\ from m = getEmailFrom env /\ alert_subject (subject m).

(** The object [POST /api/monitor] stores for an accepted request. *)
Definition registered (StringToNumber : string -> num) (req : Request num)
    : Subscription num :=
  {| email := as_string (req_email req);
     unit :=
       if strict_eq_string (req_unit req) "gram" then "gram" else "ounce";
     currency :=
       if strict_eq_string (req_currency req) "JOD" then "JOD" else "USD";
     purity :=
       if has VALID_PURITY_LEVELS (Number StringToNumber (req_purity req))
       then Number StringToNumber (req_purity req) else decimal 24 0;
     lower_threshold := Number StringToNumber (req_lower_threshold req);
     upper_threshold := Number StringToNumber (req_upper_threshold req);
     lastStatus := None |}.

(** The request passes the checks of [POST /api/monitor]. *)
Definition accepted (StringToNumber : string -> num) (req : Request num)
    : bool :=
  truthy (req_email req) && is_string (req_email req)
  && isFinite (Number StringToNumber (req_lower_threshold req))
  && isFinite (Number StringToNumber (req_upper_threshold req))
  && negb (nle (Number StringToNumber (req_upper_threshold req))
               (Number StringToNumber (req_lower_threshold req))).

(** Nothing has been evaluated or dispatched yet: no price is cached, the
    log shows no alert, no subscription has a status. *)
Definition quiet (s : Server num) : Prop :=
  latestUsdPricePerOunce s = None /\
  alerts (effects s) = 0%nat /\
  Forall (fun entry => lastStatus (snd entry) = None) (subscriptions s).

End Registry.

(* ------------------------------------------------------------------ *)
(** ** More facts about Numbers *)

(** Comparisons chain, and a number equal to zero compares as [0] does. *)
Class JsNumberChains (num : Type) {JN : JsNumber num} : Prop := {
  nle_nlt_trans : forall x y z : num,
      nle x y = true -> nlt y z = true -> nlt x z = true;
  nlt_nle_trans : forall x y z : num,
      nlt x y = true -> nle y z = true -> nlt x z = true;
  zero_finite : isFinite (decimal 0 0) = true;
  nle_zero_l : forall x y : num,
      neqb x (decimal 0 0) = true -> nle x y = nle (decimal 0 0) y;
  nle_zero_r : forall x y : num,
      neqb y (decimal 0 0) = true -> nle x y = nle x (decimal 0 0)
}.

(** The order of the three statuses along the price axis. *)
Definition rank (status : Status) : nat :=
  match status with
  | below_range => 0
  | within_range => 1
  | above_range => 2
  end.

(* ------------------------------------------------------------------ *)
(** ** Rounding to binary64, in the terms of [SpecFloat] *)

Section RoundingTerms.

Local Open Scope Z_scope.

(** The order of records: the mantissa first, then the position within
    the unit interval. *)
Definition jam (J : shr_record) : Z :=
  4 * shr_m J + (if shr_r J then 2 else 0) + (if shr_s J then 1 else 0).

(** Rounding a record to the nearest mantissa, ties to even. *)
Definition rnd (J : shr_record) : Z :=
  round_nearest_even (shr_m J) (loc_of_shr_record J).

(** The result of rounding a non-negative value, from its mantissa and
    exponent. *)
Definition round_out (M E : Z) : spec_float :=
  match M with
  | Z0 => S754_zero false
  | Zpos m =>
      if E <=? emax - prec then S754_finite false m E
      else S754_infinity false
  | Zneg _ => S754_nan
  end.

(** [e] is not above the exponent the format gives a mantissa [m] at [e]. *)
Definition good_exponent (m e : Z) : Prop :=
  e <= fexp prec emax (Zdigits2 m + e).

(** The record [binary_round_aux] rounds: the value shifted to the
    exponent of the format. *)
Definition stage1 (m e : Z) (l : location) : shr_record :=
  Nat.iter (Z.to_nat (fexp prec emax (Zdigits2 m + e) - e)) shr_1
    (shr_record_of_loc m l).

(** Where [r/d] lies in the unit interval. *)
Definition frac_loc (r d : Z) : location :=
  if r =? 0 then loc_Exact else loc_Inexact (2 * r ?= d).

(** The record of the fraction [n/d]: its integer part, and where the
    rest lies. *)
Definition frac_rec (n d : Z) : shr_record :=
  shr_record_of_loc (n / d) (frac_loc (n mod d) d).

(** The value [(n/d)·2^e] rounded to binary64. *)
Definition rounded (n d e : Z) : spec_float :=
  binary_round_aux prec emax false (n / d) e (frac_loc (n mod d) d).

(** Zero, a positive finite number, or plus infinity. *)
Definition nonneg (x : spec_float) : Prop :=
  SFleb (S754_zero false) x = true.

(** The exponent and the shift [SFdiv] works at. *)
Definition div_exp (mx my : positive) (ex ey : Z) : Z :=
  Z.min (fexp prec emax
           (Zdigits2 (Zpos mx) + ex - (Zdigits2 (Zpos my) + ey)))
        (ex - ey).

End RoundingTerms.

(* ------------------------------------------------------------------ *)
(** ** The laws hold at both instances *)

Lemma SFcompare_antisym (a b : spec_float) :
  SFcompare b a = option_map CompOpp (SFcompare a b).
Proof.
  destruct a as [sa | sa | | sa ma ea], b as [sb | sb | | sb mb eb];
    cbn [SFcompare option_map]; try reflexivity;
    try (destruct sa; reflexivity); try (destruct sb; reflexivity);
    try (destruct sa, sb; reflexivity).
  destruct sa, sb; cbn [CompOpp]; try reflexivity;
    rewrite (Z.compare_antisym ea eb);
    destruct (ea ?= eb)%Z; cbn [CompOpp]; try reflexivity;
    change (PosDef.Pos.compare_cont Eq mb ma)
      with (Pos.compare_cont (CompOpp Eq) mb ma);
    rewrite <- (Pos.compare_cont_antisym ma mb Eq);
    change (Pos.compare_cont Eq ma mb) with (PosDef.Pos.compare_cont Eq ma mb);
    destruct (PosDef.Pos.compare_cont Eq ma mb); reflexivity.
Qed.

Lemma SFcompare_diag (a : spec_float) : SFcompare a a <> Some Lt.
Proof.
  intro H. pose proof (SFcompare_antisym a a) as E.
  rewrite H in E. discriminate E.
Qed.

#[export] Instance binary64_laws : JsNumberLaws float.
Proof.
  split.
  - intro x. cbn [nlt binary64]. rewrite ltb_spec. unfold SFltb.
    pose proof (SFcompare_diag (Prim2SF x)) as D.
    destruct (SFcompare (Prim2SF x) (Prim2SF x)) as [[]|]; congruence.
  - intros x y. cbn [nlt nle binary64]. rewrite ltb_spec, leb_spec.
    unfold SFltb, SFleb. rewrite (SFcompare_antisym (Prim2SF x) (Prim2SF y)).
    destruct (SFcompare (Prim2SF x) (Prim2SF y)) as [[]|];
      cbn [option_map CompOpp]; congruence.
  - reflexivity.
Qed.

#[export] Instance exact_laws : JsNumberLaws Exact.xnum.
Proof.
  split.
  - intros [|q]; cbn; [reflexivity|].
    now rewrite (proj1 (Qeq_alt q q) (Qeq_refl q)).
  - intros [|x] [|y]; cbn; try discriminate; try reflexivity.
    rewrite <- (Qcompare_antisym x y).
    destruct (x ?= y)%Q; cbn; congruence.
  - reflexivity.
Qed.

(* ------------------------------------------------------------------ *)
(** ** The threshold evaluator *)

Section Evaluator.

Context {num : Type} {JN : JsNumber num} {JL : JsNumberLaws num}.
Local Open Scope js_scope.

Lemma evaluateStatus_below (price lower upper : num) :
  evaluateStatus price lower upper = below_range <->
  (price <? lower) = true.
Proof.
  unfold evaluateStatus.
  destruct (price <? lower); [tauto|].
  destruct (upper <? price); split; discriminate.
Qed.

Lemma evaluateStatus_above (price lower upper : num) :
  evaluateStatus price lower upper = above_range <->
  (price <? lower) = false /\ (price >? upper) = true.
Proof.
  unfold evaluateStatus.
  destruct (price <? lower).
  - split; [discriminate | intros [H _]; discriminate H].
  - destruct (upper <? price); split; try tauto; try discriminate.
    intros [_ H]; discriminate H.
Qed.

Lemma evaluateStatus_within (price lower upper : num) :
  evaluateStatus price lower upper = within_range <->
  (price <? lower) = false /\ (price >? upper) = false.
Proof.
  unfold evaluateStatus.
  destruct (price <? lower).
  - split; [discriminate | intros [H _]; discriminate H].
  - destruct (upper <? price); split; try tauto; try discriminate.
    intros [_ H]; discriminate H.
Qed.

(** C3 (as amended): [evaluateStatus] is a total function into the three
    statuses, decided by [price < lower] first and [price > upper] second
    (so a price below [lower] is [below_range] even when it is also above
    [upper]); and when [lower <= upper] both boundary values are
    [within_range]. *)
Theorem evaluateStatus_spec (price lower upper : num) :
  (evaluateStatus price lower upper = below_range <->
     (price <? lower) = true) /\
  (evaluateStatus price lower upper = above_range <->
     (price <? lower) = false /\ (price >? upper) = true) /\
  (evaluateStatus price lower upper = within_range <->
     (price <? lower) = false /\ (price >? upper) = false) /\
  ((lower <=? upper) = true ->
     evaluateStatus lower lower upper = within_range /\
     evaluateStatus upper lower upper = within_range).
Proof.
  split; [apply evaluateStatus_below|].
  split; [apply evaluateStatus_above|].
  split; [apply evaluateStatus_within|].
  intro Hle. split; apply evaluateStatus_within.
  - split; [apply nlt_irrefl | now apply nle_not_gt].
  - split; [now apply nle_not_gt | apply nlt_irrefl].
Qed.

End Evaluator.

(** The band 30..40 of the worked scenario, at binary64. *)
Lemma evaluateStatus_spec_witness :
  evaluateStatus 30%float 30%float 40%float = within_range /\
  evaluateStatus 40%float 30%float 40%float = within_range.
Proof.
  apply (evaluateStatus_spec (num := float) 35%float 30%float 40%float).
  reflexivity.
Defined.

(** With the thresholds the wrong way round the boundary values are not
    within range: [evaluateStatus(5, 5, 3)] is ["above_range"]. *)
Lemma evaluateStatus_boundary_counterexample :
  ~ (forall price lower upper : float,
       evaluateStatus lower lower upper = within_range /\
       evaluateStatus upper lower upper = within_range).
Proof.
  intro H. destruct (H 5%float 5%float 3%float) as [H1 _].
  vm_compute in H1. discriminate H1.
Qed.

(* ------------------------------------------------------------------ *)
(** ** Rounding keeps the order *)

Section Rounding.

Local Open Scope Z_scope.

Lemma fexp_eq (x : Z) : fexp prec emax x = Z.max (x - 53) (-1074).
Proof. reflexivity. Qed.

Lemma digits2_size (p : positive) : digits2_pos p = Pos.size p.
Proof. induction p; cbn; now rewrite ?IHp. Qed.

Lemma Zdigits2_log2 (m : Z) : 0 < m -> Zdigits2 m = Z.log2 m + 1.
Proof.
  destruct m as [|p|p]; try lia. intros _. cbn [Zdigits2].
  rewrite digits2_size. destruct p; cbn; lia.
Qed.

Lemma Zdigits2_bounds (m : Z) :
  0 < m -> 2 ^ (Zdigits2 m - 1) <= m < 2 ^ Zdigits2 m.
Proof.
  intro H. rewrite Zdigits2_log2 by exact H.
  replace (Z.log2 m + 1 - 1) with (Z.log2 m) by lia.
  pose proof (Z.log2_spec m H). rewrite Z.add_1_r. lia.
Qed.

Lemma Zdigits2_nonneg (m : Z) : 0 <= Zdigits2 m.
Proof. destruct m; cbn; lia. Qed.

Lemma Zdigits2_pos (m : Z) : 0 < m -> 0 < Zdigits2 m.
Proof. destruct m; cbn; lia. Qed.

Lemma Zdigits2_mono (m m' : Z) : 0 <= m <= m' -> Zdigits2 m <= Zdigits2 m'.
Proof.
  intros [H0 H]. destruct (Z.eq_dec m 0) as [->|N].
  - apply Zdigits2_nonneg.
  - rewrite !Zdigits2_log2 by lia.
    pose proof (Z.log2_le_mono m m' H). lia.
Qed.

(** The number of digits from bounds. *)
Lemma Zdigits2_unique (m d : Z) :
  2 ^ (d - 1) <= m < 2 ^ d -> 0 < d -> Zdigits2 m = d.
Proof.
  intros H Hd.
  assert (0 < m) by (pose proof (Z.pow_pos_nonneg 2 (d - 1)); lia).
  rewrite Zdigits2_log2 by assumption.
  assert (Z.log2 m = d - 1); [|lia].
  apply Z.log2_unique; [lia|]. replace (Z.succ (d - 1)) with d by lia. lia.
Qed.

Lemma Zdigits2_lt_pow (m d : Z) : 0 <= m -> 0 <= d -> m < 2 ^ d -> Zdigits2 m <= d.
Proof.
  intros H0 Hd H. destruct (Z.eq_dec m 0) as [->|N]; [cbn; lia|].
  destruct (Z_le_gt_dec (Zdigits2 m) d) as [L|G]; [exact L|].
  pose proof (Zdigits2_bounds m ltac:(lia)) as [B _].
  assert (2 ^ d <= 2 ^ (Zdigits2 m - 1)) by (apply Z.pow_le_mono_r; lia).
  lia.
Qed.

Lemma Zdigits2_ge_pow (m d : Z) : 0 <= d -> 2 ^ d <= m -> d < Zdigits2 m.
Proof.
  intros Hd H.
  assert (0 < m) by (pose proof (Z.pow_pos_nonneg 2 d); lia).
  pose proof (Zdigits2_bounds m ltac:(lia)) as [_ B].
  destruct (Z_lt_le_dec d (Zdigits2 m)) as [L|G]; [exact L|].
  assert (2 ^ Zdigits2 m <= 2 ^ d) by (apply Z.pow_le_mono_r; lia).
  lia.
Qed.

(** One step of the shift, on a non-negative mantissa. *)
Lemma shr_1_spec (J : shr_record) :
  0 <= shr_m J ->
  shr_1 J = {| shr_m := shr_m J / 2; shr_r := Z.odd (shr_m J);
               shr_s := shr_r J || shr_s J |}.
Proof.
  destruct J as [m r s]. cbn [shr_m shr_r shr_s]. intro H.
  rewrite <- Z.div2_div.
  destruct m as [|[p|p|]|p]; try lia; reflexivity.
Qed.

Lemma iter_pos_nat {A : Type} (f : A -> A) (p : positive) (x : A) :
  SpecFloat.iter_pos f p x = Nat.iter (Pos.to_nat p) f x.
Proof.
  revert x. induction p as [p IH|p IH|]; intro x; cbn [SpecFloat.iter_pos].
  - rewrite !IH, Pos2Nat.inj_xI.
    replace (S (2 * Pos.to_nat p)) with (Pos.to_nat p + S (Pos.to_nat p))%nat
      by lia.
    rewrite Nat.iter_add. f_equal. now rewrite Nat.iter_succ_r.
  - rewrite !IH, Pos2Nat.inj_xO.
    replace (2 * Pos.to_nat p)%nat with (Pos.to_nat p + Pos.to_nat p)%nat
      by lia.
    now rewrite Nat.iter_add.
  - reflexivity.
Qed.

Lemma shr_nat (J : shr_record) (e n : Z) :
  shr J e n = (Nat.iter (Z.to_nat n) shr_1 J, e + Z.max 0 n).
Proof.
  destruct n as [|p|p]; cbn [shr Z.to_nat]; try rewrite iter_pos_nat;
    try (change (Nat.iter 0 shr_1 J) with J).
  - f_equal; lia.
  - f_equal; lia.
  - f_equal; lia.
Qed.

Lemma shrn_m (n : nat) (J : shr_record) :
  0 <= shr_m J ->
  0 <= shr_m (Nat.iter n shr_1 J) /\
  shr_m (Nat.iter n shr_1 J) = shr_m J / 2 ^ Z.of_nat n.
Proof.
  intro H. induction n as [|n [IH0 IH]].
  - cbn [Nat.iter]. split; [exact H|]. now rewrite Z.div_1_r.
  - rewrite Nat.iter_succ, shr_1_spec by exact IH0. cbn [shr_m].
    split; [apply Z.div_pos; lia|].
    rewrite IH, Nat2Z.inj_succ, Z.pow_succ_r by lia.
    rewrite Z.div_div by (try lia; apply Z.pow_pos_nonneg; lia).
    f_equal. lia.
Qed.


Lemma shr_1_jam (J J' : shr_record) :
  0 <= shr_m J -> 0 <= shr_m J' -> jam J <= jam J' ->
  jam (shr_1 J) <= jam (shr_1 J').
Proof.
  intros H H'. rewrite !shr_1_spec by assumption.
  destruct J as [m r s], J' as [m' r' s']. unfold jam.
  cbn [shr_m shr_r shr_s] in *.
  rewrite <- !Z.div2_div.
  pose proof (Z.div2_odd m) as E. pose proof (Z.div2_odd m') as E'.
  destruct (Z.odd m), (Z.odd m'), r, s, r', s'; cbn [orb Z.b2z] in *; lia.
Qed.

Lemma shrn_jam (n : nat) (J J' : shr_record) :
  0 <= shr_m J -> 0 <= shr_m J' -> jam J <= jam J' ->
  jam (Nat.iter n shr_1 J) <= jam (Nat.iter n shr_1 J').
Proof.
  intros H H' L. induction n as [|n IH]; [exact L|].
  rewrite !Nat.iter_succ. apply shr_1_jam; try exact IH; now apply shrn_m.
Qed.


Lemma rnd_bounds (J : shr_record) : shr_m J <= rnd J <= shr_m J + 1.
Proof.
  destruct J as [m [|] [|]]; unfold rnd; cbn; try lia.
  destruct (Z.even m); lia.
Qed.

Lemma rnd_mono (J J' : shr_record) : jam J <= jam J' -> rnd J <= rnd J'.
Proof.
  destruct J as [m r s], J' as [m' r' s']. unfold jam, rnd.
  cbn [shr_m shr_r shr_s loc_of_shr_record].
  destruct (Z.eq_dec m m') as [<-|N];
    destruct r, s, r', s'; cbn [round_nearest_even]; intros;
    repeat match goal with |- context [Z.even ?x] => destruct (Z.even x) end;
    lia.
Qed.

Lemma loc_record (m : Z) (l : location) :
  loc_of_shr_record (shr_record_of_loc m l) = l /\
  shr_m (shr_record_of_loc m l) = m.
Proof. destruct l as [|[]]; split; reflexivity. Qed.


Lemma bra_out (m e : Z) (l : location) :
  binary_round_aux prec emax false m e l =
  let '(J1, e1) := shr_fexp prec emax m e l in
  let '(J3, e3) := shr_fexp prec emax (rnd J1) e1 loc_Exact in
  round_out (shr_m J3) e3.
Proof.
  unfold binary_round_aux, rnd, round_out.
  destruct (shr_fexp prec emax m e l) as [J1 e1].
  destruct (shr_fexp prec emax _ e1 loc_Exact) as [J3 e3].
  reflexivity.
Qed.



Lemma stage1_bound (m e : Z) (l : location) :
  0 <= m -> good_exponent m e ->
  0 <= shr_m (stage1 m e l) < 2 ^ 53 /\
  shr_m (stage1 m e l) = m / 2 ^ (fexp prec emax (Zdigits2 m + e) - e).
Proof.
  intros H0 G. unfold good_exponent in G. unfold stage1.
  set (c := fexp prec emax (Zdigits2 m + e)) in *.
  destruct (shrn_m (Z.to_nat (c - e)) (shr_record_of_loc m l)) as [P E].
  { now rewrite (proj2 (loc_record m l)). }
  rewrite (proj2 (loc_record m l)) in E.
  rewrite Z2Nat.id in E by lia.
  split; [|exact E]. split; [exact P|]. rewrite E.
  apply Z.div_lt_upper_bound; [apply Z.pow_pos_nonneg; lia|].
  rewrite <- Z.pow_add_r by lia.
  destruct (Z.eq_dec m 0) as [->|N]; [apply Z.pow_pos_nonneg; lia|].
  pose proof (Zdigits2_bounds m ltac:(lia)) as [_ B].
  assert (Zdigits2 m <= c - e + 53).
  { unfold c. rewrite fexp_eq. lia. }
  assert (2 ^ Zdigits2 m <= 2 ^ (c - e + 53))
    by (apply Z.pow_le_mono_r; lia).
  lia.
Qed.

Lemma bra_spec (m e : Z) (l : location) :
  0 <= m -> good_exponent m e ->
  let c := fexp prec emax (Zdigits2 m + e) in
  let m2 := rnd (stage1 m e l) in
  binary_round_aux prec emax false m e l =
  if m2 =? 2 ^ 53 then round_out (2 ^ 52) (c + 1) else round_out m2 c.
Proof.
  intros H0 G. cbv zeta.
  destruct (stage1_bound m e l H0 G) as [[P B] _].
  pose proof (rnd_bounds (stage1 m e l)) as R.
  rewrite bra_out. unfold shr_fexp at 1. rewrite shr_nat.
  fold (stage1 m e l).
  set (c := fexp prec emax (Zdigits2 m + e)) in *.
  unfold good_exponent in G. fold c in G.
  replace (e + Z.max 0 (c - e)) with c by lia.
  set (m2 := rnd (stage1 m e l)) in *.
  unfold shr_fexp. rewrite shr_nat.
  assert (Hc : -1074 <= c) by (unfold c; rewrite fexp_eq; lia).
  destruct (m2 =? 2 ^ 53) eqn:E2.
  - apply Z.eqb_eq in E2. rewrite E2.
    change (Zdigits2 (2 ^ 53)) with 54. rewrite fexp_eq.
    replace (Z.max (54 + c - 53) (-1074) - c) with 1 by lia.
    cbn [Z.to_nat Pos.to_nat Pos.iter_op Nat.add Z.max].
    change (Nat.iter 1 shr_1 (shr_record_of_loc (2 ^ 53) loc_Exact))
      with (shr_1 (shr_record_of_loc (2 ^ 53) loc_Exact)).
    cbn [shr_record_of_loc]. 
    replace (c + Z.max 0 1) with (c + 1) by lia. reflexivity.
  - apply Z.eqb_neq in E2.
    assert (D : Zdigits2 m2 <= 53) by (apply Zdigits2_lt_pow; lia).
    rewrite fexp_eq.
    assert (N : Z.max (Zdigits2 m2 + c - 53) (-1074) - c <= 0) by lia.
    replace (Z.to_nat (Z.max (Zdigits2 m2 + c - 53) (-1074) - c)) with 0%nat
      by lia.
    change (Nat.iter 0 shr_1 ?J) with J.
    rewrite (proj2 (loc_record m2 loc_Exact)).
    f_equal. lia.
Qed.

Lemma out_le (M E M' E' : Z) :
  0 <= M -> 0 <= M' ->
  M = 0 \/ (0 < M' /\ (E < E' \/ (E = E' /\ M <= M'))) ->
  SFleb (round_out M E) (round_out M' E') = true.
Proof.
  intros H H' C. unfold round_out.
  destruct M as [|p|p]; [|
    |lia].
  - destruct M' as [|p'|p']; [reflexivity| |lia].
    destruct (E' <=? emax - prec); reflexivity.
  - destruct C as [C|[P C]]; [discriminate C|].
    destruct M' as [|p'|p']; try lia.
    destruct (E <=? emax - prec) eqn:B, (E' <=? emax - prec) eqn:B';
      try reflexivity.
    + unfold SFleb, SFcompare.
      destruct C as [C|[-> C]].
      * apply Z.compare_lt_iff in C. now rewrite C.
      * rewrite Z.compare_refl.
        change (PosDef.Pos.compare_cont Eq p p') with (Pos.compare p p').
        destruct (Pos.compare_spec p p'); try reflexivity. lia.
    + apply Z.leb_le in B'. apply Z.leb_gt in B. lia.
Qed.

Lemma jam_loc_m (m m' : Z) (l l' : location) :
  jam (shr_record_of_loc m l) <= jam (shr_record_of_loc m' l') -> m <= m'.
Proof.
  unfold jam. destruct l as [|[]], l' as [|[]];
    cbn [shr_record_of_loc shr_m shr_r shr_s]; lia.
Qed.

Lemma good_mono (m m' e : Z) : 0 <= m <= m' -> good_exponent m e -> good_exponent m' e.
Proof.
  unfold good_exponent. rewrite !fexp_eq. intros H G.
  pose proof (Zdigits2_mono m m' H). lia.
Qed.

(** Rounding keeps the order of two values given at one exponent. *)
Lemma bra_mono_same (m m' e : Z) (l l' : location) :
  0 <= m -> good_exponent m e ->
  jam (shr_record_of_loc m l) <= jam (shr_record_of_loc m' l') ->
  SFleb (binary_round_aux prec emax false m e l)
        (binary_round_aux prec emax false m' e l') = true.
Proof.
  intros H0 G L.
  pose proof (jam_loc_m m m' l l' L) as Hm.
  assert (G' : good_exponent m' e) by (apply (good_mono m m'); [lia | exact G]).
  rewrite (bra_spec m e l H0 G), (bra_spec m' e l' ltac:(lia) G').
  cbv zeta.
  destruct (stage1_bound m e l H0 G) as [[P B] E1].
  destruct (stage1_bound m' e l' ltac:(lia) G') as [[P' B'] E1'].
  pose proof (rnd_bounds (stage1 m e l)) as R.
  pose proof (rnd_bounds (stage1 m' e l')) as R'.
  pose proof (Zdigits2_mono m m' ltac:(lia)) as D.
  unfold good_exponent in G, G'.
  set (c := fexp prec emax (Zdigits2 m + e)) in *.
  set (c' := fexp prec emax (Zdigits2 m' + e)) in *.
  assert (Hc : c <= c') by (unfold c, c'; rewrite !fexp_eq; lia).
  set (m2 := rnd (stage1 m e l)) in *.
  set (m2' := rnd (stage1 m' e l')) in *.
  destruct (Z.eq_dec c c') as [Ec|Nc].
  - assert (M2 : m2 <= m2').
    { unfold m2, m2'. apply rnd_mono. unfold stage1. fold c c'.
      rewrite <- Ec. apply shrn_jam; try exact L;
        rewrite (proj2 (loc_record _ _)); lia. }
    destruct (Z.eqb_spec m2 (2 ^ 53)) as [T|T],
      (Z.eqb_spec m2' (2 ^ 53)) as [T'|T']; apply out_le; lia.
  - assert (Hc' : c' = Zdigits2 m' + e - 53 /\ -1074 < c').
    { unfold c, c' in *. rewrite !fexp_eq in *. lia. }
    assert (Hm' : 0 < m').
    { destruct (Z.eq_dec m' 0) as [Z|Z]; [|lia].
      assert (m = 0) by lia. subst m m'. lia. }
    assert (B2 : 2 ^ 52 <= shr_m (stage1 m' e l')).
    { rewrite E1'. fold c'.
      apply Z.div_le_lower_bound; [apply Z.pow_pos_nonneg; lia|].
      rewrite <- Z.pow_add_r by lia.
      pose proof (Zdigits2_bounds m' Hm') as [Bl _].
      replace (c' - e + 52) with (Zdigits2 m' - 1) by lia. exact Bl. }
    destruct (Z.eqb_spec m2 (2 ^ 53)) as [T|T],
      (Z.eqb_spec m2' (2 ^ 53)) as [T'|T']; apply out_le; lia.
Qed.



Lemma frac_rec_m (n d : Z) : shr_m (frac_rec n d) = n / d.
Proof. apply loc_record. Qed.

Lemma frac_rec_eq (n d : Z) :
  0 <= n -> 0 < d ->
  frac_rec n d =
  {| shr_m := n / d;
     shr_r := d <=? 2 * (n mod d);
     shr_s := negb (n mod d =? 0) && negb (2 * (n mod d) =? d) |}.
Proof.
  intros Hn Hd. unfold frac_rec, frac_loc.
  pose proof (Z.mod_pos_bound n d Hd) as Hr.
  destruct (Z.eqb_spec (n mod d) 0) as [E|E].
  - rewrite E. cbn [shr_record_of_loc negb andb Z.mul].
    destruct (Z.leb_spec d 0); [lia|reflexivity].
  - destruct (Z.compare_spec (2 * (n mod d)) d) as [C|C|C];
      cbn [shr_record_of_loc negb andb];
      destruct (Z.leb_spec d (2 * (n mod d))); try lia;
      destruct (Z.eqb_spec (2 * (n mod d)) d); try lia; reflexivity.
Qed.

(** Halving the value shifts its record by one place. *)
Lemma frac_step (n d : Z) :
  0 <= n -> 0 < d -> shr_1 (frac_rec (2 * n) d) = frac_rec n d.
Proof.
  intros Hn Hd.
  rewrite shr_1_spec by (rewrite frac_rec_m; apply Z.div_pos; lia).
  rewrite (frac_rec_eq (2 * n) d), (frac_rec_eq n d) by lia.
  cbn [shr_m shr_r shr_s].
  pose proof (Z.mod_pos_bound n d Hd) as Hr.
  pose proof (Z.div_mod n d ltac:(lia)) as Hq.
  set (q := n / d) in *. set (r := n mod d) in *.
  destruct (Z_lt_le_dec (2 * r) d) as [C|C].
  - assert (Eq2 : 2 * n / d = 2 * q)
      by (symmetry; apply (Z.div_unique _ _ _ (2 * r)); lia).
    assert (Er2 : (2 * n) mod d = 2 * r)
      by (symmetry; apply (Z.mod_unique _ _ (2 * q)); lia).
    rewrite Eq2, Er2.
    replace (2 * q / 2) with q by (apply Z.div_unique_exact; lia).
    rewrite Z.odd_mul. cbn [Z.odd andb].
    f_equal.
    + destruct (Z.leb_spec d (2 * r)); [lia|reflexivity].
    + destruct (Z.leb_spec d (2 * (2 * r))), (Z.eqb_spec (2 * r) 0),
        (Z.eqb_spec (2 * (2 * r)) d), (Z.eqb_spec r 0),
        (Z.eqb_spec (2 * r) d); cbn; try reflexivity; lia.
  - assert (Eq2 : 2 * n / d = 2 * q + 1)
      by (symmetry; apply (Z.div_unique _ _ _ (2 * r - d)); lia).
    assert (Er2 : (2 * n) mod d = 2 * r - d)
      by (symmetry; apply (Z.mod_unique _ _ (2 * q + 1)); lia).
    rewrite Eq2, Er2.
    replace ((2 * q + 1) / 2) with q
      by (apply (Z.div_unique _ _ _ 1); lia).
    rewrite Z.odd_add, Z.odd_mul. cbn [Z.odd andb xorb].
    f_equal.
    + destruct (Z.leb_spec d (2 * r)); [reflexivity|lia].
    + destruct (Z.leb_spec d (2 * (2 * r - d))), (Z.eqb_spec (2 * r - d) 0),
        (Z.eqb_spec (2 * (2 * r - d)) d), (Z.eqb_spec r 0),
        (Z.eqb_spec (2 * r) d); cbn; try reflexivity; lia.
Qed.

Lemma frac_shift (k : nat) (n d : Z) :
  0 <= n -> 0 < d ->
  Nat.iter k shr_1 (frac_rec (n * 2 ^ Z.of_nat k) d) = frac_rec n d.
Proof.
  intros Hn Hd. revert n Hn. induction k as [|k IH]; intros n Hn.
  - cbn [Nat.iter Z.of_nat]. now rewrite Z.pow_0_r, Z.mul_1_r.
  - rewrite Nat.iter_succ_r, Nat2Z.inj_succ, Z.pow_succ_r by lia.
    replace (n * (2 * 2 ^ Z.of_nat k)) with (2 * (n * 2 ^ Z.of_nat k)) by lia.
    rewrite frac_step; [apply IH; exact Hn | | exact Hd].
    apply Z.mul_nonneg_nonneg; [lia|]. apply Z.pow_nonneg. lia.
Qed.

(** A smaller fraction has a smaller record. *)
Lemma frac_jam (n d n' d' : Z) :
  0 <= n -> 0 < d -> 0 < d' -> n * d' <= n' * d ->
  jam (frac_rec n d) <= jam (frac_rec n' d').
Proof.
  intros Hn Hd Hd' L.
  assert (Hn' : 0 <= n').
  { destruct (Z_lt_le_dec n' 0) as [N|N]; [|exact N].
    assert (n' * d < 0) by (apply Z.mul_neg_pos; lia).
    assert (0 <= n * d') by (apply Z.mul_nonneg_nonneg; lia). lia. }
  rewrite (frac_rec_eq n d), (frac_rec_eq n' d') by lia.
  unfold jam. cbn [shr_m shr_r shr_s].
  pose proof (Z.mod_pos_bound n d Hd) as Hr.
  pose proof (Z.div_mod n d ltac:(lia)) as Hq.
  pose proof (Z.mod_pos_bound n' d' Hd') as Hr'.
  pose proof (Z.div_mod n' d' ltac:(lia)) as Hq'.
  set (q := n / d) in *. set (r := n mod d) in *.
  set (q' := n' / d') in *. set (r' := n' mod d') in *.
  clearbody q r q' r'. subst n n'.
  assert (Q : q <= q').
  { destruct (Z_le_gt_dec q q') as [Q|Q]; [exact Q|]. exfalso.
    assert (A2 : (q' + 1) * d' <= q * d')
      by (apply Z.mul_le_mono_nonneg_r; lia).
    assert (A3 : (d' * q' + r') * d < q * d' * d)
      by (apply Z.mul_lt_mono_pos_r; lia).
    assert (A5 : q * d * d' <= (d * q + r) * d')
      by (apply Z.mul_le_mono_nonneg_r; lia).
    lia. }
  destruct (Z.eq_dec q q') as [E|N].
  - rewrite <- E in *.
    assert (R : r * d' <= r' * d) by lia.
    destruct (Z.leb_spec d (2 * r)), (Z.leb_spec d' (2 * r')),
      (Z.eqb_spec r 0), (Z.eqb_spec r' 0),
      (Z.eqb_spec (2 * r) d), (Z.eqb_spec (2 * r') d');
      cbn [negb andb]; try lia; try nia.
  - destruct (d <=? 2 * r), (d' <=? 2 * r'),
      (negb (r =? 0) && negb (2 * r =? d)),
      (negb (r' =? 0) && negb (2 * r' =? d')); lia.
Qed.


Lemma scaled_quotient (n d k : Z) :
  0 <= n -> 0 < d -> 0 <= k ->
  n / d * 2 ^ k <= n * 2 ^ k / d < (n / d + 1) * 2 ^ k.
Proof.
  intros Hn Hd Hk.
  pose proof (Z.mod_pos_bound n d Hd) as Hr.
  pose proof (Z.div_mod n d ltac:(lia)) as Hq.
  assert (P : 0 < 2 ^ k) by (apply Z.pow_pos_nonneg; lia).
  set (q := n / d) in *. set (r := n mod d) in *. clearbody q r. subst n.
  split.
  - apply Z.div_le_lower_bound; [exact Hd|].
    assert (0 <= r * 2 ^ k) by (apply Z.mul_nonneg_nonneg; lia). lia.
  - apply Z.div_lt_upper_bound; [exact Hd|].
    assert (r * 2 ^ k < d * 2 ^ k) by (apply Z.mul_lt_mono_pos_r; lia). lia.
Qed.

Lemma digits_align (n d k : Z) :
  0 <= n -> 0 < d -> 0 <= k -> 0 < n / d ->
  Zdigits2 (n * 2 ^ k / d) = Zdigits2 (n / d) + k.
Proof.
  intros Hn Hd Hk Hq.
  pose proof (scaled_quotient n d k Hn Hd Hk) as [L U].
  pose proof (Zdigits2_bounds (n / d) Hq) as [Bl Bu].
  pose proof (Zdigits2_pos (n / d) Hq) as Dp.
  assert (P : 0 < 2 ^ k) by (apply Z.pow_pos_nonneg; lia).
  apply Zdigits2_unique; [|lia].
  replace (Zdigits2 (n / d) + k - 1) with (Zdigits2 (n / d) - 1 + k) by lia.
  rewrite !Z.pow_add_r by lia.
  split.
  - assert (2 ^ (Zdigits2 (n / d) - 1) * 2 ^ k <= n / d * 2 ^ k)
      by (apply Z.mul_le_mono_nonneg_r; lia). lia.
  - assert ((n / d + 1) * 2 ^ k <= 2 ^ Zdigits2 (n / d) * 2 ^ k)
      by (apply Z.mul_le_mono_nonneg_r; lia). lia.
Qed.

Lemma good_align (n d e k : Z) :
  0 <= n -> 0 < d -> 0 <= k -> good_exponent (n / d) e ->
  fexp prec emax (Zdigits2 (n * 2 ^ k / d) + (e - k)) =
  fexp prec emax (Zdigits2 (n / d) + e).
Proof.
  intros Hn Hd Hk G. unfold good_exponent in G.
  assert (Hq : 0 <= n / d) by (apply Z.div_pos; lia).
  destruct (Z.eq_dec (n / d) 0) as [Ez|N].
  - rewrite Ez in *. cbn [Zdigits2] in *. rewrite !fexp_eq in *.
    pose proof (scaled_quotient n d k Hn Hd Hk) as [L U]. rewrite Ez in *.
    assert (Zdigits2 (n * 2 ^ k / d) <= k)
      by (apply Zdigits2_lt_pow; lia).
    lia.
  - rewrite digits_align by lia. f_equal. lia.
Qed.

Lemma rounded_align (n d e : Z) (k : nat) :
  0 <= n -> 0 < d -> good_exponent (n / d) e ->
  good_exponent (n * 2 ^ Z.of_nat k / d) (e - Z.of_nat k) /\
  rounded (n * 2 ^ Z.of_nat k) d (e - Z.of_nat k) = rounded n d e.
Proof.
  intros Hn Hd G.
  pose proof (good_align n d e (Z.of_nat k) Hn Hd ltac:(lia) G) as C.
  assert (G' : good_exponent (n * 2 ^ Z.of_nat k / d) (e - Z.of_nat k)).
  { unfold good_exponent in *. rewrite C. lia. }
  split; [exact G'|].
  assert (Hn' : 0 <= n * 2 ^ Z.of_nat k).
  { apply Z.mul_nonneg_nonneg; [lia|]. apply Z.pow_nonneg. lia. }
  assert (Hq : 0 <= n / d) by (apply Z.div_pos; lia).
  assert (Hq' : 0 <= n * 2 ^ Z.of_nat k / d) by (apply Z.div_pos; lia).
  unfold rounded.
  rewrite (bra_spec _ _ _ Hq' G'), (bra_spec _ _ _ Hq G).
  cbv zeta. rewrite C.
  assert (S : stage1 (n * 2 ^ Z.of_nat k / d) (e - Z.of_nat k)
                (frac_loc ((n * 2 ^ Z.of_nat k) mod d) d) =
              stage1 (n / d) e (frac_loc (n mod d) d)).
  { unfold stage1. rewrite C.
    unfold good_exponent in G.
    set (c := fexp prec emax (Zdigits2 (n / d) + e)) in *.
    replace (Z.to_nat (c - (e - Z.of_nat k)))
      with (Z.to_nat (c - e) + k)%nat by lia.
    rewrite Nat.iter_add.
    change (shr_record_of_loc (n * 2 ^ Z.of_nat k / d)
              (frac_loc ((n * 2 ^ Z.of_nat k) mod d) d))
      with (frac_rec (n * 2 ^ Z.of_nat k) d).
    now rewrite frac_shift. }
  now rewrite S.
Qed.

(** Rounding keeps the order of values. *)
Lemma rounded_mono (n d e n' d' e' : Z) :
  0 <= n -> 0 < d -> 0 < d' ->
  good_exponent (n / d) e -> good_exponent (n' / d') e' ->
  n * 2 ^ (e - Z.min e e') * d' <= n' * 2 ^ (e' - Z.min e e') * d ->
  SFleb (rounded n d e) (rounded n' d' e') = true.
Proof.
  intros Hn Hd Hd' G G' L.
  assert (P : 0 < 2 ^ (e - Z.min e e')) by (apply Z.pow_pos_nonneg; lia).
  assert (P' : 0 < 2 ^ (e' - Z.min e e')) by (apply Z.pow_pos_nonneg; lia).
  assert (Hn' : 0 <= n').
  { destruct (Z_lt_le_dec n' 0) as [N|N]; [|exact N].
    assert (n' * 2 ^ (e' - Z.min e e') < 0) by (apply Z.mul_neg_pos; lia).
    assert (n' * 2 ^ (e' - Z.min e e') * d < 0)
      by (apply Z.mul_neg_pos; lia).
    assert (0 <= n * 2 ^ (e - Z.min e e'))
      by (apply Z.mul_nonneg_nonneg; lia).
    assert (0 <= n * 2 ^ (e - Z.min e e') * d')
      by (apply Z.mul_nonneg_nonneg; lia).
    lia. }
  destruct (rounded_align n d e (Z.to_nat (e - Z.min e e')) Hn Hd G)
    as [Ga <-].
  destruct (rounded_align n' d' e' (Z.to_nat (e' - Z.min e e')) Hn' Hd' G')
    as [Ga' <-].
  rewrite !Z2Nat.id in * by lia.
  replace (e - (e - Z.min e e')) with (Z.min e e') in * by lia.
  replace (e' - (e' - Z.min e e')) with (Z.min e e') in * by lia.
  unfold rounded. apply bra_mono_same.
  - apply Z.div_pos; [|exact Hd]. apply Z.mul_nonneg_nonneg; lia.
  - exact Ga.
  - apply frac_jam; try assumption.
    apply Z.mul_nonneg_nonneg; lia.
Qed.

(** *** Canonical mantissas *)

Lemma canonical_facts (m : positive) (e : Z) :
  SpecFloat.valid_binary prec emax (S754_finite false m e) = true ->
  fexp prec emax (Zdigits2 (Zpos m) + e) = e /\
  -1074 <= e <= 971 /\ Zdigits2 (Zpos m) <= 53 /\
  (-1074 < e -> Zdigits2 (Zpos m) = 53) /\
  0 < Zpos m < 2 ^ 53 /\ (-1074 < e -> 2 ^ 52 <= Zpos m).
Proof.
  cbn [SpecFloat.valid_binary]. unfold bounded, canonical_mantissa.
  intro H. apply andb_true_iff in H. destruct H as [C B].
  apply Z.eqb_eq in C. apply Z.leb_le in B.
  change (Zpos (digits2_pos m)) with (Zdigits2 (Zpos m)) in C.
  change (emax - prec) with 971 in B.
  pose proof C as C'. rewrite fexp_eq in C'.
  pose proof (Zdigits2_bounds (Zpos m) ltac:(lia)) as [Bl Bu].
  assert (D : Zdigits2 (Zpos m) <= 53) by lia.
  assert (2 ^ Zdigits2 (Zpos m) <= 2 ^ 53) by (apply Z.pow_le_mono_r; lia).
  repeat split; try lia.
  intro He. replace (Zdigits2 (Zpos m)) with 53 in Bl by lia. exact Bl.
Qed.

Lemma rounded_exact (n e : Z) :
  rounded n 1 e = binary_round_aux prec emax false n e loc_Exact.
Proof.
  unfold rounded. now rewrite Z.div_1_r, Z.mod_1_r.
Qed.

(** A canonical float rounds to itself. *)
Lemma rounded_canonical (m : positive) (e : Z) :
  SpecFloat.valid_binary prec emax (S754_finite false m e) = true ->
  good_exponent (Zpos m / 1) e /\ rounded (Zpos m) 1 e = S754_finite false m e.
Proof.
  intro V. destruct (canonical_facts m e V) as (C & B & D & _ & M & _).
  rewrite Z.div_1_r.
  assert (G : good_exponent (Zpos m) e) by (unfold good_exponent; rewrite C; lia).
  split; [exact G|].
  rewrite rounded_exact, (bra_spec (Zpos m) e loc_Exact (Pos2Z.is_nonneg m) G).
  cbv zeta.
  unfold stage1. rewrite C, Z.sub_diag.
  change (Nat.iter (Z.to_nat 0) shr_1 ?J) with J.
  unfold rnd. cbn [shr_record_of_loc loc_of_shr_record shr_m
                   round_nearest_even].
  destruct (Z.eqb_spec (Zpos m) (2 ^ 53)) as [E|E]; [lia|].
  unfold round_out. destruct (Z.leb_spec e (emax - prec)) as [L|L];
    [reflexivity|]. change (emax - prec) with 971 in L. lia.
Qed.

(** The order of canonical floats is the order of their values. *)
Lemma canonical_le (m m' : positive) (e e' : Z) :
  SpecFloat.valid_binary prec emax (S754_finite false m e) = true ->
  SpecFloat.valid_binary prec emax (S754_finite false m' e') = true ->
  SFleb (S754_finite false m e) (S754_finite false m' e') = true ->
  Zpos m * 2 ^ (e - Z.min e e') <= Zpos m' * 2 ^ (e' - Z.min e e').
Proof.
  intros V V' L.
  destruct (canonical_facts m e V) as (_ & B & _ & _ & M & _).
  destruct (canonical_facts m' e' V') as (_ & B' & _ & _ & M' & N').
  unfold SFleb, SFcompare in L.
  destruct (Z.compare_spec e e') as [E|E|E]; try discriminate L.
  - subst e'. rewrite Z.min_id, Z.sub_diag, Z.pow_0_r, !Z.mul_1_r.
    change (PosDef.Pos.compare_cont Eq m m') with (Pos.compare m m') in L.
    destruct (Pos.compare_spec m m'); try discriminate L; lia.
  - rewrite Z.min_l by lia. rewrite Z.sub_diag, Z.pow_0_r, Z.mul_1_r.
    assert (2 ^ 1 <= 2 ^ (e' - e)) by (apply Z.pow_le_mono_r; lia).
    assert (2 ^ 52 * 2 ^ 1 <= Zpos m' * 2 ^ (e' - e))
      by (apply Z.mul_le_mono_nonneg; lia).
    change (2 ^ 52 * 2 ^ 1) with (2 ^ 53) in *. lia.
Qed.

(** *** Products *)

Lemma digits_mul (a b : Z) :
  0 < a -> 0 < b -> Zdigits2 a + Zdigits2 b - 1 <= Zdigits2 (a * b).
Proof.
  intros Ha Hb.
  pose proof (Zdigits2_bounds a Ha) as [La _].
  pose proof (Zdigits2_bounds b Hb) as [Lb _].
  pose proof (Zdigits2_pos a Ha). pose proof (Zdigits2_pos b Hb).
  assert (2 ^ (Zdigits2 a - 1 + (Zdigits2 b - 1)) <= a * b).
  { rewrite Z.pow_add_r by lia. apply Z.mul_le_mono_nonneg; try lia;
      apply Z.pow_nonneg; lia. }
  pose proof (Zdigits2_ge_pow (a * b)
                (Zdigits2 a - 1 + (Zdigits2 b - 1)) ltac:(lia) H1).
  lia.
Qed.

Lemma product_good (mx my : positive) (ex ey : Z) :
  SpecFloat.valid_binary prec emax (S754_finite false mx ex) = true ->
  SpecFloat.valid_binary prec emax (S754_finite false my ey) = true ->
  good_exponent (Zpos mx * Zpos my / 1) (ex + ey).
Proof.
  intros Vx Vy.
  destruct (canonical_facts mx ex Vx) as (_ & Bx & Dx & Nx & _).
  destruct (canonical_facts my ey Vy) as (_ & By & Dy & Ny & _).
  pose proof (digits_mul (Zpos mx) (Zpos my) ltac:(lia) ltac:(lia)) as D.
  pose proof (Zdigits2_pos (Zpos mx) ltac:(lia)).
  pose proof (Zdigits2_pos (Zpos my) ltac:(lia)).
  rewrite Z.div_1_r. unfold good_exponent. rewrite fexp_eq.
  destruct (Z.eq_dec ex (-1074)) as [Ex|Ex],
    (Z.eq_dec ey (-1074)) as [Ey|Ey]; try lia;
    try specialize (Nx ltac:(lia)); try specialize (Ny ltac:(lia)); lia.
Qed.

Lemma SFmul_finite (mx my : positive) (ex ey : Z) :
  SFmul prec emax (S754_finite false mx ex) (S754_finite false my ey) =
  rounded (Zpos mx * Zpos my) 1 (ex + ey).
Proof. now rewrite rounded_exact. Qed.

Lemma SFmul_mono_finite (mx mx' my my' : positive) (ex ex' ey ey' : Z) :
  SpecFloat.valid_binary prec emax (S754_finite false mx ex) = true ->
  SpecFloat.valid_binary prec emax (S754_finite false mx' ex') = true ->
  SpecFloat.valid_binary prec emax (S754_finite false my ey) = true ->
  SpecFloat.valid_binary prec emax (S754_finite false my' ey') = true ->
  SFleb (S754_finite false mx ex) (S754_finite false mx' ex') = true ->
  SFleb (S754_finite false my ey) (S754_finite false my' ey') = true ->
  SFleb (SFmul prec emax (S754_finite false mx ex) (S754_finite false my ey))
        (SFmul prec emax (S754_finite false mx' ex')
           (S754_finite false my' ey')) = true.
Proof.
  intros Vx Vx' Vy Vy' Lx Ly.
  rewrite !SFmul_finite.
  pose proof (canonical_le mx mx' ex ex' Vx Vx' Lx) as Cx.
  pose proof (canonical_le my my' ey ey' Vy Vy' Ly) as Cy.
  apply rounded_mono; try lia; try (now apply product_good).
  rewrite !Z.mul_1_r.
  set (a := Z.min ex ex') in *. set (b := Z.min ey ey') in *.
  set (E0 := Z.min (ex + ey) (ex' + ey')).
  assert (Ht : 0 <= E0 - a - b) by (unfold E0, a, b; lia).
  assert (P : 0 < 2 ^ (E0 - a - b)) by (apply Z.pow_pos_nonneg; lia).
  apply (Z.mul_le_mono_pos_r _ _ (2 ^ (E0 - a - b)) P).
  assert (Pa : 0 <= Zpos mx * 2 ^ (ex - a))
    by (apply Z.mul_nonneg_nonneg; [lia | apply Z.pow_nonneg; lia]).
  assert (Pb : 0 <= Zpos my * 2 ^ (ey - b))
    by (apply Z.mul_nonneg_nonneg; [lia | apply Z.pow_nonneg; lia]).
  pose proof (Z.mul_le_mono_nonneg _ _ _ _ Pa Cx Pb Cy) as M.
  replace (Zpos mx * Zpos my * 2 ^ (ex + ey - E0) * 2 ^ (E0 - a - b))
    with (Zpos mx * 2 ^ (ex - a) * (Zpos my * 2 ^ (ey - b))).
  2:{ rewrite <- !Z.mul_assoc, <- Z.pow_add_r by (unfold E0, a, b; lia).
      replace (ex + ey - E0 + (E0 - a - b)) with (ex - a + (ey - b)) by lia.
      rewrite Z.pow_add_r by (unfold a, b; lia). ring. }
  replace (Zpos mx' * Zpos my' * 2 ^ (ex' + ey' - E0) * 2 ^ (E0 - a - b))
    with (Zpos mx' * 2 ^ (ex' - a) * (Zpos my' * 2 ^ (ey' - b))).
  2:{ rewrite <- !Z.mul_assoc, <- Z.pow_add_r by (unfold E0, a, b; lia).
      replace (ex' + ey' - E0 + (E0 - a - b)) with (ex' - a + (ey' - b))
        by lia.
      rewrite Z.pow_add_r by (unfold a, b; lia). ring. }
  exact M.
Qed.

Lemma rounded_out (n d e : Z) :
  0 <= n -> 0 < d -> good_exponent (n / d) e ->
  exists M E : Z, 0 <= M /\ rounded n d e = round_out M E.
Proof.
  intros Hn Hd G.
  assert (Hq : 0 <= n / d) by (apply Z.div_pos; lia).
  unfold rounded. rewrite (bra_spec _ _ _ Hq G). cbv zeta.
  destruct (stage1_bound (n / d) e (frac_loc (n mod d) d) Hq G)
    as [[P _] _].
  pose proof (rnd_bounds (stage1 (n / d) e (frac_loc (n mod d) d))) as R.
  destruct (_ =? _); do 2 eexists; (split; [|reflexivity]); lia.
Qed.

Lemma zero_le_out (s : bool) (M E : Z) :
  0 <= M -> SFleb (S754_zero s) (round_out M E) = true.
Proof.
  intro H. unfold round_out. destruct M as [|p|p]; [reflexivity| |lia].
  destruct (E <=? emax - prec); reflexivity.
Qed.

Lemma out_le_infinity (M E : Z) :
  0 <= M -> SFleb (round_out M E) (S754_infinity false) = true.
Proof.
  intro H. unfold round_out. destruct M as [|p|p]; [reflexivity| |lia].
  destruct (E <=? emax - prec); reflexivity.
Qed.


Lemma nonneg_cases (x : spec_float) :
  nonneg x ->
  (exists s, x = S754_zero s) \/
  (exists m e, x = S754_finite false m e) \/
  x = S754_infinity false.
Proof.
  unfold nonneg. destruct x as [s|[|]| |[|] m e]; try discriminate; eauto.
Qed.

Lemma SFmul_mono (x x' y y' : spec_float) :
  SpecFloat.valid_binary prec emax x = true ->
  SpecFloat.valid_binary prec emax x' = true ->
  SpecFloat.valid_binary prec emax y = true ->
  SpecFloat.valid_binary prec emax y' = true ->
  nonneg x -> nonneg y ->
  SFleb x x' = true -> SFleb y y' = true ->
  SFmul prec emax x y <> S754_nan ->
  SFmul prec emax x' y' <> S754_nan ->
  SFleb (SFmul prec emax x y) (SFmul prec emax x' y') = true.
Proof.
  intros Vx Vx' Vy Vy' Nx Ny Lx Ly Hn Hn'.
  destruct (nonneg_cases x Nx) as [[sx ->]|[(mx & ex & ->)| ->]];
    destruct (nonneg_cases y Ny) as [[sy ->]|[(my & ey & ->)| ->]];
    destruct x' as [sx'|[|]| |[|] mx' ex']; try discriminate Lx;
    destruct y' as [sy'|[|]| |[|] my' ey']; try discriminate Ly;
    try (now elim Hn); try (now elim Hn');
    try reflexivity;
    try (rewrite SFmul_finite;
         match goal with
         | |- context [rounded ?n ?d ?e] =>
             let G := fresh in
             assert (G : good_exponent (n / d) e) by (now apply product_good);
             destruct (rounded_out n d e ltac:(lia) ltac:(lia) G)
               as (M & E & HM & ->)
         end;
         cbn [SFmul xorb];
         first [now apply zero_le_out | now apply out_le_infinity]).
  now apply SFmul_mono_finite.
Qed.

(** *** Quotients *)

Lemma new_location_frac (d r : Z) :
  0 < d -> 0 <= r < d -> new_location d r = frac_loc r d.
Proof.
  intros Hd Hr.
  unfold new_location, new_location_even, new_location_odd, frac_loc.
  destruct (Z.even d) eqn:E; [reflexivity|].
  destruct (r =? 0); [reflexivity|]. f_equal.
  pose proof (Z.div2_odd d) as P. rewrite <- Z.negb_even, E in P.
  cbn [negb Z.b2z] in P.
  destruct (Z.compare_spec (2 * r + 1) d), (Z.compare_spec (2 * r) d);
    try reflexivity; lia.
Qed.

Lemma digits_div (a b s : Z) :
  0 < a -> 0 < b -> 0 <= s ->
  Zdigits2 a + s - Zdigits2 b <= Zdigits2 (a * 2 ^ s / b).
Proof.
  intros Ha Hb Hs.
  pose proof (Zdigits2_bounds a Ha) as [La _].
  pose proof (Zdigits2_bounds b Hb) as [_ Ub].
  pose proof (Zdigits2_pos a Ha). pose proof (Zdigits2_pos b Hb).
  destruct (Z_le_gt_dec (Zdigits2 a + s - Zdigits2 b) 0) as [T|T].
  { pose proof (Zdigits2_nonneg (a * 2 ^ s / b)). lia. }
  assert (B : 2 ^ (Zdigits2 a + s - Zdigits2 b - 1) <= a * 2 ^ s / b).
  { apply Z.div_le_lower_bound; [exact Hb|].
    assert (P : 0 < 2 ^ (Zdigits2 a + s - Zdigits2 b - 1))
      by (apply Z.pow_pos_nonneg; lia).
    assert (b * 2 ^ (Zdigits2 a + s - Zdigits2 b - 1) <=
            2 ^ Zdigits2 b * 2 ^ (Zdigits2 a + s - Zdigits2 b - 1))
      by (apply Z.mul_le_mono_nonneg_r; lia).
    rewrite <- Z.pow_add_r in H1 by lia.
    replace (Zdigits2 b + (Zdigits2 a + s - Zdigits2 b - 1))
      with (Zdigits2 a - 1 + s) in H1 by lia.
    rewrite Z.pow_add_r in H1 by lia.
    assert (2 ^ (Zdigits2 a - 1) * 2 ^ s <= a * 2 ^ s)
      by (apply Z.mul_le_mono_nonneg_r; [apply Z.pow_nonneg|]; lia).
    eapply Z.le_trans; eassumption. }
  assert (Ht : 0 <= Zdigits2 a + s - Zdigits2 b - 1) by lia.
  pose proof (Zdigits2_ge_pow _ _ Ht B). lia.
Qed.


Lemma SFdiv_finite (mx my : positive) (ex ey : Z) :
  let e' := div_exp mx my ex ey in
  SFdiv prec emax (S754_finite false mx ex) (S754_finite false my ey) =
  rounded (Zpos mx * 2 ^ (ex - ey - e')) (Zpos my) e' /\
  good_exponent (Zpos mx * 2 ^ (ex - ey - e') / Zpos my) e'.
Proof.
  cbv zeta. unfold SFdiv, SFdiv_core_binary.
  fold (div_exp mx my ex ey). set (e' := div_exp mx my ex ey).
  assert (Hs : 0 <= ex - ey - e') by (unfold e', div_exp; lia).
  set (s := ex - ey - e') in *.
  assert (Em : match s with
               | 0 => Zpos mx
               | Zpos _ => Z.shiftl (Zpos mx) s
               | Zneg _ => 0
               end = Zpos mx * 2 ^ s).
  { destruct s as [|p|p] eqn:Es; [rewrite Z.pow_0_r; lia| |lia].
    now rewrite Z.shiftl_mul_pow2 by lia. }
  rewrite Em. clear Em.
  assert (Hn : 0 <= Zpos mx * 2 ^ s)
    by (apply Z.mul_nonneg_nonneg; [lia | apply Z.pow_nonneg; lia]).
  pose proof (Z.mod_pos_bound (Zpos mx * 2 ^ s) (Zpos my) ltac:(lia)) as Hr.
  unfold rounded.
  rewrite <- (new_location_frac (Zpos my)) by lia.
  unfold Z.div, Z.modulo.
  destruct (Z.div_eucl (Zpos mx * 2 ^ s) (Zpos my)) as [q r] eqn:Ed.
  cbn [xorb fst snd]. split; [reflexivity|].
  change q with (fst (q, r)). rewrite <- Ed.
  change (fst (Z.div_eucl (Zpos mx * 2 ^ s) (Zpos my)))
    with (Zpos mx * 2 ^ s / Zpos my).
  unfold good_exponent.
  pose proof (digits_div (Zpos mx) (Zpos my) s ltac:(lia) ltac:(lia) Hs) as D.
  assert (Es : s = ex - ey - e') by reflexivity.
  clearbody s. unfold e', div_exp in *. rewrite !fexp_eq in *. lia.
Qed.

(** Dividing by a number that is at least one does not increase. *)
Lemma SFdiv_le_self (x : spec_float) (my : positive) (ey : Z) :
  SpecFloat.valid_binary prec emax x = true ->
  SpecFloat.valid_binary prec emax (S754_finite false my ey) = true ->
  ey <= 0 -> 2 ^ (- ey) <= Zpos my ->
  nonneg x ->
  SFleb (SFdiv prec emax x (S754_finite false my ey)) x = true.
Proof.
  intros Vx Vy Hey Hone Nx.
  destruct (nonneg_cases x Nx) as [[sx ->]|[(mx & ex & ->)| ->]];
    try reflexivity.
  destruct (SFdiv_finite mx my ex ey) as [-> G].
  destruct (rounded_canonical mx ex Vx) as [Gx Ex].
  rewrite <- Ex.
  destruct (canonical_facts mx ex Vx) as (Cx & _).
  pose proof (Zdigits2_ge_pow (Zpos my) (- ey) ltac:(lia) Hone) as Dy.
  assert (He : div_exp mx my ex ey <= ex).
  { unfold div_exp. rewrite fexp_eq in *. lia. }
  set (e' := div_exp mx my ex ey) in *.
  apply rounded_mono; try lia; try assumption;
    try (apply Z.mul_nonneg_nonneg; [lia | apply Z.pow_nonneg; lia]).
  rewrite Z.min_l by lia. rewrite Z.sub_diag, Z.pow_0_r, !Z.mul_1_r.
  replace (ex - ey - e') with (ex - e' + - ey) by lia.
  rewrite Z.pow_add_r by lia.
  assert (P : 0 <= Zpos mx * 2 ^ (ex - e'))
    by (apply Z.mul_nonneg_nonneg; [lia | apply Z.pow_nonneg; lia]).
  rewrite Z.mul_assoc.
  apply Z.mul_le_mono_nonneg_l; assumption.
Qed.

(** Division by a positive number keeps the order. *)
Lemma SFdiv_mono (x x' : spec_float) (my : positive) (ey : Z) :
  SpecFloat.valid_binary prec emax x = true ->
  SpecFloat.valid_binary prec emax x' = true ->
  nonneg x -> SFleb x x' = true ->
  SFleb (SFdiv prec emax x (S754_finite false my ey))
        (SFdiv prec emax x' (S754_finite false my ey)) = true.
Proof.
  intros Vx Vx' Nx Lx.
  destruct (nonneg_cases x Nx) as [[sx ->]|[(mx & ex & ->)| ->]];
    destruct x' as [sx'|[|]| |[|] mx' ex']; try discriminate Lx;
    try reflexivity;
    try (destruct (SFdiv_finite mx my ex ey) as [-> G]);
    try (destruct (SFdiv_finite mx' my ex' ey) as [-> G']);
    try match goal with
      | |- SFleb (SFdiv _ _ (S754_zero _) _) (rounded ?n ?d ?e) = true =>
          destruct (rounded_out n d e) as (M & E & HM & ->);
          [apply Z.mul_nonneg_nonneg; [lia | apply Z.pow_nonneg;
             unfold div_exp; lia] | lia | assumption
          | now apply zero_le_out]
      | |- SFleb (rounded ?n ?d ?e) (SFdiv _ _ (S754_infinity _) _) = true =>
          destruct (rounded_out n d e) as (M & E & HM & ->);
          [apply Z.mul_nonneg_nonneg; [lia | apply Z.pow_nonneg;
             unfold div_exp; lia] | lia | assumption
          | now apply out_le_infinity]
      end.
  pose proof (canonical_le mx mx' ex ex' Vx Vx' Lx) as C.
  set (e1 := div_exp mx my ex ey) in *.
  set (e1' := div_exp mx' my ex' ey) in *.
  assert (B : e1 <= ex - ey) by (unfold e1, div_exp; lia).
  assert (B' : e1' <= ex' - ey) by (unfold e1', div_exp; lia).
  apply rounded_mono; try lia; try assumption;
    try (apply Z.mul_nonneg_nonneg; [lia | apply Z.pow_nonneg; lia]).
  set (E0 := Z.min e1 e1'). set (a := Z.min ex ex') in *.
  assert (Ht : 0 <= a - ey - E0) by (unfold a, E0; lia).
  assert (P : 0 <= 2 ^ (a - ey - E0)) by (apply Z.pow_nonneg; lia).
  pose proof (Z.mul_le_mono_nonneg_r _ _ _ P C) as M.
  rewrite <- !Z.mul_assoc, <- !Z.pow_add_r in M by (unfold a; lia).
  replace (ex - a + (a - ey - E0)) with (ex - ey - e1 + (e1 - E0)) in M
    by lia.
  replace (ex' - a + (a - ey - E0)) with (ex' - ey - e1' + (e1' - E0)) in M
    by lia.
  rewrite !Z.pow_add_r, !Z.mul_assoc in M by (unfold E0; lia).
  apply Z.mul_le_mono_nonneg_r; [lia | exact M].
Qed.

(** *** From the specification to the primitive floats *)

Lemma float_nonneg (x : float) :
  PrimFloat.leb PrimFloat.zero x = true -> nonneg (Prim2SF x).
Proof. intro H. unfold nonneg. now rewrite leb_spec in H. Qed.

Lemma SFleb_refl (x : spec_float) : nonneg x -> SFleb x x = true.
Proof.
  intro N. destruct (nonneg_cases x N) as [[s ->]|[(m & e & ->)| ->]];
    try reflexivity.
  unfold SFleb, SFcompare. rewrite Z.compare_refl.
  change (PosDef.Pos.compare_cont Eq m m) with (Pos.compare m m).
  now rewrite Pos.compare_refl.
Qed.

Lemma float_finite_cases (x : float) :
  F64.isFinite x = true -> nonneg (Prim2SF x) ->
  (exists s, Prim2SF x = S754_zero s) \/
  (exists m e, Prim2SF x = S754_finite false m e).
Proof.
  unfold F64.isFinite. intros F N.
  destruct (nonneg_cases _ N) as [H|[H|H]]; auto.
  rewrite H in F. discriminate F.
Qed.

Lemma SFmul_finite_not_nan (mx my : positive) (ex ey : Z) :
  SpecFloat.valid_binary prec emax (S754_finite false mx ex) = true ->
  SpecFloat.valid_binary prec emax (S754_finite false my ey) = true ->
  SFmul prec emax (S754_finite false mx ex) (S754_finite false my ey)
  <> S754_nan.
Proof.
  intros Vx Vy. rewrite SFmul_finite.
  destruct (rounded_out (Zpos mx * Zpos my) 1 (ex + ey))
    as (M & E & HM & ->); try lia; [now apply product_good|].
  unfold round_out. destruct M; [discriminate| |lia].
  destruct (_ <=? _); discriminate.
Qed.

(** The product of non-negative numbers is not NaN unless one is zero
    and the other infinite. *)
Lemma SFmul_not_nan (x y : spec_float) :
  SpecFloat.valid_binary prec emax x = true ->
  SpecFloat.valid_binary prec emax y = true ->
  nonneg x -> nonneg y ->
  (x = S754_infinity false -> forall s, y <> S754_zero s) ->
  (y = S754_infinity false -> forall s, x <> S754_zero s) ->
  SFmul prec emax x y <> S754_nan /\ nonneg (SFmul prec emax x y).
Proof.
  intros Vx Vy Nx Ny Hx Hy.
  destruct (nonneg_cases x Nx) as [[sx ->]|[(mx & ex & ->)| ->]];
    destruct (nonneg_cases y Ny) as [[sy ->]|[(my & ey & ->)| ->]];
    try (split; [discriminate | reflexivity]);
    try (now elim (Hx eq_refl sy)); try (now elim (Hy eq_refl sx)).
  split; [now apply SFmul_finite_not_nan|].
  rewrite SFmul_finite.
  destruct (rounded_out (Zpos mx * Zpos my) 1 (ex + ey))
    as (M & E & HM & ->); try lia; [now apply product_good|].
  now apply zero_le_out.
Qed.

Section Binary64Order.

Local Open Scope float_scope.


(** Multiplication keeps the order of non-negative numbers, as long as
    no product is NaN. *)
Lemma float_mul_mono (x x' y y' : float) :
  (0 <=? x) = true -> (0 <=? y) = true ->
  (x <=? x') = true -> (y <=? y') = true ->
  Prim2SF (x * y) <> S754_nan -> Prim2SF (x' * y') <> S754_nan ->
  (x * y <=? x' * y') = true.
Proof.
  intros Hx Hy Lx Ly Hn Hn'.
  rewrite !leb_spec, !mul_spec in *.
  apply SFmul_mono; try apply Prim2SF_valid; assumption.
Qed.

Lemma float_le_nonneg (x x' : float) :
  (0 <=? x) = true -> (x <=? x') = true -> (0 <=? x') = true.
Proof.
  rewrite !leb_spec. change (Prim2SF 0) with (S754_zero false).
  intros N L. destruct (nonneg_cases _ N) as [[s E]|[(m & e & E)|E]];
    rewrite E in L; destruct (Prim2SF x') as [s'|[|]| |[|] m' e'];
    try discriminate L; reflexivity.
Qed.

Lemma float_le_finite (x x' : float) :
  (0 <=? x) = true -> (x <=? x') = true -> F64.isFinite x' = true ->
  F64.isFinite x = true.
Proof.
  unfold F64.isFinite. rewrite !leb_spec.
  change (Prim2SF 0) with (S754_zero false).
  intros N L. destruct (nonneg_cases _ N) as [[s E]|[(m & e & E)|E]];
    rewrite E in *; try reflexivity.
  destruct (Prim2SF x') as [s'|[|]| |[|] m' e']; try discriminate L;
    discriminate.
Qed.

(** Finite non-negative factors. *)
Lemma float_mul_finite (x y : float) :
  (0 <=? x) = true -> (0 <=? y) = true ->
  F64.isFinite x = true -> F64.isFinite y = true ->
  Prim2SF (x * y) <> S754_nan /\ (0 <=? x * y) = true.
Proof.
  intros Hx Hy Fx Fy. rewrite leb_spec, mul_spec.
  change (Prim2SF 0) with (S754_zero false).
  apply SFmul_not_nan; try apply Prim2SF_valid;
    try (now apply float_nonneg).
  - unfold F64.isFinite in Fx. intros E. rewrite E in Fx. discriminate.
  - unfold F64.isFinite in Fy. intros E. rewrite E in Fy. discriminate.
Qed.

(** A positive finite second factor. *)
Lemma float_mul_positive (x c : float) :
  (0 <=? x) = true -> (0 <? c) = true -> F64.isFinite c = true ->
  Prim2SF (x * c) <> S754_nan /\ (0 <=? x * c) = true.
Proof.
  intros Hx Hc Fc. rewrite leb_spec, mul_spec.
  change (Prim2SF 0) with (S754_zero false).
  rewrite ltb_spec in Hc. change (Prim2SF 0) with (S754_zero false) in Hc.
  unfold F64.isFinite in Fc.
  apply SFmul_not_nan; try apply Prim2SF_valid;
    try (now apply float_nonneg).
  - unfold nonneg. destruct (Prim2SF c) as [s|[|]| |[|] m e];
      try discriminate; reflexivity.
  - intros _ s E. rewrite E in Hc. discriminate.
  - intros E. rewrite E in Fc. discriminate.
Qed.

End Binary64Order.

Section Binary64Prices.

Local Open Scope float_scope.


Lemma TROY_spec :
  Prim2SF (@TROY_OUNCE_IN_GRAMS float _) =
  S754_finite false 8754856938119889 (-48).
Proof. vm_compute. reflexivity. Qed.

(** The price per gram is at most the price per ounce. *)
Lemma div_troy_le (b : float) :
  (0 <=? b) = true -> (b / TROY_OUNCE_IN_GRAMS <=? b) = true.
Proof.
  intro H. rewrite leb_spec, div_spec, TROY_spec.
  apply SFdiv_le_self; try apply Prim2SF_valid.
  - rewrite <- TROY_spec. apply Prim2SF_valid.
  - lia.
  - vm_compute. discriminate.
  - now apply float_nonneg.
Qed.

Lemma div_troy_mono (x x' : float) :
  (0 <=? x) = true -> (x <=? x') = true ->
  (x / TROY_OUNCE_IN_GRAMS <=? x' / TROY_OUNCE_IN_GRAMS) = true.
Proof.
  intros H L. rewrite !leb_spec, !div_spec, TROY_spec in *.
  apply SFdiv_mono; try apply Prim2SF_valid; assumption.
Qed.

Lemma div_troy_nonneg (x : float) :
  (0 <=? x) = true -> (0 <=? x / TROY_OUNCE_IN_GRAMS) = true.
Proof.
  intro H.
  pose proof (div_troy_mono 0 x eq_refl H) as M.
  apply (float_le_nonneg (0 / TROY_OUNCE_IN_GRAMS)); [reflexivity | exact M].
Qed.

Lemma float_le_refl (x : float) : (0 <=? x) = true -> (x <=? x) = true.
Proof.
  intro H. rewrite leb_spec. apply SFleb_refl. now apply float_nonneg.
Qed.

Lemma float_lt_le (c : float) : (0 <? c) = true -> (0 <=? c) = true.
Proof.
  rewrite leb_spec, ltb_spec. unfold SFleb, SFltb.
  destruct (SFcompare (Prim2SF 0) (Prim2SF c)) as [[]|];
    try discriminate; reflexivity.
Qed.

(** The first step of the conversion. *)
Lemma unit_step (b : float) (unit : string) :
  (0 <=? b) = true -> F64.isFinite b = true ->
  let x := if String.eqb unit "gram" then b / TROY_OUNCE_IN_GRAMS else b in
  (0 <=? x) = true /\ (x <=? b) = true /\ F64.isFinite x = true.
Proof.
  intros H F. cbv zeta. destruct (String.eqb unit "gram").
  - pose proof (div_troy_nonneg b H) as N.
    pose proof (div_troy_le b H) as L.
    split; [exact N|]. split; [exact L|]. exact (float_le_finite _ _ N L F).
  - split; [exact H|]. split; [now apply float_le_refl | exact F].
Qed.

(** The second step keeps the order. *)
Lemma currency_step (x x' r : float) (currency : string) :
  (0 <=? x) = true -> (x <=? x') = true -> F64.isFinite x' = true ->
  (0 <=? r) = true -> F64.isFinite r = true ->
  let y := if String.eqb currency "JOD" then x * r else x in
  let y' := if String.eqb currency "JOD" then x' * r else x' in
  (0 <=? y) = true /\ (y <=? y') = true.
Proof.
  intros H L F Hr Fr. cbv zeta.
  destruct (String.eqb currency "JOD"); [|split; assumption].
  pose proof (float_le_nonneg x x' H L) as H'.
  pose proof (float_le_finite x x' H L F) as Fx.
  destruct (float_mul_finite x r H Hr Fx Fr) as [N P].
  destruct (float_mul_finite x' r H' Hr F Fr) as [N' _].
  split; [exact P|].
  apply float_mul_mono; try assumption. now apply float_le_refl.
Qed.

(** The third step keeps the order, in the price and in the factor. *)
Lemma purity_step (y y' c c' : float) :
  (0 <=? y) = true -> (y <=? y') = true ->
  (0 <? c) = true -> (c <=? c') = true ->
  F64.isFinite c = true -> F64.isFinite c' = true ->
  (y * c <=? y' * c') = true.
Proof.
  intros H L Hc Lc Fc Fc'.
  pose proof (float_le_nonneg y y' H L) as H'.
  pose proof (float_lt_le c Hc) as Hc0.
  assert (Hc' : (0 <? c') = true).
  { rewrite ltb_spec in *. rewrite leb_spec in Lc.
    change (Prim2SF 0) with (S754_zero false) in *.
    destruct (Prim2SF c) as [s|[|]| |[|] m e]; try discriminate Hc;
      destruct (Prim2SF c') as [s'|[|]| |[|] m' e']; try discriminate Lc;
      reflexivity. }
  destruct (float_mul_positive y c H Hc Fc) as [N _].
  destruct (float_mul_positive y' c' H' Hc' Fc') as [N' _].
  now apply float_mul_mono.
Qed.

(** The purity factors. *)
Lemma purity_factor (k : float) :
  In k VALID_PURITY_LEVELS ->
  (0 <? k / decimal 24 0) = true /\
  F64.isFinite (k / decimal 24 0) = true.
Proof.
  intros [<-|[<-|[<-|[<-|[]]]]]; split; vm_compute; reflexivity.
Qed.


(** At binary64 the converted price does not fall when the base price
    rises. *)
Lemma convertPrice_keeps_order_binary64 (p1 p2 r k : float)
    (unit currency : string) :
  (0 <=? p1) = true -> (p1 <=? p2) = true -> F64.isFinite p2 = true ->
  (0 <=? r) = true -> F64.isFinite r = true ->
  In k VALID_PURITY_LEVELS ->
  (convertPrice p1 unit currency r (Some k) <=?
   convertPrice p2 unit currency r (Some k)) = true.
Proof.
  intros H1 L F2 Hr Fr Hk. unfold convertPrice. cbv zeta.
  cbn [nmul ndiv binary64].
  pose proof (float_le_nonneg p1 p2 H1 L) as H2.
  assert (U : (0 <=? (if String.eqb unit "gram"
                      then p1 / TROY_OUNCE_IN_GRAMS else p1)) = true /\
              ((if String.eqb unit "gram"
                then p1 / TROY_OUNCE_IN_GRAMS else p1) <=?
               (if String.eqb unit "gram"
                then p2 / TROY_OUNCE_IN_GRAMS else p2)) = true /\
              F64.isFinite (if String.eqb unit "gram"
                            then p2 / TROY_OUNCE_IN_GRAMS else p2) = true).
  { destruct (unit_step p2 unit H2 F2) as (_ & _ & Fx).
    destruct (String.eqb unit "gram").
    - split; [now apply div_troy_nonneg|].
      split; [now apply div_troy_mono | exact Fx].
    - split; [exact H1|]. split; assumption. }
  destruct U as (Ux & Lx & Fx).
  destruct (currency_step _ _ r currency Ux Lx Fx Hr Fr) as [Hy Ly].
  destruct (purity_factor k Hk) as [Hc Fc].
  apply purity_step; try assumption.
  apply float_le_refl. now apply float_lt_le.
Qed.

End Binary64Prices.

End Rounding.

(* ------------------------------------------------------------------ *)
(** ** The price converter *)

Section ConverterExact.

Local Open Scope Q_scope.

(** The conversion in exact arithmetic, step by step. *)
Lemma convertPrice_exact (p r : Q) (unit currency : string)
    (purity : option Q) :
  convertPrice (Exact.XNum p) unit currency (Exact.XNum r)
    (option_map Exact.XNum purity) =
  Exact.XNum
    (let x := if String.eqb unit "gram" then p / (311035 # 10000) else p in
     let x := if String.eqb currency "JOD" then x * r else x in
     match purity with
     | Some k => x * (k / (24 # 1))
     | None => x
     end).
Proof.
  unfold convertPrice, TROY_OUNCE_IN_GRAMS.
  destruct (String.eqb unit "gram"), (String.eqb currency "JOD"),
    purity as [k|]; reflexivity.
Qed.



(** C4: the conversion applies exactly three conditional factors to the
    base price, in sequence: [/ 31.1035] for unit gram, [* rate] for
    currency JOD, [* (purity / 24)] when a purity is given.  In exact
    arithmetic the result is the base price times these factors, with
    no rounding; the rounding to four decimals is the payload's, not the
    conversion's (the scenario of C9 shows the two differ). *)
Theorem convertPrice_three_factors :
  (forall (num : Type) (JN : JsNumber num) (usdPerOunce usdToJod : num)
          (unit currency : string) (purity : option num),
      convertPrice usdPerOunce unit currency usdToJod purity =
      let byUnit (x : num) :=
        if String.eqb unit "gram" then (x / decimal 311035 4)%js else x in
      let byCurrency (x : num) :=
        if String.eqb currency "JOD" then (x * usdToJod)%js else x in
      let byPurity (x : num) :=
        match purity with
        | Some k => (x * (k / decimal 24 0))%js
        | None => x
        end in
      byPurity (byCurrency (byUnit usdPerOunce))) /\
  (forall (p r : Q) (unit currency : string) (purity : option Q),
      Exact.same
        (convertPrice (Exact.XNum p) unit currency (Exact.XNum r)
           (option_map Exact.XNum purity))
        (Exact.XNum (p
               * (if String.eqb unit "gram" then 1 / (311035 # 10000) else 1)
               * (if String.eqb currency "JOD" then r else 1)
               * (match purity with Some k => k / (24 # 1) | None => 1 end))))
  /\
  (forall (num : Type) (JN : JsNumber num) (now : string) (x : num)
          (unit currency : string) (lower upper : num) (status : Status),
      current_price (buildPayload now x unit currency lower upper status)
      = toFixed4 x) /\
  (let x := convertPrice 2000%float "gram" "JOD" 0.71%float (Some 21%float) in
   x = 39.947272814956513%float /\
   toFixed4 x = 39.9473%float /\
   x <> toFixed4 x).
Proof.
  split; [reflexivity|].
  split.
  { intros p r unit currency purity. rewrite convertPrice_exact.
    cbv zeta. unfold Exact.same.
    destruct (String.eqb unit "gram"), (String.eqb currency "JOD"),
      purity as [k|]; field. }
  split; [reflexivity|].
  cbv zeta. split; [vm_compute; reflexivity|].
  split; [vm_compute; reflexivity|].
  intro H.
  apply (f_equal (fun v => PrimFloat.eqb v 39.9473%float)) in H.
  vm_compute in H. discriminate H.
Qed.


End ConverterExact.

Section ConverterBinary64.

Local Open Scope float_scope.


End ConverterBinary64.




(* ------------------------------------------------------------------ *)
(** ** The worked scenario: 2000 USD/oz, rate 0.71, gram, JOD, 21 carat *)

(** The literals of the scenario denote the binary64 values node reads. *)
Lemma scenario_literals :
  decimal 2000 0 = 2000%float /\ decimal 71 2 = 0.71%float /\
  decimal 21 0 = 21%float /\ decimal 30 0 = 30%float /\
  decimal 40 0 = 40%float /\
  TROY_OUNCE_IN_GRAMS = 31.1035%float /\ decimal 24 0 = 24%float.
Proof.
  repeat split; vm_compute; reflexivity.
Qed.

(** C9 (as amended): the derived price is [2000/31.1035 × 0.71 × 21/24]
    (binary64: 39.947272814956513), which rounded to 4 decimals is 39.9473,
    and against the band 30..40 it is [within_range]; the same holds in
    exact arithmetic. *)
Theorem scenario_gram_JOD_21 :
  (let price :=
     convertPrice (num := float) (decimal 2000 0) "gram" "JOD" (decimal 71 2)
       (Some (decimal 21 0)) in
   price = (2000 / 31.1035 * 0.71 * (21 / 24))%float /\
   price = 39.947272814956513%float /\
   toFixed4 price = 39.9473%float /\
   evaluateStatus price (decimal 30 0) (decimal 40 0) = within_range) /\
  (let price :=
     convertPrice (num := Exact.xnum) (decimal 2000 0) "gram" "JOD"
       (decimal 71 2) (Some (decimal 21 0)) in
   Exact.same price
     (Exact.XNum (2000 / (311035 # 10000) * (71 # 100) * (21 / 24))%Q) /\
   Exact.same (toFixed4 price) (Exact.XNum (399473 # 10000)) /\
   evaluateStatus price (decimal 30 0) (decimal 40 0) = within_range).
Proof.
  split; cbv zeta.
  - repeat split; vm_compute; reflexivity.
  - repeat split; vm_compute; reflexivity.
Qed.

(** The payload's price in the scenario is not 39.9163. *)
Lemma scenario_not_39_9163 :
  toFixed4
    (convertPrice (num := float) (decimal 2000 0) "gram" "JOD" (decimal 71 2)
       (Some (decimal 21 0)))
  <> 39.9163%float.
Proof.
  intro H.
  apply (f_equal (fun v => PrimFloat.eqb v 39.9163%float)) in H.
  vm_compute in H. discriminate H.
Qed.

(* ------------------------------------------------------------------ *)
(** ** The evaluation cycle *)

Section Cycle.

Context {num : Type} {JN : JsNumber num}.

Lemma due_dec (previousStatus : option Status) (status : Status) :
  {due previousStatus status} + {~ due previousStatus status}.
Proof.
  unfold due.
  destruct status, previousStatus as [[]|];
    try (left; split; congruence); right; intros [H1 H2]; congruence.
Qed.

Lemma sendAlertEmail_cases (env : Env num) (to : string)
    (payload : Payload num) (breached : string) :
  exists (r : outcome JsError void) (evs : list (Event num)),
    sendAlertEmail env to payload breached = (r, evs) /\
    match r with
    | Returned _ => alert_events env to breached evs /\ alerts evs = 1%nat
    | Thrown error =>
        let evs' :=
          (evs ++ [console_error "Failed to send alert email" error])%list in
        alert_events env to breached evs' /\ alerts evs' = 1%nat
    end.
Proof.
  unfold sendAlertEmail, alert_events.
  destruct (getEmailTransporter env) as [send|].
  - match goal with |- context [send ?m] => set (mail := m) end.
    destruct (send mail) as [error|] eqn:E; do 2 eexists;
      (split; [reflexivity|]); cbv zeta; (split; [|reflexivity]);
      exists mail; (split; [reflexivity|]); (split; [reflexivity|]);
      rewrite E; reflexivity.
  - do 2 eexists. split; [reflexivity|]. split; reflexivity.
Qed.

Lemma evaluateEntry_spec (env : Env num) (usdPerOunce usdToJod : num)
    (key : string) (subscription : Subscription num) :
  exists evs : list (Event num),
    evaluateEntry env usdPerOunce usdToJod key subscription =
      (Returned tt,
       set_lastStatus subscription
         (statusOf usdPerOunce usdToJod subscription),
       evs) /\
    entry_spec env usdPerOunce usdToJod key subscription evs.
Proof.
  unfold evaluateEntry, entry_spec.
  fold (statusOf usdPerOunce usdToJod subscription).
  set (status := statusOf usdPerOunce usdToJod subscription).
  clearbody status. cbv zeta.
  remember (lastStatus subscription) as previousStatus eqn:Eprev.
  destruct (due_dec previousStatus status) as [D|D].
  - assert (Ew : Status_eqb status within_range = false)
      by (destruct D as [Hw _], status; try reflexivity; congruence).
    assert (Ed : differs previousStatus status = true).
    { unfold differs. destruct D as [_ Hp].
      destruct previousStatus as [[]|], status;
        try reflexivity; congruence. }
    rewrite Ew, Ed. cbn [andb negb].
    replace (if Status_eqb status below_range
             then "below lower threshold" else "above upper threshold")
      with (direction status)
      by (destruct D as [Hw _], status; try reflexivity; congruence).
    match goal with
    | |- context [sendAlertEmail env key ?p ?b] =>
        destruct (sendAlertEmail_cases env key p b) as (r & evs & E & A);
        rewrite E
    end.
    destruct r as [[]|error]; eexists; (split; [reflexivity|]);
      left; (split; [exact D | exact A]).
  - exists []. split.
    + unfold due in D.
      destruct status, previousStatus as [[]|]; cbn;
        try reflexivity; exfalso; apply D; split; congruence.
    + right. split; [exact D | reflexivity].
Qed.

Lemma forEntries_spec
    (body : string -> Subscription num ->
            outcome JsError void * Subscription num * list (Event num))
    (f : Subscription num -> Subscription num)
    (P : string -> Subscription num -> list (Event num) -> Prop) :
  (forall key subscription, exists evs,
      body key subscription = (Returned tt, f subscription, evs) /\
      P key subscription evs) ->
  forall entries : JsMap (Subscription num),
  exists per : list (list (Event num)),
    forEntries body entries =
      (Returned tt, map (fun e => (fst e, f (snd e))) entries,
       List.concat per) /\
    Forall2 (fun e evs => P (fst e) (snd e) evs) entries per.
Proof.
  intros Hbody. induction entries as [|[key subscription] rest IH].
  - exists []. split; [reflexivity | constructor].
  - destruct (Hbody key subscription) as (evs & E & HP).
    destruct IH as (per & Erest & HF).
    exists (evs :: per). split.
    + cbn [forEntries map List.concat fst snd]. rewrite E, Erest. reflexivity.
    + constructor; assumption.
Qed.

(** With usable reference data the cycle ends normally and leaves every
    entry stamped with its computed status. *)
Lemma cycle_usable (env : Env num) (s : Server num)
    (usdPerOunce usdToJod : num) :
  latestFetchError s = None ->
  latestUsdPricePerOunce s = Some usdPerOunce ->
  latestUsdToJodRate s = Some usdToJod ->
  exists evs : list (Event num),
    evaluateSubscriptions env s =
      (Returned tt,
       emit (with_subscriptions s
               (stamped usdPerOunce usdToJod (subscriptions s)))
            evs).
Proof.
  intros He Hp Hr.
  destruct (forEntries_spec
              (evaluateEntry env usdPerOunce usdToJod)
              (fun sub =>
                 set_lastStatus sub (statusOf usdPerOunce usdToJod sub))
              (fun _ _ _ => True))
    with (entries := subscriptions s) as (per & E & _).
  - intros key sub.
    destruct (evaluateEntry_spec env usdPerOunce usdToJod key sub)
      as (evs & E & _).
    exists evs. split; [exact E | exact I].
  - exists (List.concat per).
    unfold evaluateSubscriptions. rewrite He, Hp, Hr, E. reflexivity.
Qed.

Lemma cycle_skipped (env : Env num) (s : Server num) :
  latestFetchError s <> None \/
  latestUsdPricePerOunce s = None \/
  latestUsdToJodRate s = None ->
  evaluateSubscriptions env s = (Returned tt, s).
Proof.
  unfold evaluateSubscriptions.
  intros [H|[H|H]].
  - destruct (latestFetchError s); [reflexivity | congruence].
  - rewrite H. destruct (latestFetchError s); reflexivity.
  - rewrite H.
    destruct (latestFetchError s), (latestUsdPricePerOunce s); reflexivity.
Qed.

(** Whatever the cache and the transport, a cycle ends normally, and its
    registry is the old one or the old one with the statuses stored. *)
Lemma cycle_total (env : Env num) (s : Server num) :
  exists s' : Server num,
    evaluateSubscriptions env s = (Returned tt, s') /\
    latestUsdPricePerOunce s' = latestUsdPricePerOunce s /\
    latestUsdToJodRate s' = latestUsdToJodRate s /\
    latestFetchError s' = latestFetchError s /\
    subscriptions s' =
      match latestFetchError s, latestUsdPricePerOunce s,
            latestUsdToJodRate s with
      | None, Some usdPerOunce, Some usdToJod =>
          stamped usdPerOunce usdToJod (subscriptions s)
      | _, _, _ => subscriptions s
      end.
Proof.
  destruct (latestFetchError s) as [error|] eqn:He.
  { exists s. rewrite cycle_skipped by (left; congruence). now repeat split. }
  destruct (latestUsdPricePerOunce s) as [usdPerOunce|] eqn:Hp.
  2:{ exists s. rewrite cycle_skipped by (right; left; congruence).
      now repeat split. }
  destruct (latestUsdToJodRate s) as [usdToJod|] eqn:Hr.
  2:{ exists s. rewrite cycle_skipped by (right; right; congruence).
      now repeat split. }
  destruct (cycle_usable env s usdPerOunce usdToJod He Hp Hr) as (evs & E).
  eexists. split; [exact E|]. cbn. now repeat split.
Qed.

(** What [stamped] says entry by entry: same key, same parameters, and
    the computed status as [lastStatus]. *)
Lemma stamped_entries (usdPerOunce usdToJod : num)
    (entries : JsMap (Subscription num)) :
  Forall2
    (fun after before =>
       fst after = fst before /\
       lastStatus (snd after) =
         Some (statusOf usdPerOunce usdToJod (snd before)) /\
       same_parameters (snd after) (snd before))
    (stamped usdPerOunce usdToJod entries) entries.
Proof.
  induction entries as [|[key sub] rest IH]; cbn [stamped map];
    constructor; [|exact IH].
  cbn [fst snd set_lastStatus lastStatus]. unfold same_parameters.
  now repeat split.
Qed.

(** C1: with usable reference data, a cycle ends normally; afterwards
    every subscription is in its place with its parameters unchanged and
    its [lastStatus] equal to the status computed for it, whatever that
    status is and whether or not an alert goes out; and for each
    subscription the cycle dispatches exactly one alert when the new
    status is not [within_range] and differs from the stored [lastStatus]
    (an unset [lastStatus] differs from every status, so a first
    evaluation that finds the price out of range alerts once), and does
    nothing otherwise. *)
Theorem evaluateSubscriptions_alerts (env : Env num) (s : Server num)
    (usdPerOunce usdToJod : num) :
  latestFetchError s = None ->
  latestUsdPricePerOunce s = Some usdPerOunce ->
  latestUsdToJodRate s = Some usdToJod ->
  exists (s' : Server num) (per : list (list (Event num))),
    evaluateSubscriptions env s = (Returned tt, s') /\
    effects s' = (effects s ++ List.concat per)%list /\
    Forall2
      (fun after before =>
         fst after = fst before /\
         lastStatus (snd after) =
           Some (statusOf usdPerOunce usdToJod (snd before)) /\
         same_parameters (snd after) (snd before))
      (subscriptions s') (subscriptions s) /\
    Forall2
      (fun entry evs =>
         entry_spec env usdPerOunce usdToJod (fst entry) (snd entry) evs /\
         (lastStatus (snd entry) = None ->
          statusOf usdPerOunce usdToJod (snd entry) <> within_range ->
          alerts evs = 1%nat))
      (subscriptions s) per.
Proof.
  intros He Hp Hr.
  destruct (forEntries_spec
              (evaluateEntry env usdPerOunce usdToJod)
              (fun sub =>
                 set_lastStatus sub (statusOf usdPerOunce usdToJod sub))
              (fun key sub evs =>
                 entry_spec env usdPerOunce usdToJod key sub evs /\
                 (lastStatus sub = None ->
                  statusOf usdPerOunce usdToJod sub <> within_range ->
                  alerts evs = 1%nat)))
    with (entries := subscriptions s) as (per & E & HF).
  - intros key sub.
    destruct (evaluateEntry_spec env usdPerOunce usdToJod key sub)
      as (evs & E & S).
    exists evs. split; [exact E|]. split; [exact S|].
    intros Hnone Hst. destruct S as [(_ & _ & A)|(N & _)]; [exact A|].
    exfalso. apply N. split; [exact Hst|]. rewrite Hnone. discriminate.
  - eexists. exists per. split.
    { unfold evaluateSubscriptions. rewrite He, Hp, Hr, E. reflexivity. }
    split; [reflexivity|]. split; [|exact HF].
    exact (stamped_entries usdPerOunce usdToJod (subscriptions s)).
Qed.

(** C2: when the cache holds an error, or the base price or the rate has
    never been stored, the cycle returns at once: the whole server state
    (every subscription's [lastStatus] included) is as before and no
    event is produced. *)
Theorem evaluateSubscriptions_skips (env : Env num) (s : Server num) :
  latestFetchError s <> None \/
  latestUsdPricePerOunce s = None \/
  latestUsdToJodRate s = None ->
  evaluateSubscriptions env s = (Returned tt, s) /\
  subscriptions (snd (evaluateSubscriptions env s)) = subscriptions s /\
  effects (snd (evaluateSubscriptions env s)) = effects s.
Proof.
  intro H. rewrite (cycle_skipped env s H). now repeat split.
Qed.

(** In the events of one entry a rejected send is followed by its log
    line. *)
Lemma rejected_send_logged (env : Env num) (usdPerOunce usdToJod : num)
    (key : string) (subscription : Subscription num)
    (evs : list (Event num)) :
  entry_spec env usdPerOunce usdToJod key subscription evs ->
  forall m error,
    In (sendMail_rejected m error) evs ->
    In (console_error "Failed to send alert email" error) evs.
Proof.
  intros [(_ & A & _)|(_ & ->)] m error Hin; [|destruct Hin].
  unfold alert_events in A.
  destruct (getEmailTransporter env) as [send|].
  - destruct A as (m' & _ & _ & A). destruct (send m') as [error'|]; subst evs.
    + destruct Hin as [Hin|[Hin|[]]]; [|discriminate Hin].
      injection Hin as _ <-. right. left. reflexivity.
    + destruct Hin as [Hin|[]]. discriminate Hin.
  - subst evs. destruct Hin as [Hin|[]]. discriminate Hin.
Qed.

(** C7: dispatching never disturbs the evaluation.  Without a configured
    transport [sendAlertEmail] returns normally after a warning.  Whatever
    the transport does, the loop body ends normally and the entry then has
    the computed status as its [lastStatus] and its parameters unchanged;
    a rejected send is logged there, and when every send is rejected and
    an alert is due the events of the body are the rejected send and its
    log line.  The cycle ends normally, with usable reference data every
    entry has the computed status as its [lastStatus] afterwards, and the
    registry the cycle leaves is the same for every transport
    behaviour. *)
Theorem dispatch_failure_contained (env : Env num) (s : Server num) :
  (getEmailTransporter env = None ->
   forall (to : string) (payload : Payload num) (breached : string),
     sendAlertEmail env to payload breached =
     (Returned tt,
      [console_warn "Email transport not configured. Skipping alert."])) /\
  (forall (usdPerOunce usdToJod : num) (key : string)
          (subscription : Subscription num),
     exists (evs : list (Event num)) (after : Subscription num),
       evaluateEntry env usdPerOunce usdToJod key subscription =
         (Returned tt, after, evs) /\
       lastStatus after =
         Some (statusOf usdPerOunce usdToJod subscription) /\
       same_parameters after subscription /\
       (forall m error,
          In (sendMail_rejected m error) evs ->
          In (console_error "Failed to send alert email" error) evs) /\
       (forall send : Mail num -> option JsError,
          getEmailTransporter env = Some send ->
          (forall m, send m <> None) ->
          due (lastStatus subscription)
            (statusOf usdPerOunce usdToJod subscription) ->
          exists m error,
            to m = key /\
            evs = [sendMail_rejected m error;
                   console_error "Failed to send alert email" error])) /\
  (exists s' : Server num,
     evaluateSubscriptions env s = (Returned tt, s') /\
     (forall usdPerOunce usdToJod : num,
        latestFetchError s = None ->
        latestUsdPricePerOunce s = Some usdPerOunce ->
        latestUsdToJodRate s = Some usdToJod ->
        Forall2
          (fun after before =>
             fst after = fst before /\
             lastStatus (snd after) =
               Some (statusOf usdPerOunce usdToJod (snd before)) /\
             same_parameters (snd after) (snd before))
          (subscriptions s') (subscriptions s)) /\
     forall env' : Env num,
       fst (evaluateSubscriptions env' s) = Returned tt /\
       subscriptions (snd (evaluateSubscriptions env' s)) =
       subscriptions s').
Proof.
  split; [|split].
  - intros Hnone to payload breached. unfold sendAlertEmail.
    rewrite Hnone. reflexivity.
  - intros usdPerOunce usdToJod key subscription.
    destruct (evaluateEntry_spec env usdPerOunce usdToJod key subscription)
      as (evs & E & S).
    exists evs. eexists. split; [exact E|].
    split; [reflexivity|].
    split; [unfold same_parameters; now repeat split|].
    split.
    { exact (rejected_send_logged env usdPerOunce usdToJod key subscription
               evs S). }
    intros send Hsend Hrej D.
    destruct S as [(_ & A & _)|(N & _)]; [|contradiction].
    unfold alert_events in A. rewrite Hsend in A.
    destruct A as (m & Hto & _ & A).
    destruct (send m) as [error|] eqn:Em; [|now elim (Hrej m)].
    exists m, error. split; assumption.
  - destruct (cycle_total env s) as (s' & E & _ & _ & _ & R).
    exists s'. split; [exact E|]. split.
    { intros usdPerOunce usdToJod He Hp Hr. rewrite R, He, Hp, Hr.
      apply stamped_entries. }
    intros env'.
    destruct (cycle_total env' s) as (s'' & E' & _ & _ & _ & R').
    rewrite E'. cbn [fst snd]. split; [reflexivity|]. congruence.
Qed.

(** C5: a refresh never throws.  When both fetches succeed it stores both
    values and clears the error; when either fails it leaves both stored
    values as they were, stores the error (one of the failures) and logs
    it, after which the cycle skips.  The registry is untouched either
    way. *)
Theorem refreshReferencePrices_contained (gold fx : outcome JsError num)
    (secondFirst : bool) (s : Server num) :
  exists s' : Server num,
    refreshReferencePrices gold fx secondFirst s = (Returned tt, s') /\
    subscriptions s' = subscriptions s /\
    match gold, fx with
    | Returned usdPerOunce, Returned usdToJod =>
        latestUsdPricePerOunce s' = Some usdPerOunce /\
        latestUsdToJodRate s' = Some usdToJod /\
        latestFetchError s' = None
    | _, _ =>
        latestUsdPricePerOunce s' = latestUsdPricePerOunce s /\
        latestUsdToJodRate s' = latestUsdToJodRate s /\
        exists error : JsError,
          latestFetchError s' = Some error /\
          (gold = Thrown error \/ fx = Thrown error) /\
          effects s' =
            (effects s ++ [console_error "PRICE FETCH ERROR:" error])%list /\
          forall env : Env num,
            evaluateSubscriptions env s' = (Returned tt, s')
    end.
Proof.
  unfold refreshReferencePrices.
  destruct gold as [usdPerOunce|e1], fx as [usdToJod|e2];
    cbn [Promise_all]; eexists; (split; [reflexivity|]);
    (split; [reflexivity|]); cbn;
    try (now repeat split);
    (split; [reflexivity|]); (split; [reflexivity|]).
  - exists e2. repeat split; auto.
  - exists e1. repeat split; auto.
  - exists (if secondFirst then e2 else e1).
    repeat split; auto. destruct secondFirst; auto.
Qed.

Lemma forEntries_fixed
    (body : string -> Subscription num ->
            outcome JsError void * Subscription num * list (Event num))
    (entries : JsMap (Subscription num)) :
  Forall (fun e => body (fst e) (snd e) = (Returned tt, snd e, [])) entries ->
  forEntries body entries = (Returned tt, entries, []).
Proof.
  induction 1 as [|[key sub] rest Hhd _ IH]; [reflexivity|].
  cbn [forEntries]. cbn [fst snd] in Hhd. rewrite Hhd, IH. reflexivity.
Qed.

(** An entry whose stored status is the one the cycle computes is passed
    over: same object, no event. *)
Lemma evaluateEntry_settled (env : Env num) (usdPerOunce usdToJod : num)
    (key : string) (subscription : Subscription num) :
  lastStatus subscription = Some (statusOf usdPerOunce usdToJod subscription) ->
  evaluateEntry env usdPerOunce usdToJod key subscription =
    (Returned tt, subscription, []).
Proof.
  intro Hlast.
  destruct (evaluateEntry_spec env usdPerOunce usdToJod key subscription)
    as (evs & E & S).
  rewrite E. destruct S as [([_ D] & _)|(_ & ->)]; [congruence|].
  f_equal. f_equal. destruct subscription; cbn in *. now rewrite Hlast.
Qed.

(** X1: edge triggering.  A cycle that follows a cycle over the same
    reference data changes nothing and dispatches nothing, whatever the
    transport. *)
Theorem settled_cycle_is_silent (env env' : Env num) (s s1 : Server num)
    (usdPerOunce usdToJod : num) :
  latestFetchError s = None ->
  latestUsdPricePerOunce s = Some usdPerOunce ->
  latestUsdToJodRate s = Some usdToJod ->
  evaluateSubscriptions env s = (Returned tt, s1) ->
  evaluateSubscriptions env' s1 = (Returned tt, s1).
Proof.
  intros He Hp Hr E1.
  destruct (cycle_usable env s usdPerOunce usdToJod He Hp Hr) as (evs & E).
  rewrite E in E1. injection E1 as <-.
  unfold evaluateSubscriptions.
  cbn [emit with_subscriptions latestFetchError latestUsdPricePerOunce
       latestUsdToJodRate subscriptions].
  rewrite He, Hp, Hr.
  rewrite forEntries_fixed.
  - unfold emit, with_subscriptions.
    cbn [latestFetchError latestUsdPricePerOunce latestUsdToJodRate
         subscriptions effects].
    now rewrite app_nil_r.
  - unfold stamped. apply Forall_forall. intros e Hin.
    apply in_map_iff in Hin. destruct Hin as ([key sub] & <- & _).
    cbn [fst snd]. apply evaluateEntry_settled. reflexivity.
Qed.

End Cycle.

(* ------------------------------------------------------------------ *)
(** ** The registry as a Map *)

Section MapFacts.

Context {V : Type}.

Lemma map_get_set_same (k : string) (v : V) (m : JsMap V) :
  map_get k (map_set k v m) = Some v.
Proof.
  induction m as [|[k' v'] rest IH]; cbn [map_set map_get].
  - now rewrite String.eqb_refl.
  - destruct (String.eqb k' k) eqn:E; cbn [map_get].
    + now rewrite String.eqb_refl.
    + now rewrite E.
Qed.

Lemma map_get_set_other (k k' : string) (v : V) (m : JsMap V) :
  k' <> k -> map_get k' (map_set k v m) = map_get k' m.
Proof.
  intro N. induction m as [|[k0 v0] rest IH]; cbn [map_set map_get].
  - destruct (String.eqb k k') eqn:E; [|reflexivity].
    apply String.eqb_eq in E. congruence.
  - destruct (String.eqb k0 k) eqn:E; cbn [map_get].
    + apply String.eqb_eq in E. subst k0.
      destruct (String.eqb k k') eqn:E'; [|reflexivity].
      apply String.eqb_eq in E'. congruence.
    + destruct (String.eqb k0 k'); [reflexivity | exact IH].
Qed.

Lemma map_get_map (f : V -> V) (k : string) (m : JsMap V) :
  map_get k (map (fun e => (fst e, f (snd e))) m) =
  option_map f (map_get k m).
Proof.
  induction m as [|[k' v'] rest IH]; cbn [map map_get fst snd option_map].
  - reflexivity.
  - destruct (String.eqb k' k); [reflexivity | exact IH].
Qed.

End MapFacts.

(* ------------------------------------------------------------------ *)
(** ** The handlers *)

Section Handlers.

Context {num : Type} {JN : JsNumber num} {JL : JsNumberLaws num}.
Variable StringToNumber : string -> num.
Local Open Scope js_scope.

(** The threshold check both handlers make fails on a missing threshold,
    a threshold that is not a finite number, and [lower >= upper]. *)
Lemma thresholds_rejected (lower_threshold upper_threshold : jsval num) :
  lower_threshold = JUndefined \/ upper_threshold = JUndefined \/
  isFinite (Number StringToNumber lower_threshold) = false \/
  isFinite (Number StringToNumber upper_threshold) = false \/
  (Number StringToNumber lower_threshold >=?
   Number StringToNumber upper_threshold) = true ->
  negb (isFinite (Number StringToNumber lower_threshold))
  || negb (isFinite (Number StringToNumber upper_threshold))
  || (Number StringToNumber lower_threshold >=?
      Number StringToNumber upper_threshold) = true.
Proof.
  intros [H|[H|[H|[H|H]]]].
  - subst. cbn [Number]. now rewrite NaN_not_finite.
  - subst. cbn [Number]. rewrite NaN_not_finite. cbn.
    now rewrite orb_true_r.
  - now rewrite H.
  - rewrite H. cbn. now rewrite orb_true_r.
  - rewrite H. now rewrite orb_true_r.
Qed.

(** C10: an agent query whose thresholds are missing, not finite, or with
    [lower >= upper] is answered 400 with the validation error, whatever
    the state of the reference cache: the check comes before the
    availability check, so such a query never gets the 503. *)
Theorem getAgent_validates_first (env : Env num) (req : Request num)
    (s : Server num) :
  req_lower_threshold req = JUndefined \/
  req_upper_threshold req = JUndefined \/
  isFinite (Number StringToNumber (req_lower_threshold req)) = false \/
  isFinite (Number StringToNumber (req_upper_threshold req)) = false \/
  (Number StringToNumber (req_lower_threshold req) >=?
   Number StringToNumber (req_upper_threshold req)) = true ->
  getAgent StringToNumber env req s =
    {| status_code := 400;
       body := error_body "Thresholds must be numeric and lower < upper." |}
  /\ status_code (getAgent StringToNumber env req s) <> 503%nat.
Proof.
  intro H. apply thresholds_rejected in H.
  unfold getAgent. rewrite H. split; [reflexivity | discriminate].
Qed.

Lemma map_get_stamped (usdPerOunce usdToJod : num) (k : string)
    (m : JsMap (Subscription num)) :
  map_get k (stamped usdPerOunce usdToJod m) =
  option_map
    (fun sub => set_lastStatus sub (statusOf usdPerOunce usdToJod sub))
    (map_get k m).
Proof.
  exact (map_get_map
           (fun sub => set_lastStatus sub (statusOf usdPerOunce usdToJod sub))
           k m).
Qed.

Lemma strict_eq_string_spec (v : jsval num) (lit : string) :
  (strict_eq_string v lit = true /\ v = JString lit) \/
  (strict_eq_string v lit = false /\ v <> JString lit).
Proof.
  destruct v as [| |b|n|str|str];
    try (right; split; [reflexivity|discriminate]).
  cbn [strict_eq_string]. destruct (String.eqb str lit) eqn:E.
  - apply String.eqb_eq in E. subst. left. split; reflexivity.
  - apply String.eqb_neq in E. right. split; [reflexivity|congruence].
Qed.

(** C6: a registration whose e-mail is missing (or not a non-empty
    string) is answered 400.  When [Number] returns on both thresholds, a
    registration with a missing threshold, with a threshold whose number
    is not finite, or with [lower >= upper] is answered 400.  Either
    answer leaves the server state as it was.  When [Number] returns on
    the purity too, any other registration stores, under the e-mail, a
    subscription with unit gram or else ounce, currency JOD or else USD,
    the purity's number if that is 24, 22, 21 or 18 and else 24, the
    numbers of the two thresholds, and [lastStatus] unset; the other
    entries stay; the evaluation that follows at once keeps these
    parameters.  A handler that ends with an exception has stored
    nothing. *)
Theorem postMonitor_validation (env : Env num) (req : Posted num)
    (s : Server num) :
  (posted_email req = Plain JUndefined \/
   body_truthy (posted_email req) = false \/
   body_is_string (posted_email req) = false ->
   postMonitor StringToNumber env req s =
   (Returned {| status_code := 400;
                body := error_body "Valid email is required." |}, s)) /\
  (forall (e : string) (lower upper : num),
     posted_email req = Plain (JString e) -> e <> "" ->
     ToNumber StringToNumber (posted_lower_threshold req) = Returned lower ->
     ToNumber StringToNumber (posted_upper_threshold req) = Returned upper ->
     posted_lower_threshold req = Plain JUndefined \/
     posted_upper_threshold req = Plain JUndefined \/
     isFinite lower = false \/ isFinite upper = false \/
     (lower >=? upper) = true ->
     postMonitor StringToNumber env req s =
     (Returned {| status_code := 400;
                  body := error_body
                    "Thresholds must be numeric and lower < upper." |}, s)) /\
  (forall (e : string) (lower upper k : num),
     posted_email req = Plain (JString e) -> e <> "" ->
     ToNumber StringToNumber (posted_lower_threshold req) = Returned lower ->
     ToNumber StringToNumber (posted_upper_threshold req) = Returned upper ->
     ToNumber StringToNumber (posted_purity req) = Returned k ->
     isFinite lower = true -> isFinite upper = true ->
     (lower >=? upper) = false ->
     exists (stored : Subscription num) (s2 : Server num),
       email stored = e /\
       (unit stored = "gram" /\ posted_unit req = Plain (JString "gram") \/
        unit stored = "ounce" /\ posted_unit req <> Plain (JString "gram")) /\
       (currency stored = "JOD" /\
        posted_currency req = Plain (JString "JOD") \/
        currency stored = "USD" /\
        posted_currency req <> Plain (JString "JOD")) /\
       (purity stored = k /\
        (decimal 24 0 === k) || (decimal 22 0 === k)
        || (decimal 21 0 === k) || (decimal 18 0 === k) = true \/
        purity stored = decimal 24 0 /\
        (decimal 24 0 === k) || (decimal 22 0 === k)
        || (decimal 21 0 === k) || (decimal 18 0 === k) = false) /\
       lower_threshold stored = lower /\
       upper_threshold stored = upper /\
       lastStatus stored = None /\
       let s1 :=
         with_subscriptions s (map_set e stored (subscriptions s)) in
       map_get e (subscriptions s1) = Some stored /\
       (forall key, key <> e ->
          map_get key (subscriptions s1) = map_get key (subscriptions s)) /\
       evaluateSubscriptions env s1 = (Returned tt, s2) /\
       postMonitor StringToNumber env req s =
         (Returned {| status_code := 200; body := monitoring_body e |},
          s2) /\
       exists final : Subscription num,
         map_get e (subscriptions s2) = Some final /\
         same_parameters final stored) /\
  (forall error : JsError,
     fst (postMonitor StringToNumber env req s) = Thrown error ->
     snd (postMonitor StringToNumber env req s) = s /\
     (ToNumber StringToNumber (posted_lower_threshold req) = Thrown error \/
      ToNumber StringToNumber (posted_upper_threshold req) = Thrown error \/
      ToNumber StringToNumber (posted_purity req) = Thrown error)).
Proof.
  split; [|split; [|split]].
  - intro H. unfold postMonitor.
    assert (E : negb (body_truthy (posted_email req))
                || negb (body_is_string (posted_email req)) = true).
    { destruct H as [H|[H|H]]; rewrite H; cbn; auto using orb_true_r. }
    now rewrite E.
  - intros e lower upper He Hne El Eu H. unfold postMonitor.
    rewrite He, El, Eu. cbn [body_truthy body_is_string truthy is_string].
    apply String.eqb_neq in Hne. rewrite Hne. cbn [negb orb].
    assert (E : negb (isFinite lower) || negb (isFinite upper)
                || (lower >=? upper) = true).
    { destruct H as [H|[H|[H|[H|H]]]].
      - rewrite H in El. cbn in El. injection El as <-.
        now rewrite NaN_not_finite.
      - rewrite H in Eu. cbn in Eu. injection Eu as <-.
        rewrite NaN_not_finite. cbn. now rewrite orb_true_r.
      - now rewrite H.
      - rewrite H. cbn. now rewrite orb_true_r.
      - rewrite H. now rewrite orb_true_r. }
    now rewrite E.
  - intros e lower upper k He Hne El Eu Ek Hl Hu Hlu. unfold postMonitor.
    rewrite He, El, Eu, Ek.
    cbn [body_truthy body_is_string body_as_string truthy is_string
         as_string].
    apply String.eqb_neq in Hne. rewrite Hne. cbn [negb orb].
    rewrite Hl, Hu, Hlu. cbn [negb orb].
    match goal with
    | |- context [map_set e ?sub (subscriptions s)] => set (stored := sub)
    end.
    set (s1 := with_subscriptions s (map_set e stored (subscriptions s))).
    destruct (cycle_total env s1) as (s2 & E & _ & _ & _ & R).
    exists stored, s2.
    split; [reflexivity|].
    split.
    { cbn [unit stored].
      destruct (posted_unit req) as [v|];
        [|right; split; [reflexivity | discriminate]].
      cbn [body_strict_eq_string].
      destruct (strict_eq_string_spec v "gram")
        as [[-> Hv]|[-> Hv]]; [left | right]; split; congruence. }
    split.
    { cbn [currency stored].
      destruct (posted_currency req) as [v|];
        [|right; split; [reflexivity | discriminate]].
      cbn [body_strict_eq_string].
      destruct (strict_eq_string_spec v "JOD")
        as [[-> Hv]|[-> Hv]]; [left | right]; split; congruence. }
    split.
    { cbn [purity stored].
      change (has VALID_PURITY_LEVELS k)
        with ((decimal 24 0 === k)
              || ((decimal 22 0 === k)
                  || ((decimal 21 0 === k)
                      || ((decimal 18 0 === k) || false)))).
      rewrite orb_false_r, !orb_assoc.
      destruct ((decimal 24 0 === k) || (decimal 22 0 === k)
                || (decimal 21 0 === k) || (decimal 18 0 === k));
        [left | right]; split; reflexivity. }
    split; [reflexivity|]. split; [reflexivity|]. split; [reflexivity|].
    cbv zeta. fold s1.
    split; [apply map_get_set_same|].
    split; [intros key Hk; now apply map_get_set_other|].
    split; [exact E|].
    split; [rewrite E; reflexivity|].
    rewrite R.
    destruct (latestFetchError s1), (latestUsdPricePerOunce s1),
      (latestUsdToJodRate s1);
      try (exists stored; split;
           [apply map_get_set_same | now repeat split]).
    rewrite map_get_stamped.
    cbn [subscriptions s1 with_subscriptions].
    rewrite map_get_set_same. cbn [option_map].
    eexists. split; [reflexivity|]. now repeat split.
  - intros error. unfold postMonitor.
    destruct (negb (body_truthy (posted_email req))
              || negb (body_is_string (posted_email req)));
      [discriminate|].
    destruct (ToNumber StringToNumber (posted_lower_threshold req))
      as [lower|e1]; [|cbn; intros [= ->]; auto].
    destruct (ToNumber StringToNumber (posted_upper_threshold req))
      as [upper|e2]; [|cbn; intros [= ->]; auto].
    destruct (negb (isFinite lower) || negb (isFinite upper)
              || (lower >=? upper)); [discriminate|].
    destruct (ToNumber StringToNumber (posted_purity req))
      as [k|e3]; [|cbn; intros [= ->]; auto].
    match goal with
    | |- context [evaluateSubscriptions env ?s1] =>
        destruct (cycle_total env s1) as (s2 & E & _)
    end.
    rewrite E. discriminate.
Qed.

End Handlers.

(* ------------------------------------------------------------------ *)
(** ** The statements at the sample data *)

(** The cycle over the fresh subscription of [Demo.server_ready]. *)
Lemma evaluateSubscriptions_alerts_witness :
  exists (s' : Server float) (per : list (list (Event float))),
    evaluateSubscriptions Demo.env_unconfigured Demo.server_ready =
      (Returned tt, s') /\
    effects s' = (effects Demo.server_ready ++ List.concat per)%list /\
    Forall2
      (fun after before =>
         fst after = fst before /\
         lastStatus (snd after) =
           Some (statusOf 2200%float 0.71%float (snd before)) /\
         same_parameters (snd after) (snd before))
      (subscriptions s') (subscriptions Demo.server_ready) /\
    Forall2
      (fun entry evs =>
         entry_spec Demo.env_unconfigured 2200%float 0.71%float
           (fst entry) (snd entry) evs /\
         (lastStatus (snd entry) = None ->
          statusOf 2200%float 0.71%float (snd entry) <> within_range ->
          alerts evs = 1%nat))
      (subscriptions Demo.server_ready) per.
Proof.
  apply (evaluateSubscriptions_alerts Demo.env_unconfigured Demo.server_ready
           2200%float 0.71%float); reflexivity.
Defined.

(** The cycle over the errored cache of [Demo.server_errored]. *)
Lemma evaluateSubscriptions_skips_witness :
  evaluateSubscriptions Demo.env_accepting Demo.server_errored =
    (Returned tt, Demo.server_errored) /\
  subscriptions
    (snd (evaluateSubscriptions Demo.env_accepting Demo.server_errored)) =
    subscriptions Demo.server_errored /\
  effects
    (snd (evaluateSubscriptions Demo.env_accepting Demo.server_errored)) =
    effects Demo.server_errored.
Proof.
  apply (evaluateSubscriptions_skips Demo.env_accepting Demo.server_errored).
  left. discriminate.
Defined.

(** The cycle over [Demo.server_ready] with a transport that rejects
    every message: it ends normally and the status is stored. *)
Lemma dispatch_failure_contained_witness :
  exists s' : Server float,
    evaluateSubscriptions Demo.env_rejecting Demo.server_ready =
      (Returned tt, s') /\
    Forall2
      (fun after before =>
         fst after = fst before /\
         lastStatus (snd after) =
           Some (statusOf 2200%float 0.71%float (snd before)) /\
         same_parameters (snd after) (snd before))
      (subscriptions s') (subscriptions Demo.server_ready).
Proof.
  destruct (dispatch_failure_contained Demo.env_rejecting Demo.server_ready)
    as (_ & _ & s' & E & H & _).
  exists s'. split; [exact E|]. apply H; reflexivity.
Defined.

(** The registration of [Sample.request_b]: grams, JOD and 22 carat are
    kept, and the thresholds 30 and 40 stored. *)
Lemma postMonitor_validation_witness :
  exists (stored : Subscription float) (s2 : Server float),
    postMonitor Demo.no_strings Demo.env_accepting Sample.request_b
      Demo.server_ready =
      (Returned {| status_code := 200; body := monitoring_body "b@x.com" |},
       s2) /\
    email stored = "b@x.com" /\ unit stored = "gram" /\
    currency stored = "JOD" /\ purity stored = 22%float /\
    lower_threshold stored = 30%float /\
    upper_threshold stored = 40%float /\ lastStatus stored = None /\
    exists final : Subscription float,
      map_get "b@x.com" (subscriptions s2) = Some final /\
      same_parameters final stored.
Proof.
  destruct (postMonitor_validation Demo.no_strings Demo.env_accepting
              Sample.request_b Demo.server_ready) as (_ & _ & H & _).
  destruct (H "b@x.com" 30%float 40%float 22%float)
    as (stored & s2 & He & Hu & Hc & Hp & Hl & Hup & Hls & _ & _ & _ & E & F);
    try reflexivity; try discriminate.
  exists stored, s2. split; [exact E|]. split; [exact He|].
  split; [destruct Hu as [[Hu _]|[_ Hu]]; [exact Hu|]; now elim Hu|].
  split; [destruct Hc as [[Hc _]|[_ Hc]]; [exact Hc|]; now elim Hc|].
  split; [destruct Hp as [[Hp _]|[_ Hp]]; [exact Hp|]; discriminate Hp|].
  repeat split; assumption.
Defined.

(** The claim as stated fails twice.  The thresholds [null] and [true]
    are not numbers, yet the registration is accepted with the band 0..1.
    A purity that cannot be converted is not replaced by 24: the handler
    ends with the exception and stores nothing. *)
Lemma postMonitor_coercion_counterexample :
  (exists s2 : Server float,
     postMonitor Demo.no_strings Demo.env_accepting Sample.request_coerced
       Demo.server_empty =
       (Returned {| status_code := 200;
                    body := monitoring_body "c@x.com" |}, s2) /\
     option_map (fun sub => (lower_threshold sub, upper_threshold sub))
       (map_get "c@x.com" (subscriptions s2)) =
     Some (0%float, 1%float)) /\
  postMonitor Demo.no_strings Demo.env_accepting Sample.body_unconvertible
    Demo.server_empty =
  (Thrown "Cannot convert object to primitive value", Demo.server_empty).
Proof.
  split; [|reflexivity].
  eexists. split; vm_compute; reflexivity.
Qed.

(** An agent query without thresholds while the cache is errored. *)
Lemma getAgent_validates_first_witness :
  getAgent Demo.no_strings Demo.env_unconfigured Demo.request_empty
    Demo.server_errored =
    {| status_code := 400;
       body := error_body "Thresholds must be numeric and lower < upper." |}
  /\ status_code
       (getAgent Demo.no_strings Demo.env_unconfigured Demo.request_empty
          Demo.server_errored) <> 503%nat.
Proof.
  apply (getAgent_validates_first Demo.no_strings Demo.env_unconfigured
           Demo.request_empty Demo.server_errored).
  left. reflexivity.
Defined.

(** Registering 1900..2100 while the cached price is 2200 alerts at once,
    "above upper threshold", and leaves [above_range] stored. *)
Example registration_alerts_at_once :
  let '(r, s) :=
    postMonitor Demo.no_strings Demo.env_accepting Demo.request_a
      Demo.server_empty in
  r = Returned {| status_code := 200; body := monitoring_body "a@x.com" |} /\
  option_map (@lastStatus float) (map_get "a@x.com" (subscriptions s)) =
    Some (Some above_range) /\
  map (fun e => match e with
                | sendMail_resolved m => (to m, subject m)
                | _ => ("", "")
                end) (effects s) =
    [("a@x.com", "Gold price alert: above upper threshold")].
Proof.
  vm_compute. repeat split; reflexivity.
Qed.

(** The second of two cycles over [Demo.server_ready]. *)
Lemma settled_cycle_is_silent_witness :
  evaluateSubscriptions Demo.env_rejecting
    (snd (evaluateSubscriptions Demo.env_accepting Demo.server_ready)) =
  (Returned tt,
   snd (evaluateSubscriptions Demo.env_accepting Demo.server_ready)).
Proof.
  apply (settled_cycle_is_silent Demo.env_accepting Demo.env_rejecting
           Demo.server_ready
           (snd (evaluateSubscriptions Demo.env_accepting Demo.server_ready))
           2200%float 0.71%float); reflexivity.
Defined.

(** The price goes 2000, 1800, 2000, 1800 against the band 1900..2100
    (within, below, within, below): the four cycles dispatch 0, 1, 0 and 1
    alerts, each of the two "below lower threshold". *)
Example trajectory_two_alerts :
  let s0 := Demo.server_empty in
  let s0 :=
    snd (postMonitor Demo.no_strings Demo.env_accepting Demo.request_a
           (snd (refreshReferencePrices (Returned 2000%float)
                   (Returned 0.71%float) false s0))) in
  let s1 := Demo.tick 2000%float s0 in
  let s2 := Demo.tick 1800%float s1 in
  let s3 := Demo.tick 2000%float s2 in
  let s4 := Demo.tick 1800%float s3 in
  map (fun s => alerts (effects s)) [s0; s1; s2; s3; s4] =
    [0; 0; 1; 1; 2]%nat /\
  flat_map (fun e => match e with
                     | sendMail_resolved m => [subject m]
                     | _ => []
                     end) (effects s4) =
    ["Gold price alert: below lower threshold";
     "Gold price alert: below lower threshold"].
Proof.
  vm_compute. split; reflexivity.
Qed.

(** At binary64, base price 2000 and rate 0.71: for every unit and
    currency the price rises strictly with the purity 18 < 21 < 22 < 24,
    and for every currency and purity the price per gram is strictly below
    the price per ounce. *)
Example convertPrice_binary64_sample :
  forallb (fun unit =>
    forallb (fun currency =>
      let at_purity k :=
        convertPrice 2000%float unit currency 0.71%float (Some k) in
      nlt (at_purity 18%float) (at_purity 21%float)
      && nlt (at_purity 21%float) (at_purity 22%float)
      && nlt (at_purity 22%float) (at_purity 24%float))
      ["USD"; "JOD"])
    ["ounce"; "gram"]
  && forallb (fun currency =>
       forallb (fun k =>
         nlt (convertPrice 2000%float "gram" currency 0.71%float (Some k))
             (convertPrice 2000%float "ounce" currency 0.71%float (Some k)))
         VALID_PURITY_LEVELS)
       ["USD"; "JOD"]
  = true.
Proof.
  vm_compute. reflexivity.
Qed.

(* ------------------------------------------------------------------ *)
(** ** What a cycle leaves alone, and what it may send *)

Section CycleFrame.

Context {num : Type} {JN : JsNumber num}.

Lemma alerts_app (a b : list (Event num)) :
  alerts (a ++ b) = (alerts a + alerts b)%nat.
Proof.
  unfold alerts. rewrite filter_app. apply length_app.
Qed.

Lemma mails_app (a b : list (Event num)) :
  mails (a ++ b) = (mails a ++ mails b)%list.
Proof.
  unfold mails. apply flat_map_app.
Qed.

Lemma stamped_keys (usdPerOunce usdToJod : num)
    (m : JsMap (Subscription num)) :
  map fst (stamped usdPerOunce usdToJod m) = map fst m.
Proof.
  unfold stamped. rewrite map_map. reflexivity.
Qed.

Lemma stamped_parameters (usdPerOunce usdToJod : num)
    (m : JsMap (Subscription num)) :
  Forall2 (fun after before =>
             fst after = fst before /\
             same_parameters (snd after) (snd before))
          (stamped usdPerOunce usdToJod m) m.
Proof.
  induction m as [|[key sub] rest IH]; constructor; [|exact IH].
  cbn. unfold same_parameters. now repeat split.
Qed.

Lemma Forall2_same_parameters_refl (m : JsMap (Subscription num)) :
  Forall2 (fun after before =>
             fst after = fst before /\
             same_parameters (snd after) (snd before)) m m.
Proof.
  induction m as [|e rest IH]; constructor; [|exact IH].
  unfold same_parameters. now repeat split.
Qed.

(** X2: a cycle never adds, removes or reorders a subscription, never
    changes a parameter of one (only [lastStatus]), never touches the
    cached reference data, and only appends to the log; it always ends
    normally. *)
Theorem cycle_frame (env : Env num) (s : Server num) :
  exists (s' : Server num) (evs : list (Event num)),
    evaluateSubscriptions env s = (Returned tt, s') /\
    map fst (subscriptions s') = map fst (subscriptions s) /\
    Forall2 (fun after before =>
               fst after = fst before /\
               same_parameters (snd after) (snd before))
            (subscriptions s') (subscriptions s) /\
    latestUsdPricePerOunce s' = latestUsdPricePerOunce s /\
    latestUsdToJodRate s' = latestUsdToJodRate s /\
    latestFetchError s' = latestFetchError s /\
    effects s' = (effects s ++ evs)%list.
Proof.
  destruct (latestFetchError s) as [error|] eqn:He.
  { exists s, []. rewrite cycle_skipped by (left; congruence).
    rewrite app_nil_r.
    repeat split; auto using Forall2_same_parameters_refl. }
  destruct (latestUsdPricePerOunce s) as [usdPerOunce|] eqn:Hp.
  2:{ exists s, []. rewrite cycle_skipped by (right; left; congruence).
      rewrite app_nil_r.
      repeat split; auto using Forall2_same_parameters_refl. }
  destruct (latestUsdToJodRate s) as [usdToJod|] eqn:Hr.
  2:{ exists s, []. rewrite cycle_skipped by (right; right; congruence).
      rewrite app_nil_r.
      repeat split; auto using Forall2_same_parameters_refl. }
  destruct (cycle_usable env s usdPerOunce usdToJod He Hp Hr) as (evs & E).
  eexists. exists evs. split; [exact E|]. cbn.
  split; [apply stamped_keys|]. split; [apply stamped_parameters|].
  now repeat split.
Qed.

End CycleFrame.

Section CycleMail.

Context {num : Type} {JN : JsNumber num}.

Lemma getEmailFrom_not_empty (env : Env num) : getEmailFrom env <> "".
Proof.
  unfold getEmailFrom. destruct (SMTP_FROM env) as [from|]; [|discriminate].
  destruct (String.eqb from "") eqn:E; [discriminate|].
  now apply String.eqb_neq.
Qed.

Lemma evaluateEntry_mail (env : Env num) (usdPerOunce usdToJod : num)
    (key : string) (subscription : Subscription num) :
  exists evs : list (Event num),
    evaluateEntry env usdPerOunce usdToJod key subscription =
      (Returned tt,
       set_lastStatus subscription
         (statusOf usdPerOunce usdToJod subscription),
       evs) /\
    entry_mail env key evs.
Proof.
  unfold evaluateEntry, entry_mail, alert_subject.
  fold (statusOf usdPerOunce usdToJod subscription).
  set (status := statusOf usdPerOunce usdToJod subscription).
  clearbody status. cbv zeta.
  destruct (Status_eqb status within_range).
  { exists []. split; [reflexivity|].
    split; [cbn; lia|]. split; [reflexivity|]. intros m []. }
  destruct (differs (lastStatus subscription) status); cbn [andb negb].
  2:{ exists []. split; [reflexivity|].
      split; [cbn; lia|]. split; [reflexivity|]. intros m []. }
  unfold sendAlertEmail.
  destruct (getEmailTransporter env) as [send|].
  - match goal with |- context [send ?m] => set (mail := m) end.
    destruct (send mail) as [error|]; eexists; (split; [reflexivity|]);
      (split; [cbn; lia|]); (split; [discriminate|]);
      intros m [<-|[]]; cbn; (split; [reflexivity|]);
      (split; [reflexivity|]); destruct (Status_eqb status below_range);
      auto.
  - eexists. split; [reflexivity|].
    split; [cbn; lia|]. split; [reflexivity|]. intros m [].
Qed.

Lemma concat_entry_mail (env : Env num)
    (entries : JsMap (Subscription num)) (per : list (list (Event num))) :
  Forall2 (fun e evs => entry_mail env (fst e) evs) entries per ->
  (alerts (List.concat per) <= List.length entries)%nat /\
  (getEmailTransporter env = None -> mails (List.concat per) = []) /\
  forall m, In m (mails (List.concat per)) ->
    In (to m) (map fst entries) /\ from m = getEmailFrom env /\
    alert_subject (subject m).
Proof.
  induction 1 as [|e evs entries per (Ha & Hn & Hm) _ (IHa & IHn & IHm)].
  - split; [cbn; lia|]. split; [reflexivity|]. intros m [].
  - cbn [List.concat List.length map]. rewrite alerts_app, mails_app.
    split; [lia|]. split.
    + intro N. now rewrite (Hn N), (IHn N).
    + intros m Hin. apply in_app_or in Hin. destruct Hin as [Hin|Hin].
      * destruct (Hm m Hin) as (Hto & Hfrom & Hsub).
        split; [left; now rewrite Hto | split; assumption].
      * destruct (IHm m Hin) as (Hto & Hfrom & Hsub).
        split; [right; exact Hto | split; assumption].
Qed.

Lemma mails_le_alerts (evs : list (Event num)) :
  (List.length (mails evs) <= alerts evs)%nat.
Proof.
  unfold mails, alerts.
  induction evs as [|e rest IH]; [cbn; lia|].
  destruct e; cbn [flat_map filter is_alert]; rewrite ?length_app;
    cbn [List.length]; lia.
Qed.

Lemma mails_to_app (address : string) (a b : list (Event num)) :
  mails_to address (a ++ b) =
  (mails_to address a ++ mails_to address b)%list.
Proof.
  unfold mails_to. now rewrite mails_app, filter_app.
Qed.

(** An entry whose key is not [address] sends nothing to [address]. *)
Lemma entry_mail_elsewhere (env : Env num) (key address : string)
    (evs : list (Event num)) :
  entry_mail env key evs -> key <> address -> mails_to address evs = [].
Proof.
  intros (_ & _ & Hm) Hne. unfold mails_to.
  induction (mails evs) as [|m rest IH]; [reflexivity|].
  cbn [filter].
  destruct (Hm m (or_introl eq_refl)) as (Hto & _).
  destruct (String.eqb (to m) address) eqn:E.
  - apply String.eqb_eq in E. congruence.
  - apply IH. intros m' Hin. apply Hm. now right.
Qed.

Lemma concat_entry_count (env : Env num)
    (entries : JsMap (Subscription num)) (per : list (list (Event num)))
    (address : string) :
  Forall2 (fun e evs => entry_mail env (fst e) evs) entries per ->
  (List.length (mails_to address (List.concat per)) <=
   List.length
     (filter (fun entry => String.eqb (fst entry) address) entries))%nat.
Proof.
  induction 1 as [|e evs entries per He _ IH].
  - cbn. lia.
  - cbn [List.concat filter]. rewrite mails_to_app, length_app.
    destruct (String.eqb (fst e) address) eqn:E.
    + cbn [List.length].
      assert (List.length (mails_to address evs) <= 1)%nat; [|lia].
      destruct He as (Ha & _).
      pose proof (mails_le_alerts evs) as Hm.
      pose proof (filter_length_le
                    (fun m => String.eqb (to m) address) (mails evs)) as Hf.
      unfold mails_to. lia.
    + apply String.eqb_neq in E.
      rewrite (entry_mail_elsewhere env (fst e) address evs He E).
      cbn [List.length]. lia.
Qed.

(** In a registry with one entry per key, at most one entry has the
    key [address]. *)
Lemma one_entry_per_key {V : Type} (address : string) (m : JsMap V) :
  NoDup (map fst m) ->
  (List.length (filter (fun entry => String.eqb (fst entry) address) m)
   <= 1)%nat.
Proof.
  induction m as [|[k v] rest IH]; [cbn; lia|]. cbn [map fst filter].
  intro H. inversion H as [|? ? Hnotin Hrest]; subst.
  destruct (String.eqb k address) eqn:E; [|now apply IH].
  apply String.eqb_eq in E. subst k. cbn [List.length].
  assert (filter (fun entry : string * V => String.eqb (fst entry) address)
            rest = []) as ->; [|cbn; lia].
  clear IH H Hrest. induction rest as [|[k' v'] rest IH]; [reflexivity|].
  cbn [filter fst]. cbn [map fst In] in Hnotin.
  destruct (String.eqb k' address) eqn:E'.
  - apply String.eqb_eq in E'. tauto.
  - apply IH. tauto.
Qed.

(** X3: the messages of a cycle.  Whatever the state and the transport, a
    cycle dispatches at most as many alerts as there are subscriptions
    and hands the transport, for each address, at most as many messages
    as there are subscriptions under that address: at most one, the keys
    being distinct.  Each message goes to the key of a subscription of the
    registry, comes from [SMTP_FROM] when that is set and from
    alerts@aurum.local when it is not, and carries one of the two alert
    subjects.  When [SMTP_HOST], [SMTP_USER] or [SMTP_PASS] is not set, no
    message is handed over at all. *)
Theorem cycle_mail_safety (env : Env num) (s : Server num) :
  exists (s' : Server num) (evs : list (Event num)),
    evaluateSubscriptions env s = (Returned tt, s') /\
    effects s' = (effects s ++ evs)%list /\
    (alerts evs <= List.length (subscriptions s))%nat /\
    (forall address : string,
       (List.length (mails_to address evs) <=
        List.length
          (filter (fun entry => String.eqb (fst entry) address)
             (subscriptions s)))%nat /\
       (NoDup (map fst (subscriptions s)) ->
        (List.length (mails_to address evs) <= 1)%nat)) /\
    (unset (SMTP_HOST env) || unset (SMTP_USER env)
     || unset (SMTP_PASS env) = true ->
     mails evs = []) /\
    forall m, In m (mails evs) ->
      In (to m) (map fst (subscriptions s)) /\
      (forall sender : string,
         SMTP_FROM env = Some sender -> sender <> "" -> from m = sender) /\
      (unset (SMTP_FROM env) = true -> from m = "alerts@aurum.local") /\
      from m <> "" /\
      alert_subject (subject m).
Proof.
  assert (Hcount : forall (per : list (list (Event num))) address,
            Forall2 (fun e evs => entry_mail env (fst e) evs)
              (subscriptions s) per ->
            (List.length (mails_to address (List.concat per)) <=
             List.length
               (filter (fun entry => String.eqb (fst entry) address)
                  (subscriptions s)))%nat /\
            (NoDup (map fst (subscriptions s)) ->
             (List.length (mails_to address (List.concat per)) <= 1)%nat)).
  { intros per address HF.
    pose proof (concat_entry_count env _ per address HF) as Hc.
    split; [exact Hc|]. intro Hk.
    pose proof (one_entry_per_key address (subscriptions s) Hk). lia. }
  assert (Hnone : unset (SMTP_HOST env) || unset (SMTP_USER env)
                  || unset (SMTP_PASS env) = true ->
                  getEmailTransporter env = None).
  { intro H. unfold getEmailTransporter. now rewrite H. }
  assert (Hfrom : forall m : Mail num,
            from m = getEmailFrom env ->
            (forall sender : string,
               SMTP_FROM env = Some sender -> sender <> "" ->
               from m = sender) /\
            (unset (SMTP_FROM env) = true ->
             from m = "alerts@aurum.local") /\
            from m <> "").
  { intros m ->. split; [|split].
    - intros sender E Hne. unfold getEmailFrom. rewrite E.
      apply String.eqb_neq in Hne. now rewrite Hne.
    - unfold getEmailFrom, unset.
      destruct (SMTP_FROM env) as [sender|]; [|reflexivity].
      now intros ->.
    - apply getEmailFrom_not_empty. }
  destruct (latestFetchError s) as [error|] eqn:He;
    [|destruct (latestUsdPricePerOunce s) as [usdPerOunce|] eqn:Hp;
      [destruct (latestUsdToJodRate s) as [usdToJod|] eqn:Hr|]].
  2:{ destruct (forEntries_spec
                  (evaluateEntry env usdPerOunce usdToJod)
                  (fun sub =>
                     set_lastStatus sub (statusOf usdPerOunce usdToJod sub))
                  (fun key _ evs => entry_mail env key evs)
                  (evaluateEntry_mail env usdPerOunce usdToJod)
                  (subscriptions s)) as (per & E & HF).
      destruct (concat_entry_mail env (subscriptions s) per HF)
        as (Ha & Hn & Hm).
      eexists. exists (List.concat per). split.
      { unfold evaluateSubscriptions. rewrite He, Hp, Hr, E. reflexivity. }
      cbn [effects emit with_subscriptions].
      split; [reflexivity|]. split; [exact Ha|].
      split; [intro address; now apply Hcount|].
      split; [intro H; apply Hn; now apply Hnone|].
      intros m Hin. destruct (Hm m Hin) as (Hto & Hf & Hsub).
      destruct (Hfrom m Hf) as (H1 & H2 & H3). repeat split; assumption. }
  all: exists s, []; rewrite app_nil_r;
    (split; [apply cycle_skipped; rewrite ?He, ?Hp, ?Hr;
             first [left; discriminate | right; left; reflexivity
                   | right; right; reflexivity]|]);
    (split; [reflexivity|]); (split; [cbn; lia|]);
    (split; [intro address; split; [cbn; lia | intros _; cbn; lia]|]);
    (split; [reflexivity|]); intros m [].
Qed.

End CycleMail.

(* ------------------------------------------------------------------ *)
(** ** Registration and the registry *)

Section MapKeys.

Context {V : Type}.

Lemma map_get_none (k : string) (m : JsMap V) :
  map_get k m = None <-> ~ In k (map fst m).
Proof.
  induction m as [|[k' v'] rest IH]; cbn [map_get map fst In].
  - tauto.
  - destruct (String.eqb k' k) eqn:E.
    + apply String.eqb_eq in E. split; [discriminate | tauto].
    + apply String.eqb_neq in E. rewrite IH. tauto.
Qed.

Lemma map_set_keys (k : string) (v : V) (m : JsMap V) :
  map fst (map_set k v m) =
  match map_get k m with
  | Some _ => map fst m
  | None => (map fst m ++ [k])%list
  end.
Proof.
  induction m as [|[k' v'] rest IH]; cbn [map_set map_get map fst app].
  - reflexivity.
  - destruct (String.eqb k' k) eqn:E; cbn [map fst].
    + apply String.eqb_eq in E. now subst.
    + rewrite IH. destruct (map_get k rest); reflexivity.
Qed.

Lemma map_set_NoDup (k : string) (v : V) (m : JsMap V) :
  NoDup (map fst m) -> NoDup (map fst (map_set k v m)).
Proof.
  intro H. rewrite map_set_keys.
  destruct (map_get k m) eqn:E; [exact H|].
  apply map_get_none in E.
  apply NoDup_app; [exact H | repeat constructor; intros [] | ].
  intros x Hx [<-|[]]. contradiction.
Qed.

Lemma map_set_Forall (P : string * V -> Prop) (k : string) (v : V)
    (m : JsMap V) :
  P (k, v) -> Forall P m -> Forall P (map_set k v m).
Proof.
  intros Hv. induction 1 as [|[k' v'] rest Hhd Hrest IH]; cbn [map_set].
  - repeat constructor. exact Hv.
  - destruct (String.eqb k' k); constructor; assumption.
Qed.

Lemma map_set_In (k : string) (v : V) (m : JsMap V) :
  In (k, v) (map_set k v m).
Proof.
  induction m as [|[k' v'] rest IH]; cbn [map_set].
  - now left.
  - destruct (String.eqb k' k); [now left | now right].
Qed.

(** In a registry with one entry per key, [set] leaves no other entry
    under the key. *)
Lemma map_set_split (k : string) (v : V) (m : JsMap V) :
  NoDup (map fst m) ->
  exists pre post : JsMap V,
    map_set k v m = (pre ++ (k, v) :: post)%list /\
    ~ In k (map fst pre) /\ ~ In k (map fst post).
Proof.
  induction m as [|[k' v'] rest IH]; cbn [map_set map fst]; intro H.
  - exists [], []. split; [reflexivity|]. split; intros [].
  - inversion H as [|? ? Hnotin Hrest]; subst.
    destruct (String.eqb k' k) eqn:E.
    + apply String.eqb_eq in E. subst k'.
      exists [], rest. split; [reflexivity|]. split; [intros [] | exact Hnotin].
    + apply String.eqb_neq in E.
      destruct (IH Hrest) as (pre & post & -> & Hpre & Hpost).
      exists ((k', v') :: pre), post. split; [reflexivity|].
      split; [|exact Hpost]. cbn [map fst In]. tauto.
Qed.

End MapKeys.

Section Registration.

Context {num : Type} {JN : JsNumber num}.
Variable StringToNumber : string -> num.

(** The two ways [POST /api/monitor] ends. *)
Lemma postMonitor_cases (env : Env num) (req : Request num)
    (s : Server num) :
  (accepted StringToNumber req = false /\
   exists msg : string,
     postMonitor StringToNumber env req s =
     (Returned {| status_code := 400; body := error_body msg |}, s)) \/
  (accepted StringToNumber req = true /\
   exists (e : string) (s2 : Server num),
     req_email req = JString e /\ e <> "" /\
     evaluateSubscriptions env
       (with_subscriptions s
          (map_set e (registered StringToNumber req) (subscriptions s)))
     = (Returned tt, s2) /\
     postMonitor StringToNumber env req s =
     (Returned {| status_code := 200; body := monitoring_body e |}, s2)).
Proof.
  unfold postMonitor, accepted, posted.
  cbn [posted_email posted_unit posted_currency posted_lower_threshold
       posted_upper_threshold posted_purity body_truthy body_is_string
       body_strict_eq_string body_as_string ToNumber].
  destruct (truthy (req_email req)) eqn:Et; cbn [negb orb andb].
  2:{ left. split; [reflexivity|]. eexists. reflexivity. }
  destruct (is_string (req_email req)) eqn:Es; cbn [negb orb andb].
  2:{ left. split; [reflexivity|]. eexists. reflexivity. }
  destruct (isFinite (Number StringToNumber (req_lower_threshold req)));
    cbn [negb orb andb].
  2:{ left. split; [reflexivity|]. eexists. reflexivity. }
  destruct (isFinite (Number StringToNumber (req_upper_threshold req)));
    cbn [negb orb andb].
  2:{ left. split; [reflexivity|]. eexists. reflexivity. }
  destruct (nle (Number StringToNumber (req_upper_threshold req))
                (Number StringToNumber (req_lower_threshold req)));
    cbn [negb].
  { left. split; [reflexivity|]. eexists. reflexivity. }
  right. split; [reflexivity|].
  destruct (req_email req) as [| |b|n|e|o] eqn:Ee; try discriminate Es.
  cbn [truthy] in Et. apply negb_true_iff, String.eqb_neq in Et.
  cbn [as_string].
  match goal with
  | |- context [evaluateSubscriptions env ?s1] =>
      destruct (cycle_total env s1) as (s2 & E & _)
  end.
  exists e, s2. split; [reflexivity|]. split; [exact Et|].
  unfold registered. rewrite Ee. cbn [as_string].
  split; [exact E|]. rewrite E. reflexivity.
Qed.

(** A body either leaves the state as it was (a 400, or an exception) or
    goes through the handler as a body of plain fields does. *)
Lemma postMonitor_posted (env : Env num) (body : Posted num)
    (s : Server num) :
  snd (postMonitor StringToNumber env body s) = s \/
  exists req : Request num,
    accepted StringToNumber req = true /\
    postMonitor StringToNumber env body s =
    postMonitor StringToNumber env req s.
Proof.
  destruct body as [email unit currency lower upper purity].
  unfold postMonitor.
  cbn [posted_email posted_unit posted_currency posted_lower_threshold
       posted_upper_threshold posted_purity].
  destruct (negb (body_truthy email) || negb (body_is_string email))
    eqn:Ee; [left; reflexivity|].
  destruct email as [email|]; [|discriminate Ee].
  destruct lower as [lower|]; [|left; reflexivity].
  destruct upper as [upper|]; [|left; reflexivity].
  cbn [ToNumber].
  destruct (negb (isFinite (Number StringToNumber lower))
            || negb (isFinite (Number StringToNumber upper))
            || nle (Number StringToNumber upper)
                 (Number StringToNumber lower))
    eqn:Ec; [left; reflexivity|].
  destruct purity as [purity|]; [|left; reflexivity].
  right.
  exists {| req_email := email;
            req_unit := match unit with
                        | Plain v => v
                        | Unconvertible => JUndefined
                        end;
            req_currency := match currency with
                            | Plain v => v
                            | Unconvertible => JUndefined
                            end;
            req_lower_threshold := lower;
            req_upper_threshold := upper;
            req_purity := purity |}.
  cbn [body_truthy body_is_string] in Ee.
  apply orb_false_elim in Ee. destruct Ee as [Et Es].
  apply negb_false_iff in Et, Es.
  apply orb_false_elim in Ec. destruct Ec as [Ec Hlu].
  apply orb_false_elim in Ec. destruct Ec as [Hl Hu].
  apply negb_false_iff in Hl, Hu.
  split.
  - unfold accepted.
    cbn [req_email req_lower_threshold req_upper_threshold].
    now rewrite Et, Es, Hl, Hu, Hlu.
  - unfold posted.
    cbn [req_email req_unit req_currency req_lower_threshold
         req_upper_threshold req_purity posted_email posted_unit
         posted_currency posted_lower_threshold posted_upper_threshold
         posted_purity body_truthy body_is_string ToNumber].
    rewrite Et, Es, Hl, Hu, Hlu. cbn [negb orb].
    destruct unit, currency; reflexivity.
Qed.

Lemma registered_well_formed (req : Request num) (e : string) :
  accepted StringToNumber req = true ->
  req_email req = JString e -> e <> "" ->
  well_formed e (registered StringToNumber req).
Proof.
  unfold accepted. intros Ha Ee Hne.
  apply andb_true_iff in Ha. destruct Ha as [Ha Hlu].
  apply andb_true_iff in Ha. destruct Ha as [Ha Hu].
  apply andb_true_iff in Ha. destruct Ha as [_ Hl].
  apply negb_true_iff in Hlu.
  unfold well_formed, registered, valid_purity.
  cbn [email unit currency purity lower_threshold upper_threshold].
  rewrite Ee. cbn [as_string].
  repeat split; auto.
  - destruct (strict_eq_string (req_unit req) "gram"); auto.
  - destruct (strict_eq_string (req_currency req) "JOD"); auto.
  - destruct (has VALID_PURITY_LEVELS
                (Number StringToNumber (req_purity req))) eqn:E; auto.
    right. cbn [has VALID_PURITY_LEVELS existsb] in E.
    now rewrite orb_false_r, !orb_assoc in E.
Qed.

Lemma stamped_well_formed (usdPerOunce usdToJod : num)
    (m : JsMap (Subscription num)) :
  well_formed_registry m ->
  well_formed_registry (stamped usdPerOunce usdToJod m).
Proof.
  intros [Hk Hw]. split; [now rewrite stamped_keys|].
  unfold stamped. apply Forall_forall. intros entry Hin.
  apply in_map_iff in Hin. destruct Hin as (before & <- & Hin).
  rewrite Forall_forall in Hw. exact (Hw before Hin).
Qed.

Lemma cycle_well_formed (env : Env num) (s : Server num) :
  well_formed_registry (subscriptions s) ->
  well_formed_registry (subscriptions (snd (evaluateSubscriptions env s))).
Proof.
  intro H. destruct (cycle_total env s) as (s' & E & _ & _ & _ & R).
  rewrite E. cbn [snd]. rewrite R.
  destruct (latestFetchError s), (latestUsdPricePerOunce s),
    (latestUsdToJodRate s); auto using stamped_well_formed.
Qed.

Lemma refresh_subscriptions (gold fx : outcome JsError num)
    (secondFirst : bool) (s : Server num) :
  subscriptions (snd (refreshReferencePrices gold fx secondFirst s)) =
  subscriptions s.
Proof.
  unfold refreshReferencePrices.
  destruct (Promise_all secondFirst gold fx) as [[g f]|e]; reflexivity.
Qed.

Lemma step_well_formed (env : Env num) (a : Action num) (s : Server num) :
  well_formed_registry (subscriptions s) ->
  well_formed_registry (subscriptions (step StringToNumber env a s)).
Proof.
  intro H. destruct a as [gold fx b| |req|req|req]; cbn [step]; auto.
  - now rewrite refresh_subscriptions.
  - now apply cycle_well_formed.
  - destruct (postMonitor_posted env req s) as [E|(plain & _ & E)];
      rewrite E; [exact H|].
    clear req E.
    destruct (postMonitor_cases env plain s)
      as [(_ & msg & E)|(Ha & e & s2 & Ee & Hne & Ec & E)];
      rewrite E; cbn [snd]; [exact H|].
    rename plain into req.
    replace s2 with (snd (evaluateSubscriptions env
      (with_subscriptions s
         (map_set e (registered StringToNumber req) (subscriptions s)))))
      by now rewrite Ec.
    apply cycle_well_formed. cbn [subscriptions with_subscriptions].
    destruct H as [Hk Hw]. split; [now apply map_set_NoDup|].
    apply map_set_Forall; [|exact Hw]. cbn [fst snd].
    now apply registered_well_formed.
Qed.

(** X4: the registry invariant.  However refreshes, evaluation ticks and
    requests follow one another from the start of the process, the registry
    holds at most one subscription per e-mail address, each stored under
    its own non-empty address, with unit gram or ounce, currency JOD or
    USD, a purity that is 24 or one of the valid levels, and finite
    thresholds with lower < upper. *)
Theorem registry_stays_well_formed (env : Env num)
    (actions : list (Action num)) :
  well_formed_registry
    (subscriptions (run StringToNumber env actions initial)).
Proof.
  unfold run.
  assert (H0 : well_formed_registry (subscriptions (@initial num)))
    by (split; constructor).
  revert H0. generalize (@initial num).
  induction actions as [|a rest IH]; intros s H; cbn [fold_left].
  - exact H.
  - apply IH. now apply step_well_formed.
Qed.

End Registration.

Section BeforeRefresh.

Context {num : Type} {JN : JsNumber num}.
Variable StringToNumber : string -> num.

Lemma no_alert_no_mail (evs : list (Event num)) :
  alerts evs = 0%nat -> mails evs = [].
Proof.
  induction evs as [|e rest IH]; [reflexivity|].
  unfold alerts, mails in *. cbn [filter flat_map].
  destruct e; cbn [is_alert List.length app]; try discriminate; exact IH.
Qed.

Lemma step_quiet (env : Env num) (a : Action num) (s : Server num) :
  refreshes a = false -> quiet s -> quiet (step StringToNumber env a s).
Proof.
  intros Hr (Hp & Ha & Hs).
  assert (Hskip : forall s0 : Server num,
             latestUsdPricePerOunce s0 = None ->
             evaluateSubscriptions env s0 = (Returned tt, s0)).
  { intros s0 H0. apply cycle_skipped. right. left. exact H0. }
  destruct a as [gold fx b| |req|req|req]; cbn [step];
    try (split; [|split]; assumption).
  - cbn [refreshes] in Hr. unfold refreshReferencePrices.
    destruct (fetchGoldPriceUsdPerOunce gold) as [g|e1],
      (fetchUsdToJodRate fx) as [f|e2]; try discriminate Hr;
      cbn [Promise_all snd]; (split; [exact Hp|]);
      (split; [|exact Hs]); cbn [effects]; rewrite alerts_app, Ha;
      reflexivity.
  - rewrite (Hskip s Hp). cbn [snd]. split; [|split]; assumption.
  - destruct (postMonitor_posted StringToNumber env req s)
      as [E|(plain & _ & E)];
      rewrite E; [split; [|split]; assumption|].
    destruct (postMonitor_cases StringToNumber env plain s)
      as [(_ & msg & E')|(_ & e & s2 & _ & _ & Ec & E')];
      rewrite E'; cbn [snd]; [split; [|split]; assumption|].
    rewrite Hskip in Ec by exact Hp. injection Ec as <-.
    split; [exact Hp|]. split; [exact Ha|].
    cbn [subscriptions with_subscriptions].
    apply map_set_Forall; [reflexivity | exact Hs].
Qed.

(** X5: nothing is evaluated before reference data arrives.  As long as no
    refresh has had both fetches deliver a number, whatever requests and
    timer ticks have run since the start of the process: no alert has been
    dispatched, no message handed to the transport, no subscription has a
    stored status, every price query is answered 503 and no agent query
    is answered 200. *)
Theorem quiet_until_refreshed (env : Env num) (actions : list (Action num)) :
  forallb (fun a => negb (refreshes a)) actions = true ->
  let s := run StringToNumber env actions initial in
  alerts (effects s) = 0%nat /\
  mails (effects s) = [] /\
  Forall (fun entry => lastStatus (snd entry) = None) (subscriptions s) /\
  forall req : Request num,
    status_code (getPrice StringToNumber env req s) = 503%nat /\
    status_code (getAgent StringToNumber env req s) <> 200%nat.
Proof.
  intro Hall. cbv zeta.
  assert (Q : quiet (run StringToNumber env actions initial)).
  { unfold run.
    assert (H0 : quiet (@initial num)) by (repeat split; constructor).
    revert H0. generalize (@initial num).
    induction actions as [|a rest IH]; intros s H; cbn [fold_left];
      [exact H|].
    cbn [forallb] in Hall. apply andb_true_iff in Hall.
    destruct Hall as [Ha Hrest]. apply negb_true_iff in Ha.
    apply (IH Hrest). now apply step_quiet. }
  destruct Q as (Hp & Ha & Hs).
  split; [exact Ha|]. split; [now apply no_alert_no_mail|].
  split; [exact Hs|]. intro req. split.
  - unfold getPrice. rewrite Hp.
    destruct (latestFetchError _); reflexivity.
  - unfold getAgent. rewrite Hp.
    destruct (_ || _); [discriminate|].
    destruct (latestFetchError _); discriminate.
Qed.

End BeforeRefresh.

Section RegistrationEffects.

Context {num : Type} {JN : JsNumber num}.
Variable StringToNumber : string -> num.

Lemma Forall2_In_split {A B : Type} (P : A -> B -> Prop) (x : A)
    (l : list A) (per : list B) :
  Forall2 P l per -> In x l ->
  exists (pre : list B) (y : B) (post : list B),
    per = (pre ++ y :: post)%list /\ P x y.
Proof.
  induction 1 as [|a b l per Hab _ IH]; intros Hin; [destruct Hin|].
  destruct Hin as [<-|Hin].
  - exists [], b, per. split; [reflexivity | exact Hab].
  - destruct (IH Hin) as (pre & y & post & -> & Hy).
    exists (b :: pre), y, post. split; [reflexivity | exact Hy].
Qed.

(** An accepted registration over usable reference data: what is stored
    under the address when the handler ends, and the events of the new
    entry among those of the handler. *)
Lemma registration_outcome (env : Env num) (req : Request num)
    (s : Server num) (usdPerOunce usdToJod : num) :
  accepted StringToNumber req = true ->
  latestFetchError s = None ->
  latestUsdPricePerOunce s = Some usdPerOunce ->
  latestUsdToJodRate s = Some usdToJod ->
  let e := as_string (req_email req) in
  let stored := registered StringToNumber req in
  exists (s2 : Server num) (pre evs post : list (Event num)),
    postMonitor StringToNumber env req s =
      (Returned {| status_code := 200; body := monitoring_body e |}, s2) /\
    map_get e (subscriptions s2) =
      Some (set_lastStatus stored (statusOf usdPerOunce usdToJod stored)) /\
    effects s2 = (effects s ++ pre ++ evs ++ post)%list /\
    entry_spec env usdPerOunce usdToJod e stored evs.
Proof.
  intros Ha He Hp Hr. cbv zeta.
  destruct (postMonitor_cases StringToNumber env req s)
    as [(Hn & _)|(_ & e & s2 & Ee & Hne & Ec & E)]; [congruence|].
  rewrite Ee. cbn [as_string].
  set (stored := registered StringToNumber req) in *.
  set (s1 := with_subscriptions s (map_set e stored (subscriptions s))) in *.
  destruct (forEntries_spec
              (evaluateEntry env usdPerOunce usdToJod)
              (fun sub =>
                 set_lastStatus sub (statusOf usdPerOunce usdToJod sub))
              (entry_spec env usdPerOunce usdToJod)
              (evaluateEntry_spec env usdPerOunce usdToJod)
              (subscriptions s1)) as (per & Ef & HF).
  assert (E1 : evaluateSubscriptions env s1 =
               (Returned tt,
                emit (with_subscriptions s1
                        (stamped usdPerOunce usdToJod (subscriptions s1)))
                     (List.concat per))).
  { unfold evaluateSubscriptions.
    change (latestFetchError s1) with (latestFetchError s).
    change (latestUsdPricePerOunce s1) with (latestUsdPricePerOunce s).
    change (latestUsdToJodRate s1) with (latestUsdToJodRate s).
    rewrite He, Hp, Hr, Ef. reflexivity. }
  rewrite E1 in Ec. injection Ec as <-.
  destruct (Forall2_In_split _ (e, stored) _ _ HF
              (map_set_In e stored (subscriptions s)))
    as (pre & evs & post & Hper & Hspec).
  cbn [fst snd] in Hspec.
  eexists. exists (List.concat pre), evs, (List.concat post).
  split; [exact E|].
  split.
  { cbn [subscriptions emit with_subscriptions s1].
    rewrite map_get_stamped, map_get_set_same. reflexivity. }
  split.
  { cbn [effects emit with_subscriptions s1]. rewrite Hper.
    rewrite concat_app. cbn [List.concat]. reflexivity. }
  exact Hspec.
Qed.

(** X6: registering adds at most one entry.  A rejected request leaves the
    registry's addresses as they are; an accepted one for an address
    already there leaves the addresses and their order as they are (the
    entry is replaced in place), and one for a new address appends that
    address last.  No other address appears or disappears. *)
Theorem registration_keys (env : Env num) (req : Request num)
    (s : Server num) :
  map fst (subscriptions (snd (postMonitor StringToNumber env req s))) =
  if accepted StringToNumber req then
    match map_get (as_string (req_email req)) (subscriptions s) with
    | Some _ => map fst (subscriptions s)
    | None =>
        (map fst (subscriptions s) ++ [as_string (req_email req)])%list
    end
  else map fst (subscriptions s).
Proof.
  destruct (postMonitor_cases StringToNumber env req s)
    as [(Hn & msg & E)|(Ha & e & s2 & Ee & Hne & Ec & E)];
    rewrite E; cbn [snd]; [now rewrite Hn|].
  rewrite Ha, Ee. cbn [as_string].
  destruct (cycle_frame env
              (with_subscriptions s
                 (map_set e (registered StringToNumber req)
                    (subscriptions s))))
    as (s' & evs & E' & Hk & _).
  rewrite Ec in E'. injection E' as <-. rewrite Hk.
  cbn [subscriptions with_subscriptions]. apply map_set_keys.
Qed.

Lemma mails_to_none (address : string) (evs : list (Event num)) :
  (forall m, In m (mails evs) -> to m <> address) ->
  mails_to address evs = [].
Proof.
  unfold mails_to. induction (mails evs) as [|m rest IH]; [reflexivity|].
  intro H. cbn [filter].
  destruct (String.eqb (to m) address) eqn:E.
  - apply String.eqb_eq in E. now elim (H m (or_introl eq_refl)).
  - apply IH. intros m' Hin. apply H. now right.
Qed.

(** The entries that are not under [address] send it nothing. *)
Lemma others_send_nothing (env : Env num) (address : string)
    (entries : JsMap (Subscription num)) (per : list (list (Event num))) :
  Forall2 (fun e evs => entry_mail env (fst e) evs) entries per ->
  ~ In address (map fst entries) ->
  mails_to address (List.concat per) = [].
Proof.
  intros HF Hnotin. apply mails_to_none. intros m Hin Hto.
  destruct (concat_entry_mail env entries per HF) as (_ & _ & Hm).
  destruct (Hm m Hin) as (Hkey & _). congruence.
Qed.

(** X7: a registration is evaluated at once, from scratch.  When a request
    is accepted while reference data is usable, in a registry with one
    entry per address, the handler answers 200 and the entry under the
    address ends with the status computed for its new parameters.  Among
    the events of the handler, if that status is a breach and a transport
    is configured, exactly one message is addressed to the address, and it
    names the breach, also when the address was registered before and had
    already been alerted about the same breach; without a transport the
    warning is logged and no message is handed over; if the status is
    within range no message is addressed to the address. *)
Theorem registration_alerts (env : Env num) (req : Request num)
    (s : Server num) (usdPerOunce usdToJod : num) :
  accepted StringToNumber req = true ->
  NoDup (map fst (subscriptions s)) ->
  latestFetchError s = None ->
  latestUsdPricePerOunce s = Some usdPerOunce ->
  latestUsdToJodRate s = Some usdToJod ->
  let e := as_string (req_email req) in
  let status :=
    statusOf usdPerOunce usdToJod (registered StringToNumber req) in
  exists (s2 : Server num) (final : Subscription num)
         (evs : list (Event num)),
    postMonitor StringToNumber env req s =
      (Returned {| status_code := 200; body := monitoring_body e |}, s2) /\
    map_get e (subscriptions s2) = Some final /\
    lastStatus final = Some status /\
    same_parameters final (registered StringToNumber req) /\
    effects s2 = (effects s ++ evs)%list /\
    (status = within_range -> mails_to e evs = []) /\
    (status <> within_range ->
     forall send : Mail num -> option JsError,
       getEmailTransporter env = Some send ->
       exists m : Mail num,
         mails_to e evs = [m] /\
         subject m = "Gold price alert: " ++ direction status /\
         from m = getEmailFrom env) /\
    (status <> within_range ->
     getEmailTransporter env = None ->
     mails evs = [] /\
     In (console_warn "Email transport not configured. Skipping alert.")
        evs).
Proof.
  intros Ha Hk He Hp Hr. cbv zeta.
  destruct (postMonitor_cases StringToNumber env req s)
    as [(Hn & _)|(_ & e & s2 & Ee & Hne & Ec & E)]; [congruence|].
  rewrite Ee. cbn [as_string].
  set (stored := registered StringToNumber req) in *.
  set (status := statusOf usdPerOunce usdToJod stored).
  set (s1 := with_subscriptions s (map_set e stored (subscriptions s))) in *.
  destruct (forEntries_spec
              (evaluateEntry env usdPerOunce usdToJod)
              (fun sub =>
                 set_lastStatus sub (statusOf usdPerOunce usdToJod sub))
              (fun key sub evs =>
                 entry_spec env usdPerOunce usdToJod key sub evs /\
                 entry_mail env key evs))
    with (entries := subscriptions s1) as (per & Ef & HF).
  { intros key sub.
    destruct (evaluateEntry_spec env usdPerOunce usdToJod key sub)
      as (evs & E1 & S).
    destruct (evaluateEntry_mail env usdPerOunce usdToJod key sub)
      as (evs' & E2 & M).
    rewrite E1 in E2. injection E2 as <-.
    exists evs. split; [exact E1|]. split; assumption. }
  assert (E1 : evaluateSubscriptions env s1 =
               (Returned tt,
                emit (with_subscriptions s1
                        (stamped usdPerOunce usdToJod (subscriptions s1)))
                     (List.concat per))).
  { unfold evaluateSubscriptions.
    change (latestFetchError s1) with (latestFetchError s).
    change (latestUsdPricePerOunce s1) with (latestUsdPricePerOunce s).
    change (latestUsdToJodRate s1) with (latestUsdToJodRate s).
    rewrite He, Hp, Hr, Ef. reflexivity. }
  rewrite E1 in Ec. injection Ec as <-.
  destruct (map_set_split e stored (subscriptions s) Hk)
    as (pre & post & Hsplit & Hpre & Hpost).
  cbn [subscriptions s1 with_subscriptions] in HF. rewrite Hsplit in HF.
  apply Forall2_app_inv_l in HF.
  destruct HF as (per_pre & per_rest & HFpre & HFrest & ->).
  inversion HFrest as [|? evs ? per_post [Hspec Hmail] HFpost]; subst.
  cbn [fst snd] in Hspec, Hmail.
  assert (Hpre0 : mails_to e (List.concat per_pre) = []).
  { apply (others_send_nothing env e pre); [|exact Hpre].
    eapply Forall2_impl; [|exact HFpre]. now intros a b [_ H]. }
  assert (Hpost0 : mails_to e (List.concat per_post) = []).
  { apply (others_send_nothing env e post); [|exact Hpost].
    eapply Forall2_impl; [|exact HFpost]. now intros a b [_ H]. }
  assert (Hto : mails_to e
                  (List.concat (per_pre ++ evs :: per_post)) =
                mails_to e evs).
  { rewrite concat_app. cbn [List.concat].
    rewrite !mails_to_app, Hpre0, Hpost0. cbn [app]. apply app_nil_r. }
  exists (emit (with_subscriptions s1
                  (stamped usdPerOunce usdToJod (subscriptions s1)))
            (List.concat (per_pre ++ evs :: per_post))).
  eexists. exists (List.concat (per_pre ++ evs :: per_post)).
  split; [exact E|].
  split.
  { cbn [subscriptions emit with_subscriptions s1].
    rewrite map_get_stamped, map_get_set_same. reflexivity. }
  split; [reflexivity|].
  split; [unfold same_parameters; now repeat split|].
  split; [reflexivity|].
  rewrite Hto.
  unfold entry_spec, due in Hspec. cbv zeta in Hspec.
  change (lastStatus stored) with (@None Status) in Hspec.
  fold status in Hspec.
  split; [|split].
  - intro W. destruct Hspec as [([D _] & _)|(_ & ->)];
      [contradiction | reflexivity].
  - intros W send Hsend.
    destruct Hspec as [(_ & A & _)|(N & _)];
      [|exfalso; apply N; split; [exact W | discriminate]].
    unfold alert_events in A. rewrite Hsend in A.
    destruct A as (m & Hm & Hsub & A).
    assert (Hmails : mails evs = [m])
      by (destruct (send m); subst evs; reflexivity).
    exists m. split; [|split; [exact Hsub|]].
    + unfold mails_to. rewrite Hmails. cbn [filter].
      rewrite Hm, String.eqb_refl. reflexivity.
    + destruct Hmail as (_ & _ & Hall).
      apply Hall. rewrite Hmails. now left.
  - intros W Hnone.
    destruct Hspec as [(_ & A & _)|(N & _)];
      [|exfalso; apply N; split; [exact W | discriminate]].
    unfold alert_events in A. rewrite Hnone in A. subst evs.
    split.
    + destruct (concat_entry_mail env
                  (pre ++ (e, stored) :: post)%list
                  (per_pre ++
                   [console_warn
                      "Email transport not configured. Skipping alert."]
                   :: per_post)%list) as (_ & Hn & _); [|exact (Hn Hnone)].
      apply Forall2_app;
        [eapply Forall2_impl; [|exact HFpre]; now intros a b [_ H]|].
      constructor; [exact Hmail|].
      eapply Forall2_impl; [|exact HFpost]. now intros a b [_ H].
    + rewrite concat_app. apply in_or_app. right. cbn [List.concat].
      now left.
Qed.

End RegistrationEffects.

(* ------------------------------------------------------------------ *)
(** ** The query routes *)

Section Queries.

Context {num : Type} {JN : JsNumber num}.
Variable StringToNumber : string -> num.
Local Open Scope js_scope.

(** X8: the agent route and the monitor agree.  Whenever the agent query
    answers with a payload, registering the same fields under an e-mail
    address stores a subscription with the payload's unit, currency and
    thresholds whose status after the handler is the status the payload
    reports: the alerts follow the status the agent route shows. *)
Theorem agent_agrees_with_monitor (env : Env num) (req : Request num)
    (s : Server num) (payload : Payload num) :
  body (getAgent StringToNumber env req s) = payload_body payload ->
  truthy (req_email req) && is_string (req_email req) = true ->
  exists final : Subscription num,
    map_get (as_string (req_email req))
      (subscriptions (snd (postMonitor StringToNumber env req s)))
    = Some final /\
    lastStatus final = Some (p_status payload) /\
    unit final = p_unit payload /\
    currency final = p_currency payload /\
    lower_threshold final = p_lower_threshold payload /\
    upper_threshold final = p_upper_threshold payload.
Proof.
  intros Hbody Hemail. unfold getAgent in Hbody.
  destruct (negb (isFinite (Number StringToNumber (req_lower_threshold req)))
            || negb (isFinite
                       (Number StringToNumber (req_upper_threshold req)))
            || (Number StringToNumber (req_lower_threshold req) >=?
                Number StringToNumber (req_upper_threshold req)))
    eqn:Hcheck; [discriminate Hbody|].
  apply orb_false_elim in Hcheck. destruct Hcheck as [Hcheck Hlu].
  apply orb_false_elim in Hcheck. destruct Hcheck as [Hl Hu].
  apply negb_false_iff in Hl, Hu.
  destruct (latestFetchError s) eqn:He; [discriminate Hbody|].
  destruct (latestUsdPricePerOunce s) as [usdPerOunce|] eqn:Hp;
    [|discriminate Hbody].
  destruct (latestUsdToJodRate s) as [usdToJod|] eqn:Hr;
    [|discriminate Hbody].
  cbn [body] in Hbody. injection Hbody as <-.
  assert (Ha : accepted StringToNumber req = true).
  { unfold accepted. rewrite Hemail, Hl, Hu, Hlu. reflexivity. }
  destruct (registration_outcome StringToNumber env req s usdPerOunce
              usdToJod Ha He Hp Hr)
    as (s2 & pre & evs & post & E & Hget & _).
  rewrite E. cbn [snd]. eexists. split; [exact Hget|].
  now repeat split.
Qed.

(** X9: the price route and the agent route agree.  Whenever the agent
    query answers with a payload, the price query with the same unit,
    currency and purity fields answers 200 with the payload's price, unit
    and currency. *)
Theorem price_agrees_with_agent (env : Env num) (req : Request num)
    (s : Server num) (payload : Payload num) :
  body (getAgent StringToNumber env req s) = payload_body payload ->
  getPrice StringToNumber env req s =
    {| status_code := 200;
       body := price_body (current_price payload) (p_unit payload)
                 (p_currency payload) (now env) |}.
Proof.
  intros Hbody. unfold getAgent in Hbody. unfold getPrice.
  destruct (_ || _) in Hbody; [discriminate Hbody|].
  destruct (latestFetchError s); [discriminate Hbody|].
  destruct (latestUsdPricePerOunce s); [|discriminate Hbody].
  destruct (latestUsdToJodRate s); [|discriminate Hbody].
  cbn [body] in Hbody. injection Hbody as <-. reflexivity.
Qed.

(** X10: no stale prices.  The answer to a price query right after a
    refresh depends on that refresh alone, never on what was cached before:
    it is 200 exactly when both fetches delivered, and 503 otherwise, also
    when good values from an earlier refresh are still stored. *)
Theorem price_follows_last_refresh (env : Env num) (req : Request num)
    (gold fx : outcome JsError num) (secondFirst : bool)
    (s : Server num) :
  let s' := snd (refreshReferencePrices gold fx secondFirst s) in
  (forall s0 : Server num,
     getPrice StringToNumber env req
       (snd (refreshReferencePrices gold fx secondFirst s0)) =
     getPrice StringToNumber env req s') /\
  (status_code (getPrice StringToNumber env req s') = 200%nat <->
     exists g f, gold = Returned g /\ fx = Returned f) /\
  (status_code (getPrice StringToNumber env req s') = 503%nat <->
     ~ exists g f, gold = Returned g /\ fx = Returned f).
Proof.
  cbv zeta. unfold refreshReferencePrices, getPrice.
  destruct gold as [g|e1], fx as [f|e2]; cbn [Promise_all snd
    latestFetchError latestUsdPricePerOunce latestUsdToJodRate];
    (split; [reflexivity|]); cbn [status_code]; split; split;
    try discriminate; try (intros _; eauto; fail);
    try (intros (g' & f' & Hg & Hf); discriminate);
    try (intros N; exfalso; apply N; eauto; fail);
    try (intros _ (g' & f' & Hg & Hf); discriminate).
Qed.

End Queries.

(* ------------------------------------------------------------------ *)
(** ** The status follows the price *)

Ltac cmp_specs :=
  repeat match goal with
  | H : context [PosDef.Pos.compare_cont Eq ?x ?y] |- _ =>
      change (PosDef.Pos.compare_cont Eq x y) with (Pos.compare x y) in H
  | |- context [PosDef.Pos.compare_cont Eq ?x ?y] =>
      change (PosDef.Pos.compare_cont Eq x y) with (Pos.compare x y)
  end;
  repeat match goal with
  | H : context [(?x ?= ?y)%Z] |- _ => destruct (Z.compare_spec x y)
  | |- context [(?x ?= ?y)%Z] => destruct (Z.compare_spec x y)
  | H : context [(?x ?= ?y)%positive] |- _ => destruct (Pos.compare_spec x y)
  | |- context [(?x ?= ?y)%positive] => destruct (Pos.compare_spec x y)
  end.

(** The order [SFcompare] decides is transitive. *)
Lemma SFcompare_chain (a b c : spec_float) (c1 c2 : comparison) :
  SFcompare a b = Some c1 -> SFcompare b c = Some c2 ->
  c1 <> Gt -> c2 <> Gt -> c1 = Lt \/ c2 = Lt ->
  SFcompare a c = Some Lt.
Proof.
  intros H1 H2 N1 N2 L.
  destruct a as [sa|sa| |sa ma ea], b as [sb|sb| |sb mb eb],
    c as [sc|sc| |sc mc ec]; cbn [SFcompare] in *; try discriminate;
    try (destruct sa); try (destruct sb); try (destruct sc);
    cbn in *;
    try (injection H1 as <-); try (injection H2 as <-);
    try congruence; try (destruct L; congruence).
  all: cmp_specs; subst; cbn in *; try congruence; try lia;
    try (destruct L; congruence).
Qed.

Lemma SFeqb_zero (a : spec_float) :
  SFeqb a (S754_zero false) = true -> exists s, a = S754_zero s.
Proof.
  destruct a as [s|s| |s m e]; cbn; try discriminate.
  - intros _. now exists s.
  - destruct s; discriminate.
  - destruct s; discriminate.
Qed.

#[export] Instance binary64_chains : JsNumberChains float.
Proof.
  split.
  - intros x y z. cbn [nlt nle binary64].
    rewrite !ltb_spec, leb_spec. unfold SFltb, SFleb.
    destruct (SFcompare (Prim2SF x) (Prim2SF y)) as [c1|] eqn:E1;
      [|discriminate].
    destruct (SFcompare (Prim2SF y) (Prim2SF z)) as [c2|] eqn:E2;
      [|discriminate].
    intros H1 H2.
    rewrite (SFcompare_chain _ _ _ _ _ E1 E2); [reflexivity | | |].
    + destruct c1; congruence.
    + destruct c2; congruence.
    + right. destruct c2; congruence.
  - intros x y z. cbn [nlt nle binary64].
    rewrite !ltb_spec, leb_spec. unfold SFltb, SFleb.
    destruct (SFcompare (Prim2SF x) (Prim2SF y)) as [c1|] eqn:E1;
      [|discriminate].
    destruct (SFcompare (Prim2SF y) (Prim2SF z)) as [c2|] eqn:E2;
      [|discriminate].
    intros H1 H2.
    rewrite (SFcompare_chain _ _ _ _ _ E1 E2); [reflexivity | | |].
    + destruct c1; congruence.
    + destruct c2; congruence.
    + left. destruct c1; congruence.
  - reflexivity.
  - intros x y. cbn [neqb nle binary64 decimal].
    rewrite FloatAxioms.eqb_spec, !FloatAxioms.leb_spec.
    change (Prim2SF (F64.decimal 0 0)) with (S754_zero false).
    intro H. apply SFeqb_zero in H. destruct H as [s ->].
    destruct (Prim2SF y); reflexivity.
  - intros x y. cbn [neqb nle binary64 decimal].
    rewrite FloatAxioms.eqb_spec, !FloatAxioms.leb_spec.
    change (Prim2SF (F64.decimal 0 0)) with (S754_zero false).
    intro H. apply SFeqb_zero in H. destruct H as [s ->].
    destruct (Prim2SF x); reflexivity.
Qed.

#[export] Instance exact_chains : JsNumberChains Exact.xnum.
Proof.
  split.
  - intros [|x] [|y] [|z]; cbn; try discriminate.
    destruct (Qcompare_spec x y), (Qcompare_spec y z), (Qcompare_spec x z);
      intros Hxy Hyz; try congruence; exfalso; lra.
  - intros [|x] [|y] [|z]; cbn; try discriminate.
    destruct (Qcompare_spec x y), (Qcompare_spec y z), (Qcompare_spec x z);
      intros Hxy Hyz; try congruence; exfalso; lra.
  - reflexivity.
  - intros [|x] [|y]; try discriminate; try reflexivity.
    change (match (x ?= 0 # 1)%Q with Eq => true | _ => false end = true ->
            match (x ?= y)%Q with Gt => false | _ => true end =
            match (0 # 1 ?= y)%Q with Gt => false | _ => true end).
    destruct (Qcompare_spec x (0 # 1)), (Qcompare_spec x y),
      (Qcompare_spec (0 # 1) y); intros Hx0; try congruence; exfalso; lra.
  - intros [|x] [|y]; try discriminate; try reflexivity.
    change (match (y ?= 0 # 1)%Q with Eq => true | _ => false end = true ->
            match (x ?= y)%Q with Gt => false | _ => true end =
            match (x ?= 0 # 1)%Q with Gt => false | _ => true end).
    destruct (Qcompare_spec y (0 # 1)), (Qcompare_spec x y),
      (Qcompare_spec x (0 # 1)); intros Hx0; try congruence; exfalso; lra.
Qed.

(** The case analysis behind the monotonicity of [evaluateStatus]. *)
Ltac status_by_price Hle :=
  unfold evaluateStatus;
  repeat match goal with
  | |- context [nlt ?a ?b] =>
      let E := fresh "E" in destruct (nlt a b) eqn:E
  end; cbn [rank]; try lia; exfalso;
  repeat match goal with
  | H : nlt _ ?l = true |- _ =>
      pose proof (nle_nlt_trans _ _ _ Hle H); clear H
  | H : nlt ?u _ = true |- _ =>
      pose proof (nlt_nle_trans _ _ _ H Hle); clear H
  end; congruence.

Section StatusOrder.

Context {num : Type} {JN : JsNumber num} {JC : JsNumberChains num}.

(** X11: the status follows the price.  For fixed thresholds, whatever
    they are, a price that is not lower never gets a lower status, in the
    order below_range, within_range, above_range. *)
Theorem evaluateStatus_monotone (price1 price2 lower upper : num) :
  nle price1 price2 = true ->
  (rank (evaluateStatus price1 lower upper) <=
   rank (evaluateStatus price2 lower upper))%nat.
Proof.
  intro Hle. status_by_price Hle.
Qed.

End StatusOrder.

Section StatusBinary64.

(** X12: the status follows the gold price.  With binary64 arithmetic,
    for a finite rate that is not negative and a subscription with a valid
    purity, a base price that is not lower (both finite and not negative)
    never gives the subscription a lower status. *)
Theorem status_follows_gold_price (p1 p2 r : float)
    (subscription : Subscription float) :
  In (purity subscription) VALID_PURITY_LEVELS ->
  isFinite p2 = true -> isFinite r = true ->
  nle (decimal 0 0) p1 = true -> nle p1 p2 = true ->
  nle (decimal 0 0) r = true ->
  (rank (statusOf p1 r subscription) <=
   rank (statusOf p2 r subscription))%nat.
Proof.
  intros Hk F2 Fr H1 L Hr. unfold statusOf.
  pose proof (convertPrice_keeps_order_binary64 p1 p2 r
                (purity subscription) (unit subscription)
                (currency subscription) H1 L F2 Hr Fr Hk) as Hle.
  change (nle (convertPrice p1 (unit subscription) (currency subscription)
                 r (Some (purity subscription)))
              (convertPrice p2 (unit subscription) (currency subscription)
                 r (Some (purity subscription))) = true) in Hle.
  status_by_price Hle.
Qed.

End StatusBinary64.

(* ------------------------------------------------------------------ *)
(** ** The feeds and the cache *)

Section FeedFacts.

Context {num : Type} {JN : JsNumber num}.
Variable StringToNumber : string -> num.

Lemma fetchGold_returns (fetched : outcome JsError (HttpResponse num))
    (p : num) :
  fetchGoldPriceUsdPerOunce fetched = Returned p ->
  exists (response : HttpResponse num) (data : Json num),
    fetched = Returned response /\ ok response = true /\
    http_json response = Returned data /\
    prop (first_of (prop (Some data) "items")) "xauPrice"
    = Some (JsonNumber p).
Proof.
  unfold fetchGoldPriceUsdPerOunce.
  destruct fetched as [response|e]; [|discriminate].
  destruct (ok response) eqn:Ok; cbn [negb]; [|discriminate].
  destruct (http_json response) as [data|e] eqn:Ej; [|discriminate].
  cbv zeta.
  destruct (prop (first_of (prop (Some data) "items")) "xauPrice")
    as [[| |n| | |]|] eqn:Ep; try discriminate.
  intro H. injection H as <-. now exists response, data.
Qed.

Lemma fetchFx_returns (fetched : outcome JsError (HttpResponse num))
    (f : num) :
  fetchUsdToJodRate fetched = Returned f ->
  exists (response : HttpResponse num) (data : Json num),
    fetched = Returned response /\ ok response = true /\
    http_json response = Returned data /\
    prop (prop (Some data) "rates") "JOD" = Some (JsonNumber f).
Proof.
  unfold fetchUsdToJodRate.
  destruct fetched as [response|e]; [|discriminate].
  destruct (ok response) eqn:Ok; cbn [negb]; [|discriminate].
  destruct (http_json response) as [data|e] eqn:Ej; [|discriminate].
  destruct (_ || _); [discriminate|].
  destruct (prop (prop (Some data) "rates") "JOD")
    as [[| |n| | |]|] eqn:Ep; try discriminate.
  intro H. injection H as <-. now exists response, data.
Qed.

(** X13: what a refresh takes from the feeds.  A refresh never touches the
    registry; it stores new reference values only when both responses have
    a status in 200-299 and a body that parses, and then the values are the
    number at [items[0].xauPrice] of the gold body and the number at
    [rates.JOD] of the rate body; in every other case both stored values
    stay and an error is recorded.  A gold response outside 200-299 is
    refused whatever its body holds, and when it is the failure recorded
    the error names its status. *)
Theorem refresh_takes_feed_numbers (env : Env num)
    (gold fx : outcome JsError (HttpResponse num)) (secondFirst : bool)
    (s : Server num) :
  let s' := step StringToNumber env (Refresh gold fx secondFirst) s in
  subscriptions s' = subscriptions s /\
  ((exists (rg rf : HttpResponse num) (dg df : Json num) (p f : num),
       gold = Returned rg /\ ok rg = true /\ http_json rg = Returned dg /\
       prop (first_of (prop (Some dg) "items")) "xauPrice"
       = Some (JsonNumber p) /\
       fx = Returned rf /\ ok rf = true /\ http_json rf = Returned df /\
       prop (prop (Some df) "rates") "JOD" = Some (JsonNumber f) /\
       latestUsdPricePerOunce s' = Some p /\
       latestUsdToJodRate s' = Some f /\
       latestFetchError s' = None) \/
   (latestUsdPricePerOunce s' = latestUsdPricePerOunce s /\
    latestUsdToJodRate s' = latestUsdToJodRate s /\
    exists error : JsError, latestFetchError s' = Some error)) /\
  (forall rg : HttpResponse num,
     gold = Returned rg -> ok rg = false ->
     latestUsdPricePerOunce s' = latestUsdPricePerOunce s /\
     ((secondFirst = false \/ exists f, fetchUsdToJodRate fx = Returned f) ->
      latestFetchError s' =
      Some ("Gold API error: " ++ status_text rg))).
Proof.
  cbv zeta. cbn [step]. split; [apply refresh_subscriptions|]. split.
  - unfold refreshReferencePrices.
    destruct (fetchGoldPriceUsdPerOunce gold) as [p|e1] eqn:Eg,
      (fetchUsdToJodRate fx) as [f|e2] eqn:Ef; cbn [Promise_all snd];
      try (right; cbn; repeat split; eexists; reflexivity).
    left. apply fetchGold_returns in Eg. apply fetchFx_returns in Ef.
    destruct Eg as (rg & dg & -> & Okg & Jg & Pg).
    destruct Ef as (rf & df & -> & Okf & Jf & Pf).
    exists rg, rf, dg, df, p, f. cbn. now repeat split.
  - intros rg -> Hbad. unfold refreshReferencePrices.
    cbn [fetchGoldPriceUsdPerOunce]. rewrite Hbad. cbn [negb].
    destruct (fetchUsdToJodRate fx) as [f|e2]; cbn [Promise_all snd];
      (split; [reflexivity|]); cbn [latestFetchError].
    + intros _. reflexivity.
    + intros [->|(f & Hf)]; [reflexivity | discriminate Hf].
Qed.

End FeedFacts.

(* ------------------------------------------------------------------ *)
(** ** The page and the server *)

Section PageFacts.

Context {num : Type} {JN : JsNumber num} {JC : JsNumberChains num}.
Variable StringToNumber : string -> num.
Variable trim : string -> string.
Local Open Scope js_scope.

(** A finite number survives the JSON round trip as a finite number. *)
Lemma over_json_finite (n : num) :
  isFinite n = true ->
  exists n' : num,
    Client.over_json n = JNumber n' /\ isFinite n' = true /\
    (forall x, nle x n' = nle x n) /\ (forall x, nle n' x = nle n x).
Proof.
  intro H. unfold Client.over_json. rewrite H.
  destruct (neqb n (decimal 0 0)) eqn:E.
  - exists (decimal 0 0). split; [reflexivity|].
    split; [apply zero_finite|]. split; intro x.
    + symmetry. now apply nle_zero_r.
    + symmetry. now apply nle_zero_l.
  - exists n. now repeat split.
Qed.

(** X14: the page's checks are the server's.  When the page's
    [startMonitoring] finds a non-empty trimmed address and finite
    thresholds with lower < upper, the body it posts passes the validation
    of [POST /api/monitor]: with a server that answers, the page reports
    success and the registry then holds a subscription under the trimmed
    address; the page shows "Unable to start monitoring" only when no
    response arrives. *)
Theorem page_request_is_accepted (env : Env num) (s : Server num)
    (post : Request num -> option nat) (form : Client.Form) :
  (forall (req : Request num) (response : Response num) (s' : Server num),
     postMonitor StringToNumber env req s = (Returned response, s') ->
     post req = Some (status_code response)) ->
  let line := Client.startMonitoring StringToNumber trim post form in
  let email := trim (Client.emailInput form) in
  let '(lower, upper) := Client.getThresholdValues StringToNumber form in
  Client.textContent line <>
    "Unable to start monitoring. Ensure the backend is running at http://localhost:3000." /\
  (Client.className line = "status success" <->
     email <> "" /\ isFinite lower = true /\ isFinite upper = true /\
     nle upper lower = false) /\
  (Client.className line = "status success" ->
     exists stored : Subscription num,
       map_get email
         (subscriptions
            (snd (postMonitor StringToNumber env
                    (Client.payload StringToNumber form email lower upper)
                    s)))
       = Some stored /\
       same_parameters stored
         (registered StringToNumber
            (Client.payload StringToNumber form email lower upper))).
Proof.
  intros Hpost. cbv zeta. unfold Client.startMonitoring.
  destruct (Client.getThresholdValues StringToNumber form) as [lower upper].
  set (email := trim (Client.emailInput form)).
  destruct (String.eqb email "") eqn:Ee.
  { apply String.eqb_eq in Ee.
    cbn [Client.textContent Client.className].
    split; [discriminate|]. split; [|discriminate].
    split; [discriminate | intros (N & _); contradiction]. }
  apply String.eqb_neq in Ee.
  destruct (isFinite lower) eqn:Hl; cbn [negb orb].
  2:{ cbn [Client.textContent Client.className].
      split; [discriminate|]. split; [|discriminate].
      split; [discriminate | intros (_ & N & _); discriminate N]. }
  destruct (isFinite upper) eqn:Hu; cbn [negb orb].
  2:{ cbn [Client.textContent Client.className].
      split; [discriminate|]. split; [|discriminate].
      split; [discriminate | intros (_ & _ & N & _); discriminate N]. }
  destruct (nle upper lower) eqn:Hlu.
  { cbn [Client.textContent Client.className].
    split; [discriminate|]. split; [|discriminate].
    split; [discriminate | intros (_ & _ & _ & N); discriminate N]. }
  set (req := Client.payload StringToNumber form email lower upper).
  assert (Ha : accepted StringToNumber req = true).
  { destruct (over_json_finite lower Hl) as (l' & El & Fl & Ll & Rl).
    destruct (over_json_finite upper Hu) as (u' & Eu & Fu & Lu & Ru).
    unfold accepted, req, Client.payload.
    cbn [req_email req_lower_threshold req_upper_threshold truthy is_string].
    rewrite El, Eu. cbn [Number]. rewrite Fl, Fu.
    rewrite Ll, Ru, Hlu.
    apply String.eqb_neq in Ee. rewrite Ee. reflexivity. }
  destruct (postMonitor_cases StringToNumber env req s)
    as [(Hn & _)|(_ & e & s2 & Ereq & Hne & Ec & E)]; [congruence|].
  assert (He : e = email) by (cbn in Ereq; congruence). subst e.
  rewrite (Hpost _ _ _ E). cbn [status_code Nat.leb andb].
  cbn [Client.textContent Client.className].
  split; [cbn; discriminate|]. split; [tauto|]. intros _.
  rewrite E. cbn [snd].
  destruct (cycle_total env
              (with_subscriptions s
                 (map_set email (registered StringToNumber req)
                    (subscriptions s))))
    as (s' & E' & _ & _ & _ & R).
  rewrite Ec in E'. injection E' as <-. rewrite R.
  cbn [latestFetchError latestUsdPricePerOunce latestUsdToJodRate
       subscriptions with_subscriptions].
  destruct (latestFetchError s), (latestUsdPricePerOunce s),
    (latestUsdToJodRate s);
    try (exists (registered StringToNumber req); split;
         [apply map_get_set_same | unfold same_parameters; now repeat split]).
  rewrite map_get_stamped, map_get_set_same. cbn [option_map].
  eexists. split; [reflexivity|]. unfold same_parameters. now repeat split.
Qed.

End PageFacts.

(* ------------------------------------------------------------------ *)
(** ** The further statements at the sample data *)

(** No refresh has succeeded in [Sample.early_actions]. *)
Lemma quiet_until_refreshed_witness :
  let s :=
    run Demo.no_strings Demo.env_accepting Sample.early_actions initial in
  alerts (effects s) = 0%nat /\
  mails (effects s) = [] /\
  Forall (fun entry => lastStatus (snd entry) = None) (subscriptions s) /\
  forall req : Request float,
    status_code (getPrice Demo.no_strings Demo.env_accepting req s)
    = 503%nat /\
    status_code (getAgent Demo.no_strings Demo.env_accepting req s)
    <> 200%nat.
Proof.
  apply (quiet_until_refreshed Demo.no_strings Demo.env_accepting
           Sample.early_actions).
  reflexivity.
Defined.

(** Registering 1900..2100 again, at a cached price of 2200, after the
    address has been alerted about that breach. *)
Lemma registration_alerts_witness :
  let s := snd (evaluateSubscriptions Demo.env_accepting Demo.server_ready) in
  exists (s2 : Server float) (evs : list (Event float)) (m : Mail float),
    postMonitor Demo.no_strings Demo.env_accepting Demo.request_a s =
      (Returned {| status_code := 200; body := monitoring_body "a@x.com" |},
       s2) /\
    effects s2 = (effects s ++ evs)%list /\
    mails_to "a@x.com" evs = [m] /\
    subject m = "Gold price alert: above upper threshold".
Proof.
  cbv zeta.
  destruct (registration_alerts Demo.no_strings Demo.env_accepting
              Demo.request_a
              (snd (evaluateSubscriptions Demo.env_accepting
                      Demo.server_ready))
              2200%float 0.71%float)
    as (s2 & final & evs & E & _ & _ & _ & Heff & _ & Hbreach & _);
    try reflexivity.
  { vm_compute. repeat constructor. intros []. }
  destruct (Hbreach ltac:(vm_compute; discriminate)
              (sendMail Demo.env_accepting) eq_refl)
    as (m & Hm & Hsub & _).
  exists s2, evs, m. repeat split; assumption.
Defined.

(** The agent's payload for the fields of [Demo.request_a] at 2200. *)
Lemma agent_agrees_with_monitor_witness :
  exists final : Subscription float,
    map_get "a@x.com"
      (subscriptions
         (snd (postMonitor Demo.no_strings Demo.env_accepting Demo.request_a
                 Demo.server_ready)))
    = Some final /\
    lastStatus final = Some above_range /\
    unit final = "ounce" /\ currency final = "USD" /\
    lower_threshold final = 1900%float /\
    upper_threshold final = 2100%float.
Proof.
  apply (agent_agrees_with_monitor Demo.no_strings Demo.env_accepting
           Demo.request_a Demo.server_ready
           (buildPayload Demo.clock 2200%float "ounce" "USD" 1900%float
              2100%float above_range)); reflexivity.
Defined.

Lemma price_agrees_with_agent_witness :
  getPrice Demo.no_strings Demo.env_accepting Demo.request_a
    Demo.server_ready =
  {| status_code := 200;
     body := price_body 2200%float "ounce" "USD" Demo.clock |}.
Proof.
  change (price_body 2200%float "ounce" "USD" Demo.clock)
    with (let P := buildPayload Demo.clock 2200%float "ounce" "USD"
                     1900%float 2100%float above_range in
          price_body (current_price P) (p_unit P) (p_currency P)
            (now Demo.env_accepting)).
  apply (price_agrees_with_agent Demo.no_strings Demo.env_accepting
           Demo.request_a Demo.server_ready
           (buildPayload Demo.clock 2200%float "ounce" "USD" 1900%float
              2100%float above_range)).
  reflexivity.
Defined.

(** 1800 and 2200 against the band 1900..2100. *)
Lemma evaluateStatus_monotone_witness :
  (rank (evaluateStatus 1800%float 1900%float 2100%float) <=
   rank (evaluateStatus 2200%float 1900%float 2100%float))%nat.
Proof.
  apply (evaluateStatus_monotone 1800%float 2200%float 1900%float
           2100%float).
  reflexivity.
Defined.

(** Base prices 1300 and 2000 at the rate 0.71 for [Sample.sub_b]. *)
Lemma status_follows_gold_price_witness :
  (rank (statusOf 1300%float 0.71%float Sample.sub_b) <=
   rank (statusOf 2000%float 0.71%float Sample.sub_b))%nat.
Proof.
  apply (status_follows_gold_price 1300%float 2000%float 0.71%float
           Sample.sub_b); try reflexivity.
  right. right. right. left. reflexivity.
Defined.

(** The form [Sample.form_a] posted to the server of [Demo.server_ready]. *)
Lemma page_request_is_accepted_witness :
  Client.className
    (Client.startMonitoring Sample.read_digits (fun str => str)
       (served Sample.read_digits Demo.env_accepting Demo.server_ready)
       Sample.form_a)
  = "status success".
Proof.
  pose proof (page_request_is_accepted Sample.read_digits (fun str => str)
                Demo.env_accepting Demo.server_ready
                (served Sample.read_digits Demo.env_accepting
                   Demo.server_ready)
                Sample.form_a) as H.
  cbv zeta in H.
  change (Client.getThresholdValues Sample.read_digits Sample.form_a)
    with (1900%float, 2100%float) in H.
  cbv beta iota in H.
  apply H.
  - intros req response s' E. unfold served. now rewrite E.
  - repeat split; try reflexivity. discriminate.
Defined.
